(** * The Kubernetes transform plugin of crane-lib

    A shallow embedding of [transform/kubernetes/kubernetes.go]: the whiteout
    decision ([getWhiteOuts]), the patch generators ([stripFields],
    [addAnnotations], [removeAnnotations], [removePodFields],
    [removeServiceFields], [getNodePortPatch], [getNodePortInt]) and their
    orchestration ([getKubernetesTransforms], [Run]).

    Go values of type [interface{}] are a tagged tree ([Value]); a Go function
    returning [(T, error)] returns a pair [T * option error]; a function that
    can panic returns an [outcome].  Functions of other packages are either
    written out from their Go text (the [unstructured] accessors, [strconv.Atoi])
    or, when they parse or print JSON text, kept as the operations of a class
    [Library]. *)

From Stdlib Require Import ZArith String Ascii List Bool Lia.
From Stdlib Require Import Numbers.DecimalString Numbers.DecimalNat.
From Stdlib Require Import Floats.SpecFloat.
From stdpp Require Import gmap strings list fin_maps.

Set Warnings "-register-all".
Open Scope string_scope.
Open Scope Z_scope.
Open Scope list_scope.

(** ** Errors and panics *)

Inductive error : Type :=
| ErrSyntax (fn s : string)          (* strconv.NumError with ErrSyntax *)
| ErrRange (fn s : string)           (* strconv.NumError with ErrRange *)
| ErrAccessor (path : list string)   (* unstructured: "accessor error" *)
| ErrLibrary (msg : string).         (* an error of a JSON library *)

(** The result of a Go call that may panic at run time. *)
Inductive outcome (A : Type) : Type :=
| Return (a : A)
| Panic.
Arguments Return {A} a.
Arguments Panic {A}.

#[global] Instance outcome_ret : MRet outcome := fun A a => Return a.
#[global] Instance outcome_bind : MBind outcome := fun A B f m =>
  match m with
  | Return a => f a
  | Panic => Panic
  end.

(** ** Strings: [fmt.Sprintf] verbs and JSON pointers *)

Definition dq : string := String (ascii_of_nat 34) "".
Definition nl : string := String (ascii_of_nat 10) "".

(** [%v] of a Go [int] index (never negative: a slice index). *)
Definition itoa (n : nat) : string := NilEmpty.string_of_uint (Nat.to_uint n).

Definition slash : ascii := ascii_of_nat 47.

(** The characters a JSON string literal holds verbatim: printable ASCII
    other than the quote and the backslash. *)
Definition plain_char (c : ascii) : bool :=
  let n := nat_of_ascii c in
  (32 <=? n)%nat && (n <=? 126)%nat && negb (n =? 34)%nat && negb (n =? 92)%nat.

Fixpoint plain (s : string) : bool :=
  match s with
  | EmptyString => true
  | String c r => plain_char c && plain r
  end.

Fixpoint no_slash (s : string) : bool :=
  match s with
  | EmptyString => true
  | String c r => negb (Ascii.eqb c slash) && no_slash r
  end.

(** [strings.Split(s, sep)] for a one-character separator. *)
Fixpoint split_on (sep : ascii) (s : string) : list string :=
  match s with
  | EmptyString => [""]
  | String c r =>
      if Ascii.eqb c sep then "" :: split_on sep r
      else match split_on sep r with
           | t :: ts => String c t :: ts
           | [] => [String c ""]
           end
  end.

(** [fmt.Sprintf(strings.Repeat("/%v", len(field)), interfaceSlice(field)...)] *)
Fixpoint pointer_of (field : list string) : string :=
  match field with
  | [] => ""
  | f :: rest => "/" +:+ f +:+ pointer_of rest
  end.

(** The reference tokens of a JSON pointer (RFC 6901, no [~] escapes). *)
Definition pointer_tokens (p : string) : option (list string) :=
  match p with
  | EmptyString => Some []
  | String c r => if Ascii.eqb c slash then Some (split_on slash r) else None
  end.

(** An array index in a JSON pointer: decimal, no leading zeros. *)
Definition parse_index (t : string) : option nat :=
  match NilEmpty.uint_of_string t with
  | Some d =>
      let n := Nat.of_uint d in
      if String.eqb (itoa n) t then Some n else None
  | None => None
  end.

(** ** [strconv.Atoi] *)

Definition digit_of (c : ascii) : option Z :=
  let n := nat_of_ascii c in
  if (48 <=? n)%nat && (n <=? 57)%nat then Some (Z.of_nat n - 48) else None.

Fixpoint parse_digits (s : string) (acc : Z) : option Z :=
  match s with
  | EmptyString => Some acc
  | String c r =>
      match digit_of c with
      | Some d => parse_digits r (acc * 10 + d)
      | None => None
      end
  end.

Definition maxInt : Z := 2 ^ 63 - 1.
Definition minInt : Z := - 2 ^ 63.

(** [strconv.Atoi] on a 64-bit platform: an optional sign and at least one
    decimal digit; a syntax error returns 0, a range error the nearest bound. *)
Definition Atoi (s : string) : Z * option error :=
  match s with
  | EmptyString => (0, Some (ErrSyntax "Atoi" s))
  | String c r =>
      let neg := Ascii.eqb c (ascii_of_nat 45) in
      let digits := if neg || Ascii.eqb c (ascii_of_nat 43) then r else s in
      match digits with
      | EmptyString => (0, Some (ErrSyntax "Atoi" s))
      | _ =>
          match parse_digits digits 0 with
          | None => (0, Some (ErrSyntax "Atoi" s))
          | Some n =>
              let v := if neg then - n else n in
              if v <? minInt then (minInt, Some (ErrRange "Atoi" s))
              else if maxInt <? v then (maxInt, Some (ErrRange "Atoi" s))
              else (v, None)
          end
      end
  end.

(** ** [float64] to [int] *)

(** [int(f)] for a [float64]: the fraction is discarded (truncation towards
    zero).  For NaN, the infinities and values outside the range of [int] Go
    leaves the result to the implementation; the amd64 result (the smallest
    [int]) is taken here. *)
Definition float64_to_int (f : spec_float) : Z :=
  match f with
  | S754_zero _ => 0
  | S754_finite s m e =>
      let mag := if 0 <=? e then Z.pos m * 2 ^ e else Z.pos m / 2 ^ (- e) in
      let v := if s then - mag else mag in
      if (minInt <=? v) && (v <=? maxInt) then v else minInt
  | S754_infinity _ | S754_nan => minInt
  end.

(** ** Dynamic values *)

(** A Go [interface{}] as it occurs in an unstructured object: the values a
    JSON decoder produces and the integer types a caller may store. *)
Inductive Value : Type :=
| VNil
| VBool (b : bool)
| VInt (n : Z)
| VInt32 (n : Z)
| VInt64 (n : Z)
| VFloat64 (f : spec_float)
| VString (s : string)
| VSlice (l : list Value)
| VMap (m : gmap string Value).

(** [v == "s"] for an interface value [v] and a string constant. *)
Definition iface_eq_string (v : Value) (s : string) : bool :=
  match v with
  | VString s' => String.eqb s' s
  | _ => false
  end.

(** ** Package [unstructured] (k8s.io/apimachinery) *)

Record Unstructured : Type := { Object : gmap string Value }.

Definition UnstructuredContent (u : Unstructured) : gmap string Value := Object u.

Fixpoint nestedField (val : Value) (fields : list string)
  : Value * bool * option error :=
  match fields with
  | [] => (val, true, None)
  | field :: rest =>
      match val with
      | VNil => (VNil, false, None)
      | VMap m =>
          match m !! field with
          | Some v => nestedField v rest
          | None => (VNil, false, None)
          end
      | _ => (VNil, false, Some (ErrAccessor fields))
      end
  end.

Definition NestedFieldNoCopy (obj : gmap string Value) (fields : list string)
  : Value * bool * option error :=
  nestedField (VMap obj) fields.

Definition NestedString (obj : gmap string Value) (fields : list string)
  : string * bool * option error :=
  match NestedFieldNoCopy obj fields with
  | (_, found, Some err) => ("", found, Some err)
  | (_, false, None) => ("", false, None)
  | (VString s, true, None) => (s, true, None)
  | (_, true, None) => ("", false, Some (ErrAccessor fields))
  end.

Definition getNestedString (obj : gmap string Value) (fields : list string) : string :=
  match NestedString obj fields with
  | (val, true, None) => val
  | _ => ""
  end.

Definition GetKind (u : Unstructured) : string := getNestedString (Object u) ["kind"].
Definition GetAPIVersion (u : Unstructured) : string :=
  getNestedString (Object u) ["apiVersion"].

Definition nestedMapNoCopy (obj : gmap string Value) (fields : list string)
  : gmap string Value * bool * option error :=
  match NestedFieldNoCopy obj fields with
  | (_, found, Some err) => (∅, found, Some err)
  | (_, false, None) => (∅, false, None)
  | (VMap m, true, None) => (m, true, None)
  | (_, true, None) => (∅, false, Some (ErrAccessor fields))
  end.

Definition as_string (v : Value) : option string :=
  match v with
  | VString s => Some s
  | _ => None
  end.

(** A map with a value that is not a string yields no map at all. *)
Definition NestedStringMap (obj : gmap string Value) (fields : list string)
  : gmap string string * bool * option error :=
  match nestedMapNoCopy obj fields with
  | (_, found, Some err) => (∅, found, Some err)
  | (_, false, None) => (∅, false, None)
  | (m, true, None) =>
      if forallb (fun kv => bool_decide (is_Some (as_string kv.2))) (map_to_list m)
      then (omap as_string m, true, None)
      else (∅, false, Some (ErrAccessor fields))
  end.

Definition GetAnnotations (u : Unstructured) : gmap string string :=
  (NestedStringMap (Object u) ["metadata"; "annotations"]).1.1.

(** [runtime.DeepCopyJSONValue] copies maps, slices, strings, [int64], [bool],
    [float64] and nil, and panics on any other type. *)
Fixpoint copyable (v : Value) : bool :=
  match v with
  | VInt _ | VInt32 _ => false
  | VSlice l => forallb copyable l
  | VMap m => map_fold (fun _ v' acc => copyable v' && acc) true m
  | _ => true
  end.

Definition DeepCopyJSONValue (v : Value) : outcome Value :=
  if copyable v then Return v else Panic.

Definition NestedSlice (obj : gmap string Value) (fields : list string)
  : outcome (list Value * bool * option error) :=
  match NestedFieldNoCopy obj fields with
  | (_, found, Some err) => Return ([], found, Some err)
  | (_, false, None) => Return ([], false, None)
  | (VSlice l, true, None) =>
      c ← DeepCopyJSONValue (VSlice l);
      match c with
      | VSlice l' => Return (l', true, None)
      | _ => Panic
      end
  | (_, true, None) => Return ([], false, Some (ErrAccessor fields))
  end.

(** [GetOwnerReferences]: the entries of [metadata.ownerReferences] when that
    is a slice of maps, and nothing otherwise. *)
Fixpoint ownerMaps (original : list Value) : option (list (gmap string Value)) :=
  match original with
  | [] => Some []
  | VMap o :: rest =>
      match ownerMaps rest with
      | Some ret => Some (o :: ret)
      | None => None
      end
  | _ :: _ => None
  end.

Definition GetOwnerReferences (u : Unstructured) : list (gmap string Value) :=
  match NestedFieldNoCopy (Object u) ["metadata"; "ownerReferences"] with
  | (VSlice original, true, None) =>
      match ownerMaps original with
      | Some ret => ret
      | None => []
      end
  | _ => []
  end.

(** ** Package [schema]: group, version, kind *)

Record GroupKind : Type := { Group : string; Kind : string }.

Definition GroupKind_eqb (a b : GroupKind) : bool :=
  String.eqb (Group a) (Group b) && String.eqb (Kind a) (Kind b).

Fixpoint count_slash (s : string) : nat :=
  match s with
  | EmptyString => O
  | String c r => ((if Ascii.eqb c slash then 1 else 0) + count_slash r)%nat
  end.

(** [s[:i]] and [s[i+1:]] for [i] the index of the first occurrence of [sep]. *)
Fixpoint cut (sep : ascii) (s : string) : option (string * string) :=
  match s with
  | EmptyString => None
  | String c r =>
      if Ascii.eqb c sep then Some ("", r)
      else match cut sep r with
           | Some (a, b) => Some (String c a, b)
           | None => None
           end
  end.

(** [schema.ParseGroupVersion]: the group of an [apiVersion] string. *)
Definition ParseGroupVersion (gv : string) : string * string * option error :=
  if (String.length gv =? 0)%nat || String.eqb gv "/" then ("", "", None)
  else match count_slash gv with
       | O => ("", gv, None)
       | S O =>
           match cut slash gv with
           | Some (g, v) => (g, v, None)
           | None => ("", gv, None)
           end
       | _ => ("", "", Some (ErrLibrary "unexpected GroupVersion string"))
       end.

(** [obj.GroupVersionKind().GroupKind()] *)
Definition GroupKindOf (u : Unstructured) : GroupKind :=
  match ParseGroupVersion (GetAPIVersion u) with
  | (_, _, Some _) => {| Group := ""; Kind := "" |}
  | (g, _, None) => {| Group := g; Kind := GetKind u |}
  end.

(** [schema.ParseGroupKind]: "Kind.group". *)
Definition ParseGroupKind (gk : string) : GroupKind :=
  match cut (ascii_of_nat 46) gk with
  | None => {| Group := ""; Kind := gk |}
  | Some (k, g) => {| Group := g; Kind := k |}
  end.

(** [strconv.ParseBool] *)
Definition ParseBool (str : string) : bool * option error :=
  if existsb (String.eqb str) ["1"; "t"; "T"; "true"; "TRUE"; "True"] then (true, None)
  else if existsb (String.eqb str) ["0"; "f"; "F"; "false"; "FALSE"; "False"] then (false, None)
  else (false, Some (ErrSyntax "ParseBool" str)).

(** ** Patches (github.com/evanphx/json-patch) *)

(** An operation is the decoded JSON object: member name to member value. *)
Definition Operation : Type := gmap string Value.
Definition Patch : Type := list Operation.

Definition remove_op (path : string) : Operation :=
  {[ "op" := VString "remove"; "path" := VString path ]}.

Definition quoted (s : string) : string := dq +:+ s +:+ dq.

(** The constant [opRemove]: the text before its verb and the text after. *)
Definition opRemoveBefore : string :=
  "[" +:+ nl +:+ "{" +:+ quoted "op" +:+ ": " +:+ quoted "remove" +:+ ", "
  +:+ quoted "path" +:+ ": " +:+ dq.
Definition opRemoveAfter : string := dq +:+ "}" +:+ nl +:+ "]".

(** [fmt.Sprintf(opRemove, path)] *)
Definition opRemove (path : string) : string :=
  opRemoveBefore +:+ path +:+ opRemoveAfter.

(** The member [{"op": "add", "path": "/metadata/annotations/k", "value": "v"}]
    shared by [annotationInitial] and [annotationNext]. *)
Definition annotationAdd (key value : string) : string :=
  "{" +:+ quoted "op" +:+ ": " +:+ quoted "add" +:+ ", " +:+ quoted "path" +:+ ": "
  +:+ quoted ("/metadata/annotations/" +:+ key) +:+ ", " +:+ quoted "value" +:+ ": "
  +:+ quoted value +:+ "}".

Definition annotationInitial (patchJSON key value : string) : string :=
  patchJSON +:+ nl +:+ annotationAdd key value.
Definition annotationNext (patchJSON key value : string) : string :=
  patchJSON +:+ "," +:+ nl +:+ annotationAdd key value.

Definition annotationRemove (key : string) : string :=
  "{" +:+ quoted "op" +:+ ": " +:+ quoted "remove" +:+ ", " +:+ quoted "path" +:+ ": "
  +:+ quoted ("/metadata/annotations/" +:+ key) +:+ "}".

Definition removeAnnotationInitial (patchJSON key : string) : string :=
  patchJSON +:+ nl +:+ annotationRemove key.
Definition removeAnnotationNext (patchJSON key : string) : string :=
  patchJSON +:+ "," +:+ nl +:+ annotationRemove key.

Definition podNodeName : string := "/spec/nodeName".
Definition podNodeSelector : string := "/spec/nodeSelector".
Definition podPriority : string := "/spec/priority".
Definition updateClusterIP : string := "/spec/clusterIP".
Definition updateClusterIPs : string := "/spec/clusterIPs".
Definition updateExternalIPs : string := "/spec/externalIPs".
Definition updateNodePortString (i : nat) : string :=
  "/spec/ports/" +:+ itoa i +:+ "/nodePort".
Definition containerImageUpdate (i : nat) : string :=
  "/spec/template/spec/containers/" +:+ itoa i +:+ "/image".
Definition initContainerImageUpdate (i : nat) : string :=
  "/spec/template/spec/initContainers/" +:+ itoa i +:+ "/image".
Definition podContainerImageUpdate (i : nat) : string :=
  "/spec/containers/" +:+ itoa i +:+ "/image".
Definition podInitContainerImageUpdate (i : nat) : string :=
  "/spec/initContainers/" +:+ itoa i +:+ "/image".

Definition fieldsToStrip : list (list string) :=
  [ ["metadata"; "uid"];
    ["metadata"; "selfLink"];
    ["metadata"; "resourceVersion"];
    ["metadata"; "creationTimestamp"];
    ["metadata"; "generation"];
    ["status"] ].

Definition endpointGK : GroupKind := {| Group := ""; Kind := "Endpoints" |}.
Definition endpointSliceGK : GroupKind :=
  {| Group := "discovery.k8s.io"; Kind := "EndpointSlice" |}.
Definition pvcGK : GroupKind := {| Group := ""; Kind := "PersistentVolumeClaim" |}.
Definition podGK : GroupKind := {| Group := ""; Kind := "Pod" |}.
Definition serviceGK : GroupKind := {| Group := ""; Kind := "Service" |}.

Definition gksToWhiteout : list GroupKind := [endpointGK; endpointSliceGK; pvcGK].

Definition lastAppliedKey : string := "kubectl.kubernetes.io/last-applied-configuration".

(** ** The pod types the plugin reads (k8s.io/api/core/v1) *)

Record Container : Type := { Image : string }.
Record PodSpec : Type := { Containers : list Container; InitContainers : list Container }.
Record Pod : Type := { Spec : PodSpec }.
Record PodTemplateSpec : Type := { TemplateSpec : PodSpec }.

(** ** The functions of other packages *)

(** The operations the plugin calls in other packages and that are kept
    abstract: the rest of this repository ([transform], [transform/types],
    [transform/util]), the JSON codecs, and the order in which Go ranges over
    a map (any order: [range_map] is not constrained). *)
Class Library : Type := {
  (* transform *)
  V1 : string;
  ParseOptionalFieldMapVal : string -> gmap string string;
  ParseOptionalFieldSliceVal : string -> list string;
  (* transform/types *)
  IsPodSpecable : Unstructured -> PodTemplateSpec * bool;
  (* transform/util *)
  UpdateImageRegistry : gmap string string -> string -> string * bool;
  UpdateImage : string -> string -> Patch * option error;
  (* [obj.MarshalJSON()] followed by [json.Unmarshal(js, pod)]: the object
     read as a typed pod through its JSON text; either call may fail *)
  PodOfJSON : Unstructured -> Pod * option error;
  (* [json.Unmarshal] into a [map[string]interface{}] *)
  json_Unmarshal : string -> gmap string Value * option error;
  (* jsonpatch *)
  DecodePatch : string -> Patch * option error;
  (* range over a map *)
  range_map : gmap string string -> list (string * string)
}.

(** The one fact used about [DecodePatch]: the [opRemove] template around a
    path without quote, backslash or control character is the JSON text of a
    patch of one operation. *)
Class DecodesRemove `{Library} : Prop :=
  DecodePatch_opRemove :
    forall path, plain path = true ->
      DecodePatch (opRemove path) = ([remove_op path], None).

(** ** The plugin *)

Record KubernetesTransformPlugin : Type := {
  AddAnnotations : gmap string string;
  RemoveAnnotations : list string;
  RegistryReplacement : gmap string string;
  DisableWhiteoutOwned : bool;
  ExtraWhiteouts : list GroupKind;
  IncludeOnly : list GroupKind
}.

(** Modelled from the spec: the request type of package [transform] ("one
    resource document plus an optional flat string to string
    configuration-override map"). *)
Record PluginRequest : Type := {
  Resource : Unstructured;
  Extras : gmap string string
}.

(** Modelled from the spec: the response type of package [transform]
    ("version, isWhiteout, patches: ordered list of PatchOperation"). *)
Record PluginResponse : Type := {
  Version : string;
  IsWhiteOut : bool;
  Patches : Patch
}.

(** The flag names. *)
Definition flagAddAnnotations : string := "add-annotations".
Definition flagRemoveAnnotations : string := "remove-annotations".
Definition flagRegistryReplacement : string := "registry-replacement".
Definition flagExtraWhiteouts : string := "extra-whiteouts".
Definition flagIncludeOnly : string := "include-only".
Definition flagDisableWhiteoutOwned : string := "disable-whiteout-owned".

Definition parseGroupKindSlice (gkStrings : list string) : list GroupKind :=
  fold_left (fun gks gk => gks ++ [ParseGroupKind gk]) gkStrings [].

Fixpoint groupKindInList (gk : GroupKind) (l : list GroupKind) : bool :=
  match l with
  | [] => false
  | thisGK :: rest => if GroupKind_eqb gk thisGK then true else groupKindInList gk rest
  end.

(** [getWhiteOuts], with the package variable [gksToWhiteout] as an argument. *)
Definition getWhiteOutsWith `{Library} (blocklist : list GroupKind)
    (k : KubernetesTransformPlugin) (obj : Unstructured) : bool :=
  let groupKind := GroupKindOf obj in
  let owned :=
    if DisableWhiteoutOwned k then false
    else
      let '(_, isPodSpecable) := IsPodSpecable obj in
      if (GroupKind_eqb groupKind podGK || isPodSpecable)
         && (0 <? length (GetOwnerReferences obj))%nat
      then true
      else false in
  if (0 <? length (IncludeOnly k))%nat then
    if negb (groupKindInList groupKind (IncludeOnly k)) then true else owned
  else
    if groupKindInList groupKind blocklist then true
    else if groupKindInList groupKind (ExtraWhiteouts k) then true
    else owned.

Definition getWhiteOuts `{Library} (k : KubernetesTransformPlugin) (obj : Unstructured)
  : bool :=
  getWhiteOutsWith gksToWhiteout k obj.

(** A missing key of [extras] reads as the empty string. *)
Definition extra (extras : gmap string string) (flag : string) : string :=
  default "" (extras !! flag).

Definition setOptionalFields `{Library} (k : KubernetesTransformPlugin)
    (extras : gmap string string) : KubernetesTransformPlugin :=
  let has flag := (0 <? String.length (extra extras flag))%nat in
  {| AddAnnotations :=
       if has flagAddAnnotations
       then ParseOptionalFieldMapVal (extra extras flagAddAnnotations)
       else AddAnnotations k;
     RemoveAnnotations :=
       if has flagRemoveAnnotations
       then ParseOptionalFieldSliceVal (extra extras flagRemoveAnnotations)
       else RemoveAnnotations k;
     RegistryReplacement :=
       if has flagRegistryReplacement
       then ParseOptionalFieldMapVal (extra extras flagRegistryReplacement)
       else RegistryReplacement k;
     DisableWhiteoutOwned :=
       if has flagDisableWhiteoutOwned
       then match ParseBool (extra extras flagDisableWhiteoutOwned) with
            | (_, Some _) => false
            | (b, None) => b
            end
       else DisableWhiteoutOwned k;
     ExtraWhiteouts :=
       if has flagExtraWhiteouts
       then parseGroupKindSlice (ParseOptionalFieldSliceVal (extra extras flagExtraWhiteouts))
       else ExtraWhiteouts k;
     IncludeOnly :=
       if has flagIncludeOnly
       then parseGroupKindSlice (ParseOptionalFieldSliceVal (extra extras flagIncludeOnly))
       else IncludeOnly k |}.

(** *** The generators *)

Fixpoint stripLoop `{Library} (obj : Unstructured) (fields : list (list string))
    (patches : Patch) : Patch * option error :=
  match fields with
  | [] => (patches, None)
  | field :: rest =>
      match NestedFieldNoCopy (Object obj) field with
      | (_, _, Some err) => (patches, Some err)
      | (_, found, None) =>
          if found then
            match DecodePatch (opRemove (pointer_of field)) with
            | (_, Some err) => ([], Some err)
            | (patch, None) => stripLoop obj rest (patches ++ patch)
            end
          else stripLoop obj rest patches
      end
  end.

Definition stripFields `{Library} (obj : Unstructured) : Patch * option error :=
  stripLoop obj fieldsToStrip [].

(** The loop of [addAnnotations]; [first] is [i == 0]. *)
Fixpoint addAnnotationsText (entries : list (string * string)) (first : bool)
    (patchJSON : string) : string :=
  match entries with
  | [] => patchJSON
  | (key, value) :: rest =>
      addAnnotationsText rest false
        (if first then annotationInitial patchJSON key value
         else annotationNext patchJSON key value)
  end.

Definition addAnnotations `{Library} (addAnnotations : gmap string string)
  : Patch * option error :=
  let patchJSON := addAnnotationsText (range_map addAnnotations) true "[" in
  let patchJSON := patchJSON +:+ "]" in
  match DecodePatch patchJSON with
  | (_, Some err) => ([], Some err)
  | (patch, None) => (patch, None)
  end.

Fixpoint removeAnnotationsText (annotations : list string) (first : bool)
    (patchJSON : string) : string :=
  match annotations with
  | [] => patchJSON
  | annotation :: rest =>
      removeAnnotationsText rest false
        (if first then removeAnnotationInitial patchJSON annotation
         else removeAnnotationNext patchJSON annotation)
  end.

Definition removeAnnotations `{Library} (removeAnnotations : list string)
  : Patch * option error :=
  let patchJSON := removeAnnotationsText removeAnnotations true "[" in
  let patchJSON := patchJSON +:+ "]" in
  match DecodePatch patchJSON with
  | (_, Some err) => ([], Some err)
  | (patch, None) => (patch, None)
  end.

Definition removePodFields `{Library} : Patch * option error :=
  match DecodePatch (opRemove podNodeName) with
  | (_, Some err) => ([], Some err)
  | (patches, None) =>
      match DecodePatch (opRemove podNodeSelector) with
      | (_, Some err) => ([], Some err)
      | (patch, None) =>
          let patches := patches ++ patch in
          match DecodePatch (opRemove podPriority) with
          | (_, Some err) => ([], Some err)
          | (patch, None) => (patches ++ patch, None)
          end
      end
  end.

(** The spec map of the object, as the three service predicates and the
    node-port reconciler read it. *)
Definition specMapOf (u : Unstructured) : option (gmap string Value) :=
  match UnstructuredContent u !! "spec" with
  | Some (VMap specMap) => Some specMap
  | _ => None
  end.

Definition isLoadBalancerService (u : Unstructured) : bool :=
  match UnstructuredContent u !! "spec" with
  | None => false
  | Some spec =>
      match spec with
      | VMap specMap =>
          match specMap !! "type" with
          | None => false
          | Some serviceType => iface_eq_string serviceType "LoadBalancer"
          end
      | _ => false
      end
  end.

Definition shouldRemoveServiceClusterIP (u : Unstructured) : bool :=
  match UnstructuredContent u !! "spec" with
  | None => false
  | Some spec =>
      match spec with
      | VMap specMap =>
          match specMap !! "clusterIP" with
          | None => false
          | Some clusterIP => negb (iface_eq_string clusterIP "None")
          end
      | _ => false
      end
  end.

Definition shouldRemoveServiceClusterIPs (u : Unstructured) : bool :=
  match UnstructuredContent u !! "spec" with
  | None => false
  | Some spec =>
      match spec with
      | VMap specMap =>
          match specMap !! "clusterIPs" with
          | None => false
          | Some clusterIPs =>
              match clusterIPs with
              | VSlice clusterIPsSlice =>
                  match clusterIPsSlice with
                  | [] => true
                  | first :: _ => negb (iface_eq_string first "None")
                  end
              | _ => true
              end
          end
      | _ => false
      end
  end.

Definition getNodePortInt (nodePort : Value) : Z * option error :=
  let nodePortInt := 0 in
  match nodePort with
  | VInt n => (n, None)
  | VInt32 n => (n, None)
  | VInt64 n => (n, None)
  | VFloat64 f => (float64_to_int f, None)
  | VString s =>
      (* [nodePortInt, err := strconv.Atoi(...)] declares a new variable in
         the scope of the case; the outer one keeps its value *)
      let '(nodePortInt', err) := Atoi s in
      match err with
      | Some e => (nodePortInt', Some e)
      | None => (nodePortInt, None)
      end
  | _ => (nodePortInt, None)
  end.

(** The loop over the ports of the last applied configuration. *)
Fixpoint appliedPorts (ports : list Value) (explicitNodePorts : gset string)
    (unnamedPortInts : gset Z) : outcome (gset string * gset Z * option error) :=
  match ports with
  | [] => Return (explicitNodePorts, unnamedPortInts, None)
  | port :: rest =>
      match port with
      | VMap p =>
          match NestedFieldNoCopy p ["nodePort"] with
          | (_, _, Some err) => Return (explicitNodePorts, unnamedPortInts, Some err)
          | (nodePort, nodePortBool, None) =>
              if nodePortBool then
                match getNodePortInt nodePort with
                | (_, Some err) => Return (explicitNodePorts, unnamedPortInts, Some err)
                | (nodePortInt, None) =>
                    if 0 <? nodePortInt then
                      match p !! "name" with
                      | None =>
                          appliedPorts rest explicitNodePorts
                            ({[nodePortInt]} ∪ unnamedPortInts)
                      | Some portName =>
                          (* [portName.(string)], unchecked *)
                          match portName with
                          | VString name =>
                              appliedPorts rest ({[name]} ∪ explicitNodePorts)
                                unnamedPortInts
                          | _ => Panic
                          end
                      end
                    else appliedPorts rest explicitNodePorts unnamedPortInts
                end
              else appliedPorts rest explicitNodePorts unnamedPortInts
          end
      | _ => appliedPorts rest explicitNodePorts unnamedPortInts
      end
  end.

(** The loop over the live ports, from index [i]. *)
Fixpoint livePorts `{Library} (portsSlice : list Value) (i : nat)
    (explicitNodePorts : gset string) (unnamedPortInts : gset Z) (patch : Patch)
  : Patch * option error :=
  match portsSlice with
  | [] => (patch, None)
  | portInterface :: rest =>
      match portInterface with
      | VMap port =>
          let nameStr :=
            match port !! "name" with
            | Some (VString s) => s
            | _ => ""
            end in
          match port !! "nodePort" with
          | None => livePorts rest (S i) explicitNodePorts unnamedPortInts patch
          | Some nodePort =>
              match getNodePortInt nodePort with
              | (_, Some err) => (patch, Some err)
              | (nodePortInt, None) =>
                  if nodePortInt =? 0
                  then livePorts rest (S i) explicitNodePorts unnamedPortInts patch
                  else
                    let removeNodePort :=
                      if (0 <? String.length nameStr)%nat
                      then negb (bool_decide (nameStr ∈ explicitNodePorts))
                      else negb (bool_decide (nodePortInt ∈ unnamedPortInts)) in
                    if removeNodePort then
                      match DecodePatch (opRemove (updateNodePortString i)) with
                      | (_, Some err) => (patch, Some err)
                      | (intPatch, None) =>
                          livePorts rest (S i) explicitNodePorts unnamedPortInts
                            (patch ++ intPatch)
                      end
                    else livePorts rest (S i) explicitNodePorts unnamedPortInts patch
              end
          end
      | _ => livePorts rest (S i) explicitNodePorts unnamedPortInts patch
      end
  end.

Definition getNodePortPatch `{Library} (u : Unstructured)
  : outcome (Patch * option error) :=
  let patch : Patch := [] in
  match UnstructuredContent u !! "spec" with
  | None => Return (patch, None)
  | Some spec =>
  match spec with
  | VMap specMap =>
  match specMap !! "type" with
  | None => Return (patch, None)
  | Some serviceType =>
  if iface_eq_string serviceType "ExternalName" then Return (patch, None) else
  match specMap !! "ports" with
  | None => Return (patch, None)
  | Some servicePorts =>
  match servicePorts with
  | VSlice portsSlice =>
      match GetAnnotations u !! lastAppliedKey with
      | Some lastAppliedConfig =>
          match json_Unmarshal lastAppliedConfig with
          | (_, Some err) => Return (patch, Some err)
          | (appliedServiceUnstructured, None) =>
              '(ports, found, err) ← NestedSlice appliedServiceUnstructured ["spec"; "ports"];
              match err with
              | Some err => Return (patch, Some err)
              | None =>
                  if (found : bool) then
                    '(explicitNodePorts, unnamedPortInts, err) ← appliedPorts ports ∅ ∅;
                    match err with
                    | Some err => Return (patch, Some err)
                    | None =>
                        Return (livePorts portsSlice 0 explicitNodePorts unnamedPortInts patch)
                    end
                  else Return (livePorts portsSlice 0 ∅ ∅ patch)
              end
          end
      | None => Return (livePorts portsSlice 0 ∅ ∅ patch)
      end
  | _ => Return (patch, None)
  end
  end
  end
  | _ => Return (patch, None)
  end
  end.

(** One guarded step of [removeServiceFields]:
    [if cond { patch, err := DecodePatch(opRemove path); ...; append }]. *)
Definition removeWhen `{Library} (cond : bool) (path : string) (patches : Patch)
  : Patch * option error :=
  if cond then
    match DecodePatch (opRemove path) with
    | (_, Some err) => ([], Some err)
    | (patch, None) => (patches ++ patch, None)
    end
  else (patches, None).

Definition removeServiceFields `{Library} (obj : Unstructured)
  : outcome (Patch * option error) :=
  let patches : Patch := [] in
  match removeWhen (isLoadBalancerService obj) updateExternalIPs patches with
  | (_, Some err) => Return ([], Some err)
  | (patches, None) =>
  match removeWhen (shouldRemoveServiceClusterIP obj) updateClusterIP patches with
  | (_, Some err) => Return ([], Some err)
  | (patches, None) =>
  match removeWhen (shouldRemoveServiceClusterIPs obj) updateClusterIPs patches with
  | (_, Some err) => Return ([], Some err)
  | (patches, None) =>
      '(patch, err) ← getNodePortPatch obj;
      match err with
      | Some err => Return ([], Some err)
      | None => Return (patches ++ patch, None)
      end
  end
  end
  end.

(** The four loops of the image rewriter: [pathOf] is the format of the image
    path of container [i], [jps] the operations collected so far. *)
Fixpoint updateImages `{Library} (registryReplacement : gmap string string)
    (pathOf : nat -> string) (containers : list Container) (i : nat) (jps : Patch)
  : Patch * option error :=
  match containers with
  | [] => (jps, None)
  | container :: rest =>
      let '(updatedImage, update) :=
        UpdateImageRegistry registryReplacement (Image container) in
      if (update : bool) then
        match UpdateImage (pathOf i) updatedImage with
        | (_, Some err) => ([], Some err)
        | (jp, None) => updateImages registryReplacement pathOf rest (S i) (jps ++ jp)
        end
      else updateImages registryReplacement pathOf rest (S i) jps
  end.

(** The registry replacement of one pod spec: containers, then init
    containers. *)
Definition updatePodSpecImages `{Library} (registryReplacement : gmap string string)
    (pathOf initPathOf : nat -> string) (spec : PodSpec) : Patch * option error :=
  match updateImages registryReplacement pathOf (Containers spec) 0 [] with
  | (_, Some err) => ([], Some err)
  | (jps, None) => updateImages registryReplacement initPathOf (InitContainers spec) 0 jps
  end.

Definition registryPatches `{Library} (k : KubernetesTransformPlugin)
    (obj : Unstructured) : Patch * option error :=
  if (0 <? size (RegistryReplacement k))%nat then
    if GroupKind_eqb podGK (GroupKindOf obj) then
      match PodOfJSON obj with
      | (_, Some err) => ([], Some err)
      | (pod, None) =>
          updatePodSpecImages (RegistryReplacement k)
            podContainerImageUpdate podInitContainerImageUpdate (Spec pod)
      end
    else
      let '(template, ok) := IsPodSpecable obj in
      if (ok : bool) then
        updatePodSpecImages (RegistryReplacement k)
          containerImageUpdate initContainerImageUpdate (TemplateSpec template)
      else ([], None)
  else ([], None).

Definition getKubernetesTransforms `{Library} (k : KubernetesTransformPlugin)
    (obj : Unstructured) : outcome (Patch * option error) :=
  let jsonPatch : Patch := [] in
  match stripFields obj with
  | (_, Some err) => Return ([], Some err)
  | (patches, None) =>
  let jsonPatch := jsonPatch ++ patches in
  match (if (0 <? size (AddAnnotations k))%nat
         then addAnnotations (AddAnnotations k) else ([], None)) with
  | (_, Some err) => Return ([], Some err)
  | (patches, None) =>
  let jsonPatch := jsonPatch ++ patches in
  match (if (0 <? length (RemoveAnnotations k))%nat
         then removeAnnotations (RemoveAnnotations k) else ([], None)) with
  | (_, Some err) => Return ([], Some err)
  | (patches, None) =>
  let jsonPatch := jsonPatch ++ patches in
  match (if GroupKind_eqb podGK (GroupKindOf obj)
         then removePodFields else ([], None)) with
  | (_, Some err) => Return ([], Some err)
  | (patches, None) =>
  let jsonPatch := jsonPatch ++ patches in
  match registryPatches k obj with
  | (_, Some err) => Return ([], Some err)
  | (jps, None) =>
  let jsonPatch := jsonPatch ++ jps in
  if GroupKind_eqb (GroupKindOf obj) serviceGK then
    '(patches, err) ← removeServiceFields obj;
    match err with
    | Some err => Return ([], Some err)
    | None => Return (jsonPatch ++ patches, None)
    end
  else Return (jsonPatch, None)
  end
  end
  end
  end
  end.

(** [Run]: the receiver is updated by [setOptionalFields]; its new value is
    returned with the response.  The assignment of the package logger has no
    effect on the result and is left out. *)
Definition Run `{Library} (k : KubernetesTransformPlugin) (request : PluginRequest)
  : outcome (KubernetesTransformPlugin * (PluginResponse * option error)) :=
  let k := setOptionalFields k (Extras request) in
  let resp := {| Version := V1; IsWhiteOut := false; Patches := [] |} in
  let err : option error := None in
  let resp := {| Version := Version resp;
                 IsWhiteOut := getWhiteOuts k (Resource request);
                 Patches := Patches resp |} in
  if IsWhiteOut resp then Return (k, (resp, err))
  else
    '(patches, err) ← getKubernetesTransforms k (Resource request);
    Return (k, ({| Version := Version resp;
                   IsWhiteOut := IsWhiteOut resp;
                   Patches := patches |}, err)).

(** ** Presence of a path in a resource *)

(** The value a JSON pointer designates in a document (RFC 6901): member
    lookup in an object, decimal index in an array. *)
Fixpoint resolve (tokens : list string) (v : Value) : option Value :=
  match tokens with
  | [] => Some v
  | t :: rest =>
      match v with
      | VMap m =>
          match m !! t with
          | Some v' => resolve rest v'
          | None => None
          end
      | VSlice l =>
          match parse_index t with
          | Some i =>
              match l !! i with
              | Some v' => resolve rest v'
              | None => None
              end
          | None => None
          end
      | _ => None
      end
  end.

Definition path_present (obj : Unstructured) (p : string) : bool :=
  match pointer_tokens p with
  | Some tokens =>
      match resolve tokens (VMap (Object obj)) with
      | Some _ => true
      | None => false
      end
  | None => false
  end.

(** ** A reference library *)

(** An instance of [Library] on which the plugin can be run: JSON text is
    decoded by a reader for the fragment of JSON without string escapes,
    fractions and exponents (outside of it the reader reports an error where
    the Go decoders may succeed); the functions of this repository are
    modelled from the spec. *)
Module Reference.

Inductive token : Type :=
| TLBrace | TRBrace | TLBrack | TRBrack | TColon | TComma
| TStr (s : string)
| TNum (neg : bool) (n : Z)
| TTrue | TFalse | TNull.

Inductive lexState : Type :=
| LTop
| LStr (acc : string)
| LNum (neg : bool) (digits : string)
| LLit (rest : string) (t : token).

Definition is_char (c : ascii) (n : nat) : bool := Ascii.eqb c (ascii_of_nat n).

Definition is_ws (c : ascii) : bool :=
  is_char c 32 || is_char c 9 || is_char c 10 || is_char c 13.

Definition is_digit (c : ascii) : bool :=
  match digit_of c with
  | Some _ => true
  | None => false
  end.

(** A number token: decimal digits without a leading zero, at most 2^53 so
    that the [float64] holds it exactly. *)
Definition numToken (neg : bool) (digits : string) : option token :=
  match digits with
  | EmptyString => None
  | String c rest =>
      if is_char c 48 && negb (String.eqb rest "") then None
      else match parse_digits digits 0 with
           | Some n => if n <=? 2 ^ 53 then Some (TNum neg n) else None
           | None => None
           end
  end.

(** One character: the tokens it completes and the next state. *)
Definition lexStep (st : lexState) (c : ascii) : option (list token * lexState) :=
  match st with
  | LTop =>
      if is_ws c then Some ([], LTop)
      else if is_char c 123 then Some ([TLBrace], LTop)
      else if is_char c 125 then Some ([TRBrace], LTop)
      else if is_char c 91 then Some ([TLBrack], LTop)
      else if is_char c 93 then Some ([TRBrack], LTop)
      else if is_char c 58 then Some ([TColon], LTop)
      else if is_char c 44 then Some ([TComma], LTop)
      else if is_char c 34 then Some ([], LStr "")
      else if is_char c 45 then Some ([], LNum true "")
      else if is_digit c then Some ([], LNum false (String c ""))
      else if is_char c 116 then Some ([], LLit "rue" TTrue)
      else if is_char c 102 then Some ([], LLit "alse" TFalse)
      else if is_char c 110 then Some ([], LLit "ull" TNull)
      else None
  | LStr acc =>
      if is_char c 34 then Some ([TStr acc], LTop)
      else if plain_char c then Some ([], LStr (acc +:+ String c ""))
      else None
  | LNum neg digits =>
      if is_digit c then Some ([], LNum neg (digits +:+ String c ""))
      else
        match numToken neg digits with
        | Some t =>
            if is_ws c then Some ([t], LTop)
            else if is_char c 44 then Some ([t; TComma], LTop)
            else if is_char c 93 then Some ([t; TRBrack], LTop)
            else if is_char c 125 then Some ([t; TRBrace], LTop)
            else None
        | None => None
        end
  | LLit rest t =>
      match rest with
      | String e rest' =>
          if Ascii.eqb c e then
            match rest' with
            | EmptyString => Some ([t], LTop)
            | _ => Some ([], LLit rest' t)
            end
          else None
      | EmptyString => None
      end
  end.

Fixpoint lexFrom (s : string) (st : lexState) : option (list token * lexState) :=
  match s with
  | EmptyString => Some ([], st)
  | String c r =>
      match lexStep st c with
      | Some (ts, st') =>
          match lexFrom r st' with
          | Some (ts', st'') => Some (ts ++ ts', st'')
          | None => None
          end
      | None => None
      end
  end.

Definition lex (s : string) : option (list token) :=
  match lexFrom s LTop with
  | Some (ts, LTop) => Some ts
  | Some (ts, LNum neg digits) =>
      match numToken neg digits with
      | Some t => Some (ts ++ [t])
      | None => None
      end
  | _ => None
  end.

(** The [float64] of an integer literal. *)
Definition float_of_literal (neg : bool) (n : Z) : spec_float :=
  match n with
  | Z.pos m => S754_finite neg m 0
  | _ => S754_zero neg
  end.

Fixpoint parseValue (fuel : nat) (ts : list token) : option (Value * list token) :=
  match fuel with
  | O => None
  | S fuel =>
      match ts with
      | TStr s :: r => Some (VString s, r)
      | TNum neg n :: r => Some (VFloat64 (float_of_literal neg n), r)
      | TTrue :: r => Some (VBool true, r)
      | TFalse :: r => Some (VBool false, r)
      | TNull :: r => Some (VNil, r)
      | TLBrack :: TRBrack :: r => Some (VSlice [], r)
      | TLBrack :: r =>
          match parseElems fuel r [] with
          | Some (l, r') => Some (VSlice l, r')
          | None => None
          end
      | TLBrace :: TRBrace :: r => Some (VMap ∅, r)
      | TLBrace :: r =>
          match parseMembers fuel r ∅ with
          | Some (m, r') => Some (VMap m, r')
          | None => None
          end
      | _ => None
      end
  end
with parseElems (fuel : nat) (ts : list token) (acc : list Value)
  : option (list Value * list token) :=
  match fuel with
  | O => None
  | S fuel =>
      match parseValue fuel ts with
      | Some (v, TComma :: r) => parseElems fuel r (acc ++ [v])
      | Some (v, TRBrack :: r) => Some (acc ++ [v], r)
      | _ => None
      end
  end
with parseMembers (fuel : nat) (ts : list token) (acc : gmap string Value)
  : option (gmap string Value * list token) :=
  match fuel with
  | O => None
  | S fuel =>
      match ts with
      | TStr key :: TColon :: r =>
          match parseValue fuel r with
          | Some (v, TComma :: r') => parseMembers fuel r' (<[key := v]> acc)
          | Some (v, TRBrace :: r') => Some (<[key := v]> acc, r')
          | _ => None
          end
      | _ => None
      end
  end.

Definition decodeJSON (text : string) : option Value :=
  match lex text with
  | Some ts =>
      match parseValue (S (length ts)) ts with
      | Some (v, []) => Some v
      | _ => None
      end
  | None => None
  end.

Definition jsonError : error := ErrLibrary "invalid JSON".

Definition unmarshalMap (text : string) : gmap string Value * option error :=
  match decodeJSON text with
  | Some (VMap m) => (m, None)
  | Some VNil => (∅, None)
  | _ => (∅, Some jsonError)
  end.

Fixpoint operations (l : list Value) : option Patch :=
  match l with
  | [] => Some []
  | VMap o :: rest =>
      match operations rest with
      | Some p => Some (o :: p)
      | None => None
      end
  | _ :: _ => None
  end.

Definition decodePatch (text : string) : Patch * option error :=
  match decodeJSON text with
  | Some (VSlice l) =>
      match operations l with
      | Some p => (p, None)
      | None => ([], Some jsonError)
      end
  | _ => ([], Some jsonError)
  end.

(** Modelled from the spec: [transform.ParseOptionalFieldSliceVal], missing
    from the sources ("specified as a comma-separated list"). *)
Definition parseSliceVal (val : string) : list string :=
  split_on (ascii_of_nat 44) val.

(** Modelled from the spec: [transform.ParseOptionalFieldMapVal], missing from
    the sources (a comma-separated list of [key=value] pairs, as in the flag
    example "annotation1=value1,annotation2=value2"). *)
Definition parseMapVal (val : string) : gmap string string :=
  fold_left
    (fun m pair =>
       match cut (ascii_of_nat 61) pair with
       | Some (key, value) => <[key := value]> m
       | None => m
       end)
    (split_on (ascii_of_nat 44) val) ∅.

Definition containersAt (v : option Value) : list Container :=
  match v with
  | Some (VSlice l) =>
      map (fun c =>
             match c with
             | VMap m => {| Image := default "" (m !! "image" ≫= as_string) |}
             | _ => {| Image := "" |}
             end) l
  | _ => []
  end.

Definition podSpecAt (v : option Value) : PodSpec :=
  match v with
  | Some (VMap spec) =>
      {| Containers := containersAt (spec !! "containers");
         InitContainers := containersAt (spec !! "initContainers") |}
  | _ => {| Containers := []; InitContainers := [] |}
  end.

(** Modelled from the spec: [types.IsPodSpecable], missing from the sources
    ("any resource exposing a pod template at its conventional nested path":
    [spec.template]). *)
Definition isPodSpecable (u : Unstructured) : PodTemplateSpec * bool :=
  match specMapOf u with
  | Some specMap =>
      match specMap !! "template" with
      | Some (VMap template) => ({| TemplateSpec := podSpecAt (template !! "spec") |}, true)
      | _ => ({| TemplateSpec := podSpecAt None |}, false)
      end
  | None => ({| TemplateSpec := podSpecAt None |}, false)
  end.

(** The pod behind an object, as the JSON round trip into a typed pod reads
    it: the images of [spec.containers] and [spec.initContainers]; a [spec]
    that is not a map does not decode. *)
Definition podOfJSON (u : Unstructured) : Pod * option error :=
  match Object u !! "spec" with
  | Some (VMap spec) => ({| Spec := podSpecAt (Some (VMap spec)) |}, None)
  | None => ({| Spec := podSpecAt None |}, None)
  | Some _ => ({| Spec := podSpecAt None |}, Some jsonError)
  end.

Fixpoint join_slash (parts : list string) : string :=
  match parts with
  | [] => ""
  | [t] => t
  | t :: rest => t +:+ "/" +:+ join_slash rest
  end.

(** The longest prefix of [i] or fewer parts of the image that is a key. *)
Fixpoint replacePrefix (m : gmap string string) (parts : list string) (i : nat)
  : string * bool :=
  match i with
  | O => ("", false)
  | S j =>
      match m !! join_slash (take i parts) with
      | Some replaced =>
          match drop i parts with
          | [] => (replaced, true)
          | rest => (replaced +:+ "/" +:+ join_slash rest, true)
          end
      | None => replacePrefix m parts j
      end
  end.

(** Modelled from the spec: [util.UpdateImageRegistry], missing from the
    sources ("match the image's registry/host prefix against
    registryReplacement keys; on match, rewrite only the matched prefix,
    preserving repository path and tag/digest"). *)
Definition updateImageRegistry (m : gmap string string) (image : string)
  : string * bool :=
  let parts := split_on slash image in
  replacePrefix m parts (length parts).

(** Modelled from the spec: [util.UpdateImage], missing from the sources
    ("emit an add (replace-style) at the container's indexed image path"). *)
Definition updateImage (path image : string) : Patch * option error :=
  ([ {[ "op" := VString "add"; "path" := VString path; "value" := VString image ]} ],
   None).

Definition library : Library := {|
  V1 := "v1";
  ParseOptionalFieldMapVal := parseMapVal;
  ParseOptionalFieldSliceVal := parseSliceVal;
  IsPodSpecable := isPodSpecable;
  UpdateImageRegistry := updateImageRegistry;
  UpdateImage := updateImage;
  PodOfJSON := podOfJSON;
  json_Unmarshal := unmarshalMap;
  DecodePatch := decodePatch;
  range_map := map_to_list
|}.

End Reference.

(** ** Notions used in the statements *)

(** [spec.type], when [spec] is a map that has it. *)
Definition specType (u : Unstructured) : option Value :=
  match specMapOf u with
  | Some specMap => specMap !! "type"
  | None => None
  end.

(** The plugin with another list of extra whiteouts. *)
Definition withExtraWhiteouts (k : KubernetesTransformPlugin) (extraWhiteouts : list GroupKind)
  : KubernetesTransformPlugin :=
  {| AddAnnotations := AddAnnotations k;
     RemoveAnnotations := RemoveAnnotations k;
     RegistryReplacement := RegistryReplacement k;
     DisableWhiteoutOwned := DisableWhiteoutOwned k;
     ExtraWhiteouts := extraWhiteouts;
     IncludeOnly := IncludeOnly k |}.

(** The ownership rule of [getWhiteOuts]: whiteout of an owned pod or pod
    template resource, unless disabled. *)
Definition ownedWhiteout `{Library} (k : KubernetesTransformPlugin) (obj : Unstructured)
  : bool :=
  negb (DisableWhiteoutOwned k)
  && (GroupKind_eqb (GroupKindOf obj) podGK || (IsPodSpecable obj).2)
  && (0 <? length (GetOwnerReferences obj))%nat.

(** [metadata] is absent, nil or a map: the shapes on which
    [NestedFieldNoCopy] does not fail below [metadata]. *)
Definition metadataWellShaped (obj : Unstructured) : bool :=
  match Object obj !! "metadata" with
  | None | Some VNil | Some (VMap _) => true
  | Some _ => false
  end.

(** The generators of [getKubernetesTransforms] in the order they run, each
    with the guard under which it runs. *)
Definition generators `{Library} (k : KubernetesTransformPlugin) (obj : Unstructured)
  : list (outcome (Patch * option error)) :=
  [ Return (stripFields obj);
    Return (if (0 <? size (AddAnnotations k))%nat
            then addAnnotations (AddAnnotations k) else ([], None));
    Return (if (0 <? length (RemoveAnnotations k))%nat
            then removeAnnotations (RemoveAnnotations k) else ([], None));
    Return (if GroupKind_eqb podGK (GroupKindOf obj) then removePodFields else ([], None));
    Return (registryPatches k obj);
    if GroupKind_eqb (GroupKindOf obj) serviceGK
    then removeServiceFields obj else Return ([], None) ].

(** All-or-nothing composition: the operations of the generators in order,
    or the first error and no operation at all. *)
Fixpoint runAll (gens : list (outcome (Patch * option error))) (jsonPatch : Patch)
  : outcome (Patch * option error) :=
  match gens with
  | [] => Return (jsonPatch, None)
  | Panic :: _ => Panic
  | Return (_, Some err) :: _ => Return ([], Some err)
  | Return (patches, None) :: rest => runAll rest (jsonPatch ++ patches)
  end.

(** A generator that ran to its end without error. *)
Definition succeeded (g : outcome (Patch * option error)) : Prop :=
  exists patches, g = Return (patches, None).

(** The live ports whose node port is removed when nothing is known to be
    explicit: those with a [nodePort] that does not read as 0. *)
Definition hasNodePort (port : Value) : bool :=
  match port with
  | VMap p =>
      match p !! "nodePort" with
      | Some nodePort => negb ((getNodePortInt nodePort).1 =? 0)
      | None => false
      end
  | _ => false
  end.

(** No live port holds a [nodePort] on which [getNodePortInt] fails. *)
Definition nodePortsParse (ports : list Value) : Prop :=
  forall port nodePort,
    In (VMap port) ports -> port !! "nodePort" = Some nodePort ->
    (getNodePortInt nodePort).2 = None.

(** The indices, counted from [i], of the ports that [hasNodePort]. *)
Fixpoint removableFrom (ports : list Value) (i : nat) : list nat :=
  match ports with
  | [] => []
  | port :: rest =>
      if hasNodePort port then i :: removableFrom rest (S i) else removableFrom rest (S i)
  end.

Definition removeNodePort (i : nat) : Operation := remove_op (updateNodePortString i).

(** ** Concrete resources and configurations *)

Module Examples.

Definition plainPlugin : KubernetesTransformPlugin :=
  {| AddAnnotations := ∅; RemoveAnnotations := []; RegistryReplacement := ∅;
     DisableWhiteoutOwned := false; ExtraWhiteouts := []; IncludeOnly := [] |}.

Definition onlyPods : KubernetesTransformPlugin :=
  {| AddAnnotations := ∅; RemoveAnnotations := []; RegistryReplacement := ∅;
     DisableWhiteoutOwned := false; ExtraWhiteouts := []; IncludeOnly := [podGK] |}.

Definition onlyServices : KubernetesTransformPlugin :=
  {| AddAnnotations := ∅; RemoveAnnotations := []; RegistryReplacement := ∅;
     DisableWhiteoutOwned := false; ExtraWhiteouts := []; IncludeOnly := [serviceGK] |}.

Definition resource (kind : string) (metadata spec : gmap string Value) : Unstructured :=
  {| Object := {[ "apiVersion" := VString "v1"; "kind" := VString kind;
                  "metadata" := VMap metadata; "spec" := VMap spec ]} |}.

Definition request (obj : Unstructured) : PluginRequest :=
  {| Resource := obj; Extras := ∅ |}.

(** A pod created by a controller. *)
Definition ownedPod : Unstructured :=
  resource "Pod"
    {[ "name" := VString "web-0";
       "ownerReferences" := VSlice [VMap {[ "kind" := VString "ReplicaSet" ]}] ]}
    {[ "containers" := VSlice [] ]}.

(** A pod that was never scheduled: no [spec.nodeName]. *)
Definition pendingPod : Unstructured :=
  resource "Pod" {[ "name" := VString "job-1" ]} {[ "containers" := VSlice [] ]}.

(** A service without [spec.type] and with an allocated node port. *)
Definition untypedService : Unstructured :=
  resource "Service" {[ "name" := VString "db" ]}
    {[ "ports" := VSlice [VMap {[ "port" := VInt64 5432; "nodePort" := VInt64 30080 ]}] ]}.

(** A node-port service with two allocated node ports, one of them named. *)
Definition nodePortService : Unstructured :=
  resource "Service" {[ "name" := VString "web"; "uid" := VString "1234" ]}
    {[ "type" := VString "NodePort";
       "clusterIP" := VString "10.0.0.1";
       "ports" := VSlice [VMap {[ "name" := VString "http"; "nodePort" := VInt64 30080 ]};
                          VMap {[ "nodePort" := VInt64 31000 ]}] ]}.

(** The same with a first node port that is not a number. *)
Definition brokenPortService : Unstructured :=
  resource "Service" {[ "name" := VString "web"; "uid" := VString "1234" ]}
    {[ "type" := VString "NodePort";
       "clusterIP" := VString "10.0.0.1";
       "ports" := VSlice [VMap {[ "nodePort" := VString "abc" ]};
                          VMap {[ "nodePort" := VInt64 30080 ]}] ]}.

(** A document whose [metadata] is a string, with a [status]. *)
Definition stringMetadata : Unstructured :=
  {| Object := {[ "apiVersion" := VString "v1"; "kind" := VString "ConfigMap";
                  "metadata" := VString "x"; "status" := VMap ∅ ]} |}.

(** A document with a [uid] and a [status] to strip. *)
Definition liveConfigMap : Unstructured :=
  {| Object := {[ "apiVersion" := VString "v1"; "kind" := VString "ConfigMap";
                  "metadata" := VMap {[ "name" := VString "cm"; "uid" := VString "1234" ]};
                  "status" := VMap ∅ ]} |}.

(** The text [{"spec":{"ports":[{"name":80,"nodePort":30080}]}}]. *)
Definition appliedText : string :=
  "{" +:+ quoted "spec" +:+ ":{" +:+ quoted "ports" +:+ ":[{" +:+ quoted "name"
  +:+ ":80," +:+ quoted "nodePort" +:+ ":30080}]}}".

(** The document that text denotes, as [encoding/json] decodes it (every
    number a [float64]). *)
Definition appliedDocument : gmap string Value :=
  {[ "spec" :=
       VMap {[ "ports" :=
                 VSlice [VMap {[ "name" := VFloat64 (S754_finite false 80 0);
                                 "nodePort" := VFloat64 (S754_finite false 30080 0) ]}] ]} ]}.

(** A service whose last applied configuration names a port by a number. *)
Definition numberNamedService : Unstructured :=
  resource "Service"
    {[ "name" := VString "web";
       "annotations" := VMap {[ lastAppliedKey := VString appliedText ]} ]}
    {[ "type" := VString "NodePort"; "ports" := VSlice [] ]}.

End Examples.

(** ** Further notions used in the statements *)

(** The plugin with another setting of [DisableWhiteoutOwned]. *)
Definition withDisableWhiteoutOwned (k : KubernetesTransformPlugin) (b : bool)
  : KubernetesTransformPlugin :=
  {| AddAnnotations := AddAnnotations k;
     RemoveAnnotations := RemoveAnnotations k;
     RegistryReplacement := RegistryReplacement k;
     DisableWhiteoutOwned := b;
     ExtraWhiteouts := ExtraWhiteouts k;
     IncludeOnly := IncludeOnly k |}.

(** The six flags [setOptionalFields] reads. *)
Definition knownFlags : list string :=
  [flagAddAnnotations; flagRemoveAnnotations; flagRegistryReplacement;
   flagExtraWhiteouts; flagIncludeOnly; flagDisableWhiteoutOwned].

(** The values [strconv.ParseBool] reads as true. *)
Definition trueLiterals : list string := ["1"; "t"; "T"; "true"; "TRUE"; "True"].

(** The decision the loop over the live ports takes for one port, given the
    names and the unnamed node ports found explicit. *)
Definition removalDecision (explicitNodePorts : gset string) (unnamedPortInts : gset Z)
    (port : Value) : bool :=
  match port with
  | VMap p =>
      match p !! "nodePort" with
      | Some nodePort =>
          let nodePortInt := (getNodePortInt nodePort).1 in
          let nameStr :=
            match p !! "name" with
            | Some (VString s) => s
            | _ => EmptyString
            end in
          negb (nodePortInt =? 0)
          && (if (0 <? String.length nameStr)%nat
              then negb (bool_decide (nameStr ∈ explicitNodePorts))
              else negb (bool_decide (nodePortInt ∈ unnamedPortInts)))
      | None => false
      end
  | _ => false
  end.

(** The indices, counted from [i], of the ports the loop removes. *)
Fixpoint removedFrom (explicitNodePorts : gset string) (unnamedPortInts : gset Z)
    (ports : list Value) (i : nat) : list nat :=
  match ports with
  | [] => []
  | port :: rest =>
      if removalDecision explicitNodePorts unnamedPortInts port
      then i :: removedFrom explicitNodePorts unnamedPortInts rest (S i)
      else removedFrom explicitNodePorts unnamedPortInts rest (S i)
  end.

(** The ports of a last applied configuration on which the first loop neither
    fails nor panics: node ports that parse, names that are strings. *)
Definition snapshotWellFormed (snapshot : list Value) : Prop :=
  forall p, In (VMap p) snapshot ->
    (forall nodePort, p !! "nodePort" = Some nodePort -> (getNodePortInt nodePort).2 = None)
    /\ (forall name, p !! "name" = Some name -> exists s, name = VString s).

(** The snapshot has a port of that name with a positive node port. *)
Definition snapshotNamed (snapshot : list Value) (name : string) : Prop :=
  exists p nodePort n,
    In (VMap p) snapshot /\ p !! "nodePort" = Some nodePort
    /\ getNodePortInt nodePort = (n, None) /\ 0 < n
    /\ p !! "name" = Some (VString name).

(** The snapshot has a port without name with that positive node port. *)
Definition snapshotUnnamed (snapshot : list Value) (n : Z) : Prop :=
  exists p nodePort,
    In (VMap p) snapshot /\ p !! "nodePort" = Some nodePort
    /\ getNodePortInt nodePort = (n, None) /\ 0 < n
    /\ p !! "name" = None.

(** The name under which the loop over the live ports looks a port up: its
    [name] when that is a string, and the empty string otherwise. *)
Definition liveName (port : gmap string Value) : string :=
  match port !! "name" with
  | Some (VString s) => s
  | _ => EmptyString
  end.

(** Further resources. *)
Module MoreExamples.

(** The text [{"spec":{"ports":[{"name":"http","nodePort":30080}]}}]. *)
Definition httpSnapshotText : string :=
  "{" +:+ quoted "spec" +:+ ":{" +:+ quoted "ports" +:+ ":[{" +:+ quoted "name"
  +:+ ":" +:+ quoted "http" +:+ "," +:+ quoted "nodePort" +:+ ":30080}]}}".

Definition httpSnapshotPorts : list Value :=
  [VMap {[ "name" := VString "http";
           "nodePort" := VFloat64 (S754_finite false 30080 0) ]}].

Definition httpLivePorts : list Value :=
  [VMap {[ "name" := VString "http"; "nodePort" := VInt64 30080 ]};
   VMap {[ "nodePort" := VInt64 31000 ]}].

Definition httpSpec (annotation : string) : gmap string Value * gmap string Value :=
  ({[ "name" := VString "web";
      "annotations" := VMap {[ lastAppliedKey := VString annotation ]} ]},
   {[ "type" := VString "NodePort"; "ports" := VSlice httpLivePorts ]}).

(** A node-port service applied with one explicit, named node port. *)
Definition snapshotService : Unstructured :=
  Examples.resource "Service" (httpSpec httpSnapshotText).1 (httpSpec httpSnapshotText).2.

(** The same service with an annotation that is not JSON. *)
Definition garbledService : Unstructured :=
  Examples.resource "Service" (httpSpec "{").1 (httpSpec "{").2.

(** An "ExternalName" service with an annotation that is not JSON. *)
Definition externalNameService : Unstructured :=
  Examples.resource "Service" (httpSpec "{").1
    {[ "type" := VString "ExternalName"; "externalName" := VString "db.example.com" ]}.

End MoreExamples.

(** ** Applying removes *)

(** The remove operation of a JSON patch (RFC 6902, as [jsonpatch.Apply]
    performs it): the document without the value the pointer designates, and
    nothing when the pointer designates no value or the whole document. *)
Fixpoint removeAt (tokens : list string) (v : Value) : option Value :=
  match tokens with
  | [] => None
  | t :: rest =>
      match v with
      | VMap m =>
          match m !! t with
          | Some v' =>
              match rest with
              | [] => Some (VMap (delete t m))
              | _ :: _ =>
                  match removeAt rest v' with
                  | Some v'' => Some (VMap (<[t := v'']> m))
                  | None => None
                  end
              end
          | None => None
          end
      | VSlice l =>
          match parse_index t with
          | Some i =>
              match l !! i with
              | Some v' =>
                  match rest with
                  | [] => Some (VSlice (delete i l))
                  | _ :: _ =>
                      match removeAt rest v' with
                      | Some v'' => Some (VSlice (<[i := v'']> l))
                      | None => None
                      end
                  end
              | None => None
              end
          | None => None
          end
      | _ => None
      end
  end.

(** The path of a remove operation. *)
Definition removedPath (o : Operation) : option string :=
  match o !! "op", o !! "path" with
  | Some (VString op), Some (VString path) =>
      if String.eqb op "remove" then Some path else None
  | _, _ => None
  end.

(** One remove operation applied to a resource; other operations are not
    applied by this model. *)
Definition applyOperation (o : Operation) (obj : Unstructured) : option Unstructured :=
  match removedPath o with
  | Some path =>
      match pointer_tokens path with
      | Some tokens =>
          match removeAt tokens (VMap (Object obj)) with
          | Some (VMap m) => Some {| Object := m |}
          | _ => None
          end
      | None => None
      end
  | None => None
  end.

Fixpoint applyPatch (patch : Patch) (obj : Unstructured) : option Unstructured :=
  match patch with
  | [] => Some obj
  | o :: rest =>
      match applyOperation o obj with
      | Some obj' => applyPatch rest obj'
      | None => None
      end
  end.

(** The object without one field of [fieldsToStrip]: a top-level member, or
    a member of the map under a top-level member. *)
Definition dropField (field : list string) (obj : gmap string Value) : gmap string Value :=
  match field with
  | [a] => delete a obj
  | [a; b] =>
      match obj !! a with
      | Some (VMap m) => <[a := VMap (delete b m)]> obj
      | _ => obj
      end
  | _ => obj
  end.

Definition dropFields (fields : list (list string)) (obj : gmap string Value)
  : gmap string Value :=
  fold_left (fun o f => dropField f o) fields obj.

(** The shapes of the fields of [fieldsToStrip]. *)
Definition stripShape (f : list string) : Prop :=
  (exists a, f = [a] /\ a <> "metadata")
  \/ (exists b, f = ["metadata"; b] /\ parse_index b = None).

(** ** The image rewriter, container by container *)

(** [UpdateImage] fails on none of the containers. *)
Definition imageUpdatesSucceed `{Library} (registryReplacement : gmap string string)
    (pathOf : nat -> string) (i : nat) (containers : list Container) : Prop :=
  forall (j : nat) container updatedImage,
    containers !! j = Some container ->
    UpdateImageRegistry registryReplacement (Image container) = (updatedImage, true) ->
    (UpdateImage (pathOf (i + j)%nat) updatedImage).2 = None.

(** ** The texts of the annotation editor, as the reference reader reads them *)

(** The add operation for one annotation. *)
Definition add_op (key value : string) : Operation :=
  {[ "op" := VString "add";
     "path" := VString ("/metadata/annotations/" +:+ key);
     "value" := VString value ]}.

(** The two loops of the annotation editor build the same text from the
    texts of their elements: a line break before the first, a comma and a
    line break before the others. *)
Fixpoint joinText (elements : list string) (first : bool) (patchJSON : string) : string :=
  match elements with
  | [] => patchJSON
  | element :: rest =>
      joinText rest false
        (if first then patchJSON +:+ nl +:+ element
         else patchJSON +:+ "," +:+ nl +:+ element)
  end.

(** The tokens of such a text: those of the elements, separated by commas. *)
Fixpoint joinTokens (elements : list (list Reference.token)) (first : bool)
  : list Reference.token :=
  match elements with
  | [] => []
  | element :: rest =>
      (if first then [] else [Reference.TComma]) ++ element ++ joinTokens rest false
  end.

Definition removeTokens (key : string) : list Reference.token :=
  [Reference.TLBrace; Reference.TStr "op"; Reference.TColon; Reference.TStr "remove";
   Reference.TComma; Reference.TStr "path"; Reference.TColon;
   Reference.TStr ("/metadata/annotations/" +:+ key); Reference.TRBrace].

Definition addTokens (entry : string * string) : list Reference.token :=
  [Reference.TLBrace; Reference.TStr "op"; Reference.TColon; Reference.TStr "add";
   Reference.TComma; Reference.TStr "path"; Reference.TColon;
   Reference.TStr ("/metadata/annotations/" +:+ entry.1);
   Reference.TComma; Reference.TStr "value"; Reference.TColon;
   Reference.TStr entry.2; Reference.TRBrace].

(** The text of [annotationRemove] before and after the key. *)
Definition annotationRemoveBefore : string :=
  "{" +:+ quoted "op" +:+ ": " +:+ quoted "remove" +:+ ", " +:+ quoted "path" +:+ ": "
  +:+ dq +:+ "/metadata/annotations/".
Definition annotationRemoveAfter : string := dq +:+ "}".

(** The text of [annotationAdd] before the key, between key and value, and
    after the value. *)
Definition annotationAddBefore : string :=
  "{" +:+ quoted "op" +:+ ": " +:+ quoted "add" +:+ ", " +:+ quoted "path" +:+ ": "
  +:+ dq +:+ "/metadata/annotations/".
Definition annotationAddBetween : string :=
  dq +:+ ", " +:+ quoted "value" +:+ ": " +:+ dq.
Definition annotationAddAfter : string := dq +:+ "}".

(** ** The service after the operations of the node-port reconciler *)

(** A port without its node port. *)
Definition withoutNodePort (port : Value) : Value :=
  match port with
  | VMap p => VMap (delete "nodePort" p)
  | _ => port
  end.

(** The live ports once the node ports the loop removes are gone. *)
Definition reconciledPorts (explicitNodePorts : gset string) (unnamedPortInts : gset Z)
    (ports : list Value) : list Value :=
  map (fun port =>
         if removalDecision explicitNodePorts unnamedPortInts port
         then withoutNodePort port else port) ports.

(** The resource with other ports under [spec]. *)
Definition withPorts (u : Unstructured) (specMap : gmap string Value)
    (ports : list Value) : Unstructured :=
  {| Object := <["spec" := VMap (<["ports" := VSlice ports]> specMap)]> (Object u) |}.

(** * Properties *)

(** ** Strings *)

Lemma append_cons c (s t : string) : String c s +:+ t = String c (s +:+ t).
Proof. reflexivity. Qed.

Lemma append_nil_r (s : string) : s +:+ "" = s.
Proof. induction s as [|c s IH]; [reflexivity|]. rewrite append_cons, IH. reflexivity. Qed.

Lemma append_assoc (a b c : string) : (a +:+ b) +:+ c = a +:+ (b +:+ c).
Proof. induction a as [|x a IH]; [reflexivity|]. rewrite !append_cons, IH. reflexivity. Qed.

Lemma plain_app (a b : string) : plain (a +:+ b) = plain a && plain b.
Proof.
  induction a as [|x a IH]; [reflexivity|].
  rewrite append_cons. simpl. rewrite IH. apply andb_assoc.
Qed.

Lemma plain_uint (d : Decimal.uint) : plain (NilEmpty.string_of_uint d) = true.
Proof. induction d; simpl; try rewrite IHd; reflexivity. Qed.

Lemma no_slash_uint (d : Decimal.uint) : no_slash (NilEmpty.string_of_uint d) = true.
Proof. induction d; simpl; try rewrite IHd; reflexivity. Qed.

Lemma plain_itoa (n : nat) : plain (itoa n) = true.
Proof. apply plain_uint. Qed.

Lemma plain_updateNodePortString (i : nat) : plain (updateNodePortString i) = true.
Proof.
  unfold updateNodePortString. rewrite !plain_app, plain_itoa. reflexivity.
Qed.

Lemma parse_index_itoa (n : nat) : parse_index (itoa n) = Some n.
Proof.
  unfold parse_index, itoa. rewrite NilEmpty.usu. cbn zeta.
  rewrite Unsigned.of_to, String.eqb_refl. reflexivity.
Qed.

Lemma split_on_no_slash (t r : string) :
  no_slash t = true ->
  split_on slash (t +:+ String slash r) = t :: split_on slash r.
Proof.
  induction t as [|c t IH]; intros Ht.
  - reflexivity.
  - simpl in Ht. apply andb_true_iff in Ht as [Hc Ht].
    rewrite append_cons. cbn [split_on].
    apply negb_true_iff in Hc. rewrite Hc, IH by assumption. reflexivity.
Qed.

Lemma pointer_tokens_nodePort (i : nat) :
  pointer_tokens (updateNodePortString i) = Some ["spec"; "ports"; itoa i; "nodePort"].
Proof.
  change (updateNodePortString i)
    with (String slash ("spec" +:+ String slash ("ports" +:+ String slash
            (itoa i +:+ String slash "nodePort")))).
  cbn [pointer_tokens]. rewrite Ascii.eqb_refl.
  rewrite !split_on_no_slash by (reflexivity || apply no_slash_uint).
  reflexivity.
Qed.

(** ** The reference library decodes the remove template *)

Lemma lexFrom_app (a b : string) : forall st,
  Reference.lexFrom (a +:+ b) st
  = match Reference.lexFrom a st with
    | Some (ta, st1) =>
        match Reference.lexFrom b st1 with
        | Some (tb, st2) => Some (ta ++ tb, st2)
        | None => None
        end
    | None => None
    end.
Proof.
  induction a as [|c a IH]; intros st.
  - change ("" +:+ b) with b. cbn [Reference.lexFrom].
    destruct (Reference.lexFrom b st) as [[tb st2]|]; reflexivity.
  - rewrite append_cons. cbn [Reference.lexFrom].
    destruct (Reference.lexStep st c) as [[ts st']|]; [|reflexivity].
    rewrite IH. destruct (Reference.lexFrom a st') as [[ta st1]|]; [|reflexivity].
    destruct (Reference.lexFrom b st1) as [[tb st2]|]; [|reflexivity].
    rewrite app_assoc. reflexivity.
Qed.

Lemma plain_char_not_quote c : plain_char c = true -> Reference.is_char c 34 = false.
Proof.
  intros Hc. destruct (Reference.is_char c 34) eqn:E; [|reflexivity].
  apply Ascii.eqb_eq in E. subst c. discriminate Hc.
Qed.

Lemma lexFrom_plain (path : string) : forall acc,
  plain path = true ->
  Reference.lexFrom path (Reference.LStr acc) = Some ([], Reference.LStr (acc +:+ path)).
Proof.
  induction path as [|c path IH]; intros acc Hp.
  - rewrite append_nil_r. reflexivity.
  - simpl in Hp. apply andb_true_iff in Hp as [Hc Hp].
    cbn [Reference.lexFrom Reference.lexStep].
    rewrite (plain_char_not_quote c Hc), Hc.
    rewrite IH by assumption. rewrite append_assoc. reflexivity.
Qed.

Lemma lex_opRemove (path : string) :
  plain path = true ->
  Reference.lex (opRemove path)
  = Some [Reference.TLBrack; Reference.TLBrace; Reference.TStr "op";
          Reference.TColon; Reference.TStr "remove"; Reference.TComma;
          Reference.TStr "path"; Reference.TColon; Reference.TStr path;
          Reference.TRBrace; Reference.TRBrack].
Proof.
  intros Hp. unfold Reference.lex, opRemove. rewrite lexFrom_app.
  replace (Reference.lexFrom opRemoveBefore Reference.LTop)
    with (Some ([Reference.TLBrack; Reference.TLBrace; Reference.TStr "op";
                 Reference.TColon; Reference.TStr "remove"; Reference.TComma;
                 Reference.TStr "path"; Reference.TColon], Reference.LStr ""))
    by (vm_compute; reflexivity).
  cbv iota beta. rewrite lexFrom_app, (lexFrom_plain path "" Hp).
  change ("" +:+ path) with path.
  replace (Reference.lexFrom opRemoveAfter (Reference.LStr path))
    with (Some ([Reference.TStr path; Reference.TRBrace; Reference.TRBrack], Reference.LTop))
    by reflexivity.
  reflexivity.
Qed.

Lemma reference_decodes_remove : @DecodesRemove Reference.library.
Proof.
  intros path Hp. cbn [DecodePatch Reference.library].
  unfold Reference.decodePatch, Reference.decodeJSON.
  rewrite lex_opRemove by assumption. vm_compute. reflexivity.
Qed.

(** ** [getNodePortInt] *)

Lemma getNodePortInt_error (nodePort : Value) (e : error) :
  (getNodePortInt nodePort).2 = Some e <->
  exists s, nodePort = VString s /\ (Atoi s).2 = Some e.
Proof.
  split.
  - destruct nodePort; cbn; try discriminate.
    intros Hs. exists s. split; [reflexivity|].
    destruct (Atoi s) as [n [e'|]]; cbn in *; [assumption|discriminate].
  - intros (s & -> & Hs). cbn.
    destruct (Atoi s) as [n [e'|]]; cbn in *; [assumption|discriminate].
Qed.

Lemma getNodePortInt_string (s : string) (n : Z) :
  Atoi s = (n, None) -> getNodePortInt (VString s) = (0, None).
Proof. intros Hs. cbn. rewrite Hs. reflexivity. Qed.

(** C2: the claim holds for the integer and floating-point cases, but for a
    string that parses as an integer the parsed value is assigned to a
    variable local to the [case], and [getNodePortInt] returns 0: the string
    "30080" denotes 30080 ([strconv.Atoi] returns it) and reads as 0. *)
Theorem getNodePortInt_numeric_string_reads_zero :
  Atoi "30080" = (30080, None)
  /\ getNodePortInt (VString "30080") = (0, None)
  /\ getNodePortInt (VInt64 30080) = (30080, None)
  /\ getNodePortInt (VFloat64 (S754_finite false 30080 0)) = (30080, None).
Proof. repeat split; vm_compute; reflexivity. Qed.

(** ** The node-port reconciler *)

(** C10: when [spec.type] is absent the node-port reconciler returns no
    operation and no error, whatever the live ports and the annotations. *)
Theorem getNodePortPatch_type_absent `{Library} (u : Unstructured) :
  specType u = None -> getNodePortPatch u = Return ([], None).
Proof.
  unfold specType, specMapOf, getNodePortPatch, UnstructuredContent.
  destruct (Object u !! "spec") as [[]|]; try reflexivity.
  intros ->. reflexivity.
Qed.

Lemma getNodePortPatch_type_absent_witness :
  specType Examples.untypedService = None
  /\ existsb hasNodePort
       [VMap {[ "port" := VInt64 5432; "nodePort" := VInt64 30080 ]}] = true
  /\ @getNodePortPatch Reference.library Examples.untypedService = Return ([], None).
Proof.
  split; [reflexivity|]. split; [reflexivity|].
  apply getNodePortPatch_type_absent. reflexivity.
Defined.

(** ** The whiteout decision *)

Lemma groupKindInList_nonempty gk l : groupKindInList gk l = true -> l <> [].
Proof. destruct l; [discriminate|congruence]. Qed.

(** C1, amended: with a non-empty [IncludeOnly] that lists the resource's
    group and kind, the decision is the ownership rule alone; neither the
    extra whiteouts nor the built-in list changes it, and it is [false] when
    ownership whiteouts are disabled or the resource has no owner. *)
Theorem getWhiteOuts_included `{Library} (blocklist : list GroupKind)
    (k : KubernetesTransformPlugin) (obj : Unstructured) :
  IncludeOnly k <> [] ->
  groupKindInList (GroupKindOf obj) (IncludeOnly k) = true ->
  getWhiteOutsWith blocklist k obj = ownedWhiteout k obj
  /\ (forall blocklist' extraWhiteouts,
        getWhiteOutsWith blocklist' (withExtraWhiteouts k extraWhiteouts) obj
        = getWhiteOutsWith blocklist k obj)
  /\ (DisableWhiteoutOwned k = true \/ GetOwnerReferences obj = [] ->
      getWhiteOuts k obj = false).
Proof.
  intros Hne Hin.
  assert (Hall : forall bl ew,
             getWhiteOutsWith bl (withExtraWhiteouts k ew) obj = ownedWhiteout k obj).
  { intros bl ew. unfold getWhiteOutsWith, ownedWhiteout. cbn.
    destruct (IncludeOnly k) as [|g l] eqn:E; [congruence|].
    cbn [length Nat.ltb Nat.leb]. rewrite Hin. cbn.
    destruct (DisableWhiteoutOwned k); [reflexivity|].
    destruct (IsPodSpecable obj) as [t b]. cbn.
    destruct (_ && _); reflexivity. }
  assert (Hk : forall bl, getWhiteOutsWith bl k obj = ownedWhiteout k obj).
  { intros bl. rewrite <- (Hall bl (ExtraWhiteouts k)). destruct k; reflexivity. }
  split; [apply Hk|]. split.
  - intros bl ew. rewrite Hall, Hk. reflexivity.
  - intros Hor. unfold getWhiteOuts. rewrite Hk. unfold ownedWhiteout.
    destruct Hor as [-> | ->]; [reflexivity|]. cbn. apply andb_false_r.
Qed.

Lemma getWhiteOuts_included_witness :
  @getWhiteOutsWith Reference.library gksToWhiteout Examples.onlyServices
     Examples.nodePortService = false.
Proof.
  destruct (@getWhiteOuts_included Reference.library gksToWhiteout Examples.onlyServices
              Examples.nodePortService) as (H1 & _ & H3);
    [discriminate | reflexivity |].
  apply H3. right. reflexivity.
Defined.

(** C1 as stated fails: an owned pod is a whiteout although [IncludeOnly]
    lists pods. *)
Lemma getWhiteOuts_included_owned_pod :
  IncludeOnly Examples.onlyPods <> []
  /\ groupKindInList (GroupKindOf Examples.ownedPod) (IncludeOnly Examples.onlyPods) = true
  /\ @getWhiteOuts Reference.library Examples.onlyPods Examples.ownedPod = true.
Proof. split; [discriminate|]. split; vm_compute; reflexivity. Qed.

(** ** The field stripper *)

Lemma nestedField_resolve (fields : list string) : forall v x found,
  nestedField v fields = (x, found, None) ->
  found = match resolve fields v with Some _ => true | None => false end.
Proof.
  induction fields as [|f rest IH]; intros v x found Hn; cbn in *.
  - congruence.
  - destruct v; try congruence.
    destruct (m !! f) as [v'|]; [eauto | congruence].
Qed.

Lemma fieldsToStrip_pointers :
  Forall (fun f => pointer_tokens (pointer_of f) = Some f /\ plain (pointer_of f) = true)
    fieldsToStrip.
Proof. repeat constructor. Qed.

Lemma found_present (obj : Unstructured) (f : list string) x found :
  pointer_tokens (pointer_of f) = Some f ->
  NestedFieldNoCopy (Object obj) f = (x, found, None) ->
  found = path_present obj (pointer_of f).
Proof.
  intros Ht Hn. unfold path_present. rewrite Ht.
  apply (nestedField_resolve _ _ _ _ Hn).
Qed.

Lemma filter_none {A} (f : A -> bool) (l : list A) :
  (forall x, In x l -> f x = false) -> List.filter f l = [].
Proof.
  induction l as [|a l IH]; intros Hf; [reflexivity|].
  cbn. rewrite (Hf a) by (left; reflexivity). apply IH. intros x Hx. apply Hf. right. exact Hx.
Qed.

Section Stripper.
Context `{Library} `{!DecodesRemove}.

Lemma stripLoop_exact (obj : Unstructured) (fields : list (list string)) :
  forall patches,
  Forall (fun f => pointer_tokens (pointer_of f) = Some f /\ plain (pointer_of f) = true)
    fields ->
  Forall (fun f => (NestedFieldNoCopy (Object obj) f).2 = None) fields ->
  stripLoop obj fields patches
  = (patches ++ map remove_op (List.filter (path_present obj) (map pointer_of fields)), None).
Proof.
  induction fields as [|f rest IH]; intros patches Hp Hn; cbn [stripLoop map List.filter].
  - rewrite app_nil_r. reflexivity.
  - inversion Hp as [|? ? [Ht Hpl] Hp']; subst. inversion Hn as [|? ? Hf Hn']; subst.
    destruct (NestedFieldNoCopy (Object obj) f) as [[x found] err] eqn:E.
    cbn in Hf. subst err.
    rewrite <- (found_present obj f x found Ht E).
    destruct found.
    + rewrite DecodePatch_opRemove by assumption.
      rewrite IH by assumption. cbn [map]. rewrite <- app_assoc. reflexivity.
    + apply IH; assumption.
Qed.

Lemma stripLoop_members (obj : Unstructured) (fields : list (list string)) :
  forall patches0 patches err o,
  Forall (fun f => pointer_tokens (pointer_of f) = Some f /\ plain (pointer_of f) = true)
    fields ->
  stripLoop obj fields patches0 = (patches, err) ->
  In o patches ->
  In o patches0 \/ exists p, o = remove_op p /\ path_present obj p = true.
Proof.
  induction fields as [|f rest IH]; intros patches0 patches err o Hp Hs Ho;
    cbn [stripLoop] in Hs.
  - left. congruence.
  - inversion Hp as [|? ? [Ht Hpl] Hp']; subst.
    destruct (NestedFieldNoCopy (Object obj) f) as [[x found] [e|]] eqn:E.
    + left. congruence.
    + pose proof (found_present obj f x found Ht E) as Hfound.
      destruct found.
      * rewrite DecodePatch_opRemove in Hs by assumption.
        destruct (IH _ _ _ _ Hp' Hs Ho) as [Hin | Hex]; [|right; exact Hex].
        apply in_app_or in Hin as [Hin | [<- | []]]; [left; exact Hin|].
        right. exists (pointer_of f). split; [reflexivity | congruence].
      * eapply IH; eassumption.
Qed.

Lemma wellShaped_no_error (obj : Unstructured) :
  metadataWellShaped obj = true ->
  Forall (fun f => (NestedFieldNoCopy (Object obj) f).2 = None) fieldsToStrip.
Proof.
  unfold metadataWellShaped, NestedFieldNoCopy. intros Hw.
  repeat constructor; cbn;
    destruct (Object obj !! "metadata") as [[]|]; try discriminate; cbn;
    try reflexivity;
    match goal with |- context [?m !! ?k] => destruct (m !! k); reflexivity end.
Qed.

(** C7, amended: when [metadata] is absent, nil or a map, the field stripper
    succeeds and emits a remove exactly for the paths of the fixed list that
    are present, in list order; in particular it succeeds when [metadata] is
    absent and emits nothing when none of the paths is present.  When
    [metadata] has another shape it returns an error and no operation. *)
Theorem stripFields_exact (obj : Unstructured) :
  (metadataWellShaped obj = true ->
   stripFields obj
   = (map remove_op (List.filter (path_present obj) (map pointer_of fieldsToStrip)), None))
  /\ (Object obj !! "metadata" = None -> (stripFields obj).2 = None)
  /\ (metadataWellShaped obj = true ->
      (forall f, In f fieldsToStrip -> path_present obj (pointer_of f) = false) ->
      stripFields obj = ([], None))
  /\ (metadataWellShaped obj = false -> exists err, stripFields obj = ([], Some err)).
Proof.
  assert (Hexact : metadataWellShaped obj = true ->
     stripFields obj
     = (map remove_op (List.filter (path_present obj) (map pointer_of fieldsToStrip)), None)).
  { intros Hw. unfold stripFields.
    rewrite stripLoop_exact; [reflexivity | apply fieldsToStrip_pointers |].
    apply wellShaped_no_error, Hw. }
  split; [exact Hexact|]. split; [|split].
  - intros Hm. rewrite Hexact; [reflexivity|].
    unfold metadataWellShaped. rewrite Hm. reflexivity.
  - intros Hw Hnone. rewrite (Hexact Hw). f_equal.
    rewrite filter_none; [reflexivity|]. intros p Hp.
    apply in_map_iff in Hp as (f & <- & Hf). auto.
  - unfold metadataWellShaped, stripFields. cbn [fieldsToStrip stripLoop].
    unfold NestedFieldNoCopy. cbn.
    destruct (Object obj !! "metadata") as [[]|]; try discriminate; eauto.
Qed.

Lemma stripFields_members (obj : Unstructured) patches err o :
  stripFields obj = (patches, err) -> In o patches ->
  exists p, o = remove_op p /\ path_present obj p = true.
Proof.
  intros Hs Ho.
  destruct (stripLoop_members obj fieldsToStrip [] patches err o
              fieldsToStrip_pointers Hs Ho) as [[] | Hex].
  exact Hex.
Qed.

End Stripper.

Lemma stripFields_exact_witness :
  @stripFields Reference.library Examples.liveConfigMap
  = ([remove_op "/metadata/uid"; remove_op "/status"], None).
Proof.
  destruct (@stripFields_exact Reference.library reference_decodes_remove
              Examples.liveConfigMap) as (H1 & _).
  rewrite H1 by reflexivity. vm_compute. reflexivity.
Defined.

(** C7 as stated fails: [status] is present, yet the stripper fails on the
    shape of [metadata] and emits no remove for it. *)
Lemma stripFields_string_metadata :
  path_present Examples.stringMetadata "/status" = true
  /\ @stripFields Reference.library Examples.stringMetadata
     = ([], Some (ErrAccessor ["uid"])).
Proof. split; vm_compute; reflexivity. Qed.

(** ** The service sanitizer and the node-port reconciler *)

Lemma iface_eq_string_spec (v : Value) (s : string) :
  iface_eq_string v s = true <-> v = VString s.
Proof.
  destruct v; cbn; try (split; [discriminate | congruence]).
  rewrite String.eqb_eq. split; congruence.
Qed.

Lemma iface_neq_string_spec (v : Value) (s : string) :
  negb (iface_eq_string v s) = true <-> v <> VString s.
Proof.
  rewrite negb_true_iff, <- not_true_iff_false, iface_eq_string_spec. reflexivity.
Qed.

Lemma shouldRemoveServiceClusterIP_spec (u : Unstructured) :
  shouldRemoveServiceClusterIP u = true <->
  exists specMap clusterIP,
    specMapOf u = Some specMap /\ specMap !! "clusterIP" = Some clusterIP
    /\ clusterIP <> VString "None".
Proof.
  unfold shouldRemoveServiceClusterIP, specMapOf, UnstructuredContent.
  split.
  - destruct (Object u !! "spec") as [[]|]; try discriminate.
    destruct (m !! "clusterIP") as [v|] eqn:E; [|discriminate].
    intros Hv. exists m, v. repeat split; [assumption|].
    apply iface_neq_string_spec, Hv.
  - intros (specMap & v & Hs & Hv & Hne).
    destruct (Object u !! "spec") as [[]|]; try discriminate.
    injection Hs as ->. rewrite Hv. apply iface_neq_string_spec, Hne.
Qed.

Lemma shouldRemoveServiceClusterIPs_spec (u : Unstructured) :
  shouldRemoveServiceClusterIPs u = true <->
  exists specMap clusterIPs,
    specMapOf u = Some specMap /\ specMap !! "clusterIPs" = Some clusterIPs
    /\ ((forall l, clusterIPs <> VSlice l)
        \/ clusterIPs = VSlice []
        \/ exists first rest, clusterIPs = VSlice (first :: rest) /\ first <> VString "None").
Proof.
  unfold shouldRemoveServiceClusterIPs, specMapOf, UnstructuredContent.
  split.
  - destruct (Object u !! "spec") as [[]|]; try discriminate.
    destruct (m !! "clusterIPs") as [v|] eqn:E; [|discriminate].
    intros Hv. exists m, v. repeat split; [assumption|].
    destruct v as [| | | | | | |l|]; try (left; discriminate).
    destruct l as [|first rest]; [right; left; reflexivity|].
    right; right. exists first, rest. split; [reflexivity|].
    apply iface_neq_string_spec, Hv.
  - intros (specMap & v & Hs & Hv & Hshape).
    destruct (Object u !! "spec") as [[]|]; try discriminate.
    injection Hs as ->. rewrite Hv.
    destruct Hshape as [Hn | [-> | (first & rest & -> & Hne)]].
    + destruct v; try reflexivity. destruct (Hn l). reflexivity.
    + reflexivity.
    + apply iface_neq_string_spec, Hne.
Qed.

Lemma remove_op_inj (p q : string) : remove_op p = remove_op q -> p = q.
Proof.
  intros Heq.
  assert (Hp : remove_op p !! "path" = Some (VString p)) by reflexivity.
  assert (Hq : remove_op q !! "path" = Some (VString q)) by reflexivity.
  rewrite Heq in Hp. congruence.
Qed.

Lemma specMapOf_Some (u : Unstructured) (specMap : gmap string Value) :
  specMapOf u = Some specMap <-> Object u !! "spec" = Some (VMap specMap).
Proof.
  unfold specMapOf, UnstructuredContent.
  destruct (Object u !! "spec") as [[]|]; split; congruence.
Qed.

Lemma spec_member_present (u : Unstructured) specMap (key p : string) v :
  specMapOf u = Some specMap -> specMap !! key = Some v ->
  pointer_tokens p = Some ["spec"; key] ->
  path_present u p = true.
Proof.
  intros Hs Hk Hp. apply specMapOf_Some in Hs.
  unfold path_present. rewrite Hp. cbn. rewrite Hs, Hk. reflexivity.
Qed.

Lemma nodePort_present (u : Unstructured) specMap ports (i : nat) port nodePort :
  specMapOf u = Some specMap -> specMap !! "ports" = Some (VSlice ports) ->
  ports !! i = Some (VMap port) -> port !! "nodePort" = Some nodePort ->
  path_present u (updateNodePortString i) = true.
Proof.
  intros Hs Hp Hi Hn. apply specMapOf_Some in Hs.
  unfold path_present. rewrite pointer_tokens_nodePort.
  cbn [resolve]. rewrite Hs, Hp, parse_index_itoa, Hi, Hn. reflexivity.
Qed.

Lemma updateNodePortString_other (i : nat) (p : string) :
  String.get 6 p <> Some "p"%char -> updateNodePortString i <> p.
Proof. intros Hp <-. apply Hp. reflexivity. Qed.

Lemma removableFrom_lookup (ports : list Value) : forall i j port,
  ports !! j = Some port -> hasNodePort port = true ->
  In (i + j)%nat (removableFrom ports i).
Proof.
  induction ports as [|q rest IH]; intros i j port Hj Hp; [discriminate|].
  cbn [removableFrom]. destruct j as [|j]; cbn in Hj.
  - injection Hj as ->. rewrite Hp, Nat.add_0_r. left. reflexivity.
  - replace (i + S j)%nat with (S i + j)%nat by lia.
    destruct (hasNodePort q); [right|]; eapply IH; eassumption.
Qed.

Section Service.
Context `{Library} `{!DecodesRemove}.

Lemma removeWhen_law (cond : bool) (path : string) (patches : Patch) :
  plain path = true ->
  removeWhen cond path patches
  = (patches ++ (if cond then [remove_op path] else []), None).
Proof.
  intros Hp. unfold removeWhen. destruct cond.
  - rewrite DecodePatch_opRemove by assumption. reflexivity.
  - rewrite app_nil_r. reflexivity.
Qed.

Lemma removeServiceFields_law (obj : Unstructured) :
  removeServiceFields obj
  = match getNodePortPatch obj with
    | Panic => Panic
    | Return (_, Some err) => Return ([], Some err)
    | Return (patch, None) =>
        Return ((if isLoadBalancerService obj then [remove_op updateExternalIPs] else [])
                ++ (if shouldRemoveServiceClusterIP obj then [remove_op updateClusterIP] else [])
                ++ (if shouldRemoveServiceClusterIPs obj then [remove_op updateClusterIPs] else [])
                ++ patch, None)
    end.
Proof.
  unfold removeServiceFields. rewrite !removeWhen_law by reflexivity.
  destruct (getNodePortPatch obj) as [[patch [err|]]|]; cbn; try reflexivity.
  rewrite <- !app_assoc. reflexivity.
Qed.

Lemma livePorts_none_explicit (ports : list Value) : forall i patch,
  nodePortsParse ports ->
  livePorts ports i ∅ ∅ patch
  = (patch ++ map removeNodePort (removableFrom ports i), None).
Proof.
  induction ports as [|q rest IH]; intros i patch Hparse; cbn [livePorts removableFrom].
  - cbn. rewrite app_nil_r. reflexivity.
  - assert (Hrest : nodePortsParse rest).
    { intros port v Hin Hv. apply (Hparse port v); [right; exact Hin | exact Hv]. }
    destruct q; cbn [hasNodePort]; try (apply IH; exact Hrest).
    destruct (m !! "nodePort") as [v|] eqn:Ev; [|apply IH; exact Hrest].
    pose proof (Hparse m v (or_introl eq_refl) Ev) as Herr.
    destruct (getNodePortInt v) as [n err]. cbn in Herr. subst err. cbn [fst].
    destruct (n =? 0); cbn [negb]; [apply IH; exact Hrest|].
    cbv zeta.
    rewrite !bool_decide_eq_false_2 by apply not_elem_of_empty.
    replace (if (0 <? String.length match m !! "name" with
                                    | Some (VString s) => s
                                    | _ => ""
                                    end)%nat
             then negb false else negb false) with true
      by (destruct (0 <? _)%nat; reflexivity).
    rewrite DecodePatch_opRemove by apply plain_updateNodePortString.
    rewrite IH by exact Hrest. cbn [map]. rewrite <- app_assoc. reflexivity.
Qed.

Lemma livePorts_members (ports : list Value) :
  forall i explicit unnamed patch patch' err o,
  livePorts ports i explicit unnamed patch = (patch', err) -> In o patch' ->
  In o patch
  \/ exists j port nodePort,
       ports !! j = Some (VMap port) /\ port !! "nodePort" = Some nodePort
       /\ o = removeNodePort (i + j).
Proof.
  induction ports as [|q rest IH]; intros i explicit unnamed patch patch' err o Hl Ho;
    cbn [livePorts] in Hl.
  - left. congruence.
  - assert (Hnext : forall patch0,
              livePorts rest (S i) explicit unnamed patch0 = (patch', err) ->
              In o patch0
              \/ exists j port nodePort,
                   (q :: rest) !! j = Some (VMap port) /\ port !! "nodePort" = Some nodePort
                   /\ o = removeNodePort (i + j)).
    { intros patch0 Hl0.
      destruct (IH _ _ _ _ _ _ _ Hl0 Ho) as [Hin | (j & port & v & Hj & Hv & ->)];
        [left; exact Hin|].
      right. exists (S j), port, v. repeat split; try assumption.
      replace (i + S j)%nat with (S i + j)%nat by lia. reflexivity. }
    destruct q; try (apply Hnext; exact Hl).
    destruct (m !! "nodePort") as [v|] eqn:Ev; [|apply Hnext; exact Hl].
    destruct (getNodePortInt v) as [n [e|]]; [left; congruence|].
    destruct (n =? 0); [apply Hnext; exact Hl|].
    match type of Hl with (if ?c then _ else _) = _ => destruct c end;
      [|apply Hnext; exact Hl].
    rewrite DecodePatch_opRemove in Hl by apply plain_updateNodePortString.
    destruct (Hnext _ Hl) as [Hin | Hex]; [|right; exact Hex].
    apply in_app_or in Hin as [Hin | [<- | []]]; [left; exact Hin|].
    right. exists O, m, v. repeat split; try assumption.
    unfold removeNodePort. rewrite Nat.add_0_r. reflexivity.
Qed.

Lemma getNodePortPatch_members (u : Unstructured) patch err o :
  getNodePortPatch u = Return (patch, err) -> In o patch ->
  exists i, o = removeNodePort i /\ path_present u (updateNodePortString i) = true.
Proof.
  unfold getNodePortPatch, UnstructuredContent. intros Hg Ho.
  destruct (Object u !! "spec") as [spec|] eqn:Es;
    [|injection Hg as <- <-; destruct Ho].
  destruct spec as [| | | | | | | |specMap]; try (injection Hg as <- <-; destruct Ho).
  destruct (specMap !! "type") as [serviceType|]; [|injection Hg as <- <-; destruct Ho].
  destruct (iface_eq_string serviceType "ExternalName");
    [injection Hg as <- <-; destruct Ho|].
  destruct (specMap !! "ports") as [servicePorts|] eqn:Ep;
    [|injection Hg as <- <-; destruct Ho].
  destruct servicePorts as [| | | | | | |portsSlice|];
    try (injection Hg as <- <-; destruct Ho).
  assert (Hlive : forall explicit unnamed,
            livePorts portsSlice 0 explicit unnamed [] = (patch, err) ->
            exists i, o = removeNodePort i /\ path_present u (updateNodePortString i) = true).
  { intros explicit unnamed Hl.
    destruct (livePorts_members _ _ _ _ _ _ _ _ Hl Ho) as [[] | (j & port & v & Hj & Hv & ->)].
    exists j. split; [reflexivity|].
    eapply nodePort_present; try eassumption. apply specMapOf_Some. exact Es. }
  destruct (GetAnnotations u !! lastAppliedKey) as [lastAppliedConfig|];
    [|injection Hg as Hl; eapply Hlive; exact Hl].
  destruct (json_Unmarshal lastAppliedConfig) as [applied [e|]];
    [injection Hg as <- <-; destruct Ho|].
  destruct (NestedSlice applied ["spec"; "ports"]) as [[[ports found] [e|]]|];
    cbn in Hg; try discriminate; [injection Hg as <- <-; destruct Ho|].
  destruct found; [|injection Hg as Hl; eapply Hlive; exact Hl].
  destruct (appliedPorts ports ∅ ∅) as [[[explicit unnamed] [e|]]|];
    cbn in Hg; try discriminate; [injection Hg as <- <-; destruct Ho|].
  injection Hg as Hl. eapply Hlive; exact Hl.
Qed.

(** C3, amended: for a service whose [spec.type] is present and not
    "ExternalName", without last-applied-configuration annotation and without
    a live [nodePort] on which [getNodePortInt] fails, the node-port
    reconciler succeeds and emits, in order, a remove at
    [spec.ports[i].nodePort] for the ports whose [nodePort] is present and
    does not read as 0; among them every port whose [nodePort] reads as a
    positive integer. *)
Theorem getNodePortPatch_no_snapshot (u : Unstructured) (specMap : gmap string Value)
    (serviceType : Value) (ports : list Value) :
  specMapOf u = Some specMap ->
  specMap !! "type" = Some serviceType ->
  serviceType <> VString "ExternalName" ->
  specMap !! "ports" = Some (VSlice ports) ->
  GetAnnotations u !! lastAppliedKey = None ->
  nodePortsParse ports ->
  getNodePortPatch u = Return (map removeNodePort (removableFrom ports 0), None)
  /\ forall (i : nat) port nodePort n,
       ports !! i = Some (VMap port) -> port !! "nodePort" = Some nodePort ->
       getNodePortInt nodePort = (n, None) -> 0 < n ->
       In (removeNodePort i) (map removeNodePort (removableFrom ports 0)).
Proof.
  intros Hs Ht Hne Hp Ha Hparse. split.
  - apply specMapOf_Some in Hs.
    unfold getNodePortPatch, UnstructuredContent. rewrite Hs, Ht.
    apply iface_neq_string_spec, negb_true_iff in Hne. rewrite Hne, Hp, Ha.
    rewrite livePorts_none_explicit by assumption. reflexivity.
  - intros i port nodePort n Hi Hn Hint Hpos.
    apply in_map. apply (removableFrom_lookup ports 0 i (VMap port) Hi).
    cbn. rewrite Hn, Hint. cbn. apply negb_true_iff, Z.eqb_neq. lia.
Qed.

(** C8, amended: the two predicates of the service sanitizer hold exactly on
    the stated shapes of [spec.clusterIP] and [spec.clusterIPs], and whenever
    the sanitizer returns without error its operations contain the remove at
    [spec.clusterIP], respectively [spec.clusterIPs], exactly when the
    predicate holds. *)
Theorem clusterIP_removal (u : Unstructured) :
  (shouldRemoveServiceClusterIP u = true <->
   exists specMap clusterIP,
     specMapOf u = Some specMap /\ specMap !! "clusterIP" = Some clusterIP
     /\ clusterIP <> VString "None")
  /\ (shouldRemoveServiceClusterIPs u = true <->
      exists specMap clusterIPs,
        specMapOf u = Some specMap /\ specMap !! "clusterIPs" = Some clusterIPs
        /\ ((forall l, clusterIPs <> VSlice l)
            \/ clusterIPs = VSlice []
            \/ exists first rest,
                 clusterIPs = VSlice (first :: rest) /\ first <> VString "None"))
  /\ forall patches,
       removeServiceFields u = Return (patches, None) ->
       (In (remove_op updateClusterIP) patches <-> shouldRemoveServiceClusterIP u = true)
       /\ (In (remove_op updateClusterIPs) patches <-> shouldRemoveServiceClusterIPs u = true).
Proof.
  split; [apply shouldRemoveServiceClusterIP_spec|].
  split; [apply shouldRemoveServiceClusterIPs_spec|].
  intros patches Hr. rewrite removeServiceFields_law in Hr.
  destruct (getNodePortPatch u) as [[patch [err|]]|] eqn:Hg; try discriminate.
  injection Hr as <-.
  assert (Hports : forall p, String.get 6 p <> Some "p"%char -> ~ In (remove_op p) patch).
  { intros p Hp Hin.
    destruct (getNodePortPatch_members u patch None _ Hg Hin) as (i & Heq & _).
    apply remove_op_inj in Heq. symmetry in Heq.
    revert Heq. apply updateNodePortString_other, Hp. }
  split; rewrite !in_app_iff; split.
  - intros [Hin | [Hin | [Hin | Hin]]].
    + destruct (isLoadBalancerService u); [|destruct Hin].
      destruct Hin as [Heq | []]. apply remove_op_inj in Heq. discriminate Heq.
    + destruct (shouldRemoveServiceClusterIP u); [reflexivity | destruct Hin].
    + destruct (shouldRemoveServiceClusterIPs u); [|destruct Hin].
      destruct Hin as [Heq | []]. apply remove_op_inj in Heq. discriminate Heq.
    + exfalso. revert Hin. apply Hports. discriminate.
  - intros ->. right; left. left. reflexivity.
  - intros [Hin | [Hin | [Hin | Hin]]].
    + destruct (isLoadBalancerService u); [|destruct Hin].
      destruct Hin as [Heq | []]. apply remove_op_inj in Heq. discriminate Heq.
    + destruct (shouldRemoveServiceClusterIP u); [|destruct Hin].
      destruct Hin as [Heq | []]. apply remove_op_inj in Heq. discriminate Heq.
    + destruct (shouldRemoveServiceClusterIPs u); [reflexivity | destruct Hin].
    + exfalso. revert Hin. apply Hports. discriminate.
  - intros ->. right; right; left. left. reflexivity.
Qed.

(** C4, amended: every operation of the field stripper is a remove of a path
    present in the resource, and so is every operation of the service
    sanitizer (node-port reconciler included) other than the remove of
    [spec.externalIPs]. *)
Theorem removes_target_present_paths (obj : Unstructured) :
  (forall patches err o,
     stripFields obj = (patches, err) -> In o patches ->
     exists p, o = remove_op p /\ path_present obj p = true)
  /\ (forall patches err o,
        removeServiceFields obj = Return (patches, err) -> In o patches ->
        exists p, o = remove_op p
                  /\ (p = updateExternalIPs \/ path_present obj p = true)).
Proof.
  split; [apply stripFields_members|].
  intros patches err o Hr Ho. rewrite removeServiceFields_law in Hr.
  destruct (getNodePortPatch obj) as [[patch [e|]]|] eqn:Hg; try discriminate.
  - injection Hr as <- <-. destruct Ho.
  - injection Hr as <- <-. rewrite !in_app_iff in Ho.
    destruct Ho as [Ho | [Ho | [Ho | Ho]]].
    + destruct (isLoadBalancerService obj); [|destruct Ho].
      destruct Ho as [<- | []]. exists updateExternalIPs. split; [reflexivity|left; reflexivity].
    + destruct (shouldRemoveServiceClusterIP obj) eqn:E; [|destruct Ho].
      destruct Ho as [<- | []]. exists updateClusterIP. split; [reflexivity|right].
      apply shouldRemoveServiceClusterIP_spec in E as (specMap & v & Hs & Hv & _).
      apply (spec_member_present obj specMap "clusterIP" _ v Hs Hv). reflexivity.
    + destruct (shouldRemoveServiceClusterIPs obj) eqn:E; [|destruct Ho].
      destruct Ho as [<- | []]. exists updateClusterIPs. split; [reflexivity|right].
      apply shouldRemoveServiceClusterIPs_spec in E as (specMap & v & Hs & Hv & _).
      apply (spec_member_present obj specMap "clusterIPs" _ v Hs Hv). reflexivity.
    + destruct (getNodePortPatch_members obj patch None o Hg Ho) as (i & -> & Hp).
      exists (updateNodePortString i). split; [reflexivity|right; exact Hp].
Qed.

End Service.

Lemma getNodePortPatch_no_snapshot_witness :
  @getNodePortPatch Reference.library Examples.nodePortService
  = Return ([removeNodePort 0; removeNodePort 1], None)
  /\ In (removeNodePort 1) [removeNodePort 0; removeNodePort 1].
Proof.
  destruct (@getNodePortPatch_no_snapshot Reference.library reference_decodes_remove
              Examples.nodePortService
              {[ "type" := VString "NodePort";
                 "clusterIP" := VString "10.0.0.1";
                 "ports" := VSlice [VMap {[ "name" := VString "http";
                                            "nodePort" := VInt64 30080 ]};
                                    VMap {[ "nodePort" := VInt64 31000 ]}] ]}
              (VString "NodePort")
              [VMap {[ "name" := VString "http"; "nodePort" := VInt64 30080 ]};
               VMap {[ "nodePort" := VInt64 31000 ]}])
    as [Hrun Hall].
  - reflexivity.
  - reflexivity.
  - discriminate.
  - reflexivity.
  - reflexivity.
  - intros port nodePort [Heq | [Heq | []]] Hn; injection Heq as <-;
      vm_compute in Hn; injection Hn as <-; reflexivity.
  - split; [exact Hrun|].
    apply (Hall 1%nat {[ "nodePort" := VInt64 31000 ]} (VInt64 31000) 31000);
      [reflexivity | reflexivity | reflexivity | lia].
Defined.

(** C3 as stated fails: the second live port has the positive node port
    30080, the service has a type and no annotation, and the reconciler
    emits nothing: it fails on the first port. *)
Lemma getNodePortPatch_no_snapshot_broken_port :
  specType Examples.brokenPortService = Some (VString "NodePort")
  /\ GetAnnotations Examples.brokenPortService !! lastAppliedKey = None
  /\ (exists specMap ports port,
        specMapOf Examples.brokenPortService = Some specMap
        /\ specMap !! "ports" = Some (VSlice ports)
        /\ ports !! 1%nat = Some (VMap port)
        /\ port !! "nodePort" = Some (VInt64 30080))
  /\ getNodePortInt (VInt64 30080) = (30080, None)
  /\ @getNodePortPatch Reference.library Examples.brokenPortService
     = Return ([], Some (ErrSyntax "Atoi" "abc")).
Proof.
  split; [reflexivity|]. split; [reflexivity|]. split.
  - eexists _, _, _. repeat split; reflexivity.
  - split; vm_compute; reflexivity.
Qed.

Lemma clusterIP_removal_witness :
  In (remove_op updateClusterIP)
    [remove_op updateClusterIP; removeNodePort 0; removeNodePort 1]
  <-> shouldRemoveServiceClusterIP Examples.nodePortService = true.
Proof.
  destruct (@clusterIP_removal Reference.library reference_decodes_remove
              Examples.nodePortService) as (_ & _ & Hemit).
  apply (Hemit [remove_op updateClusterIP; removeNodePort 0; removeNodePort 1]).
  vm_compute. reflexivity.
Defined.

(** C8 as stated fails: [spec.clusterIP] is "10.0.0.1", and the sanitizer
    returns the error of the node-port reconciler and no remove. *)
Lemma clusterIP_removal_broken_port :
  (exists specMap,
     specMapOf Examples.brokenPortService = Some specMap
     /\ specMap !! "clusterIP" = Some (VString "10.0.0.1"))
  /\ GroupKindOf Examples.brokenPortService = serviceGK
  /\ @removeServiceFields Reference.library Examples.brokenPortService
     = Return ([], Some (ErrSyntax "Atoi" "abc")).
Proof.
  split; [eexists; split; reflexivity|]. split; vm_compute; reflexivity.
Qed.

Lemma removes_target_present_paths_witness :
  exists p, remove_op "/metadata/uid" = remove_op p
            /\ path_present Examples.liveConfigMap p = true.
Proof.
  destruct (@removes_target_present_paths Reference.library reference_decodes_remove
              Examples.liveConfigMap) as [Hstrip _].
  apply (Hstrip [remove_op "/metadata/uid"; remove_op "/status"] None).
  - vm_compute. reflexivity.
  - left. reflexivity.
Defined.

(** C4 as stated fails: for a pod without [spec.nodeName] the plugin emits a
    remove of [spec.nodeName]. *)
Lemma removes_target_present_paths_pending_pod :
  @Run Reference.library Examples.plainPlugin (Examples.request Examples.pendingPod)
  = Return (Examples.plainPlugin,
            ({| Version := "v1"; IsWhiteOut := false;
                Patches := [remove_op podNodeName; remove_op podNodeSelector;
                            remove_op podPriority] |}, None))
  /\ path_present Examples.pendingPod podNodeName = false.
Proof. split; vm_compute; reflexivity. Qed.

(** ** The orchestration: [getKubernetesTransforms] and [Run] *)

Lemma runAll_error (before after : list (outcome (Patch * option error)))
    (patches : Patch) (err : error) :
  Forall succeeded before ->
  forall jsonPatch,
    runAll (before ++ Return (patches, Some err) :: after) jsonPatch = Return ([], Some err).
Proof.
  induction 1 as [|g before [p ->] _ IH]; intros jsonPatch; [reflexivity|].
  cbn. apply IH.
Qed.

Lemma runAll_panic (before after : list (outcome (Patch * option error))) :
  Forall succeeded before ->
  forall jsonPatch, runAll (before ++ Panic :: after) jsonPatch = Panic.
Proof.
  induction 1 as [|g before [p ->] _ IH]; intros jsonPatch; [reflexivity|].
  cbn. apply IH.
Qed.

Lemma runAll_error_empty (gens : list (outcome (Patch * option error))) :
  forall jsonPatch patches err,
    runAll gens jsonPatch = Return (patches, Some err) -> patches = [].
Proof.
  induction gens as [|[[q [e'|]]|] gens IH]; intros jsonPatch p e Hr; cbn in Hr;
    try congruence.
  eapply IH; exact Hr.
Qed.

Section Orchestration.
Context `{Library}.

Lemma getKubernetesTransforms_runAll (k : KubernetesTransformPlugin) (obj : Unstructured) :
  getKubernetesTransforms k obj = runAll (generators k obj) [].
Proof.
  unfold getKubernetesTransforms, generators. cbn [runAll].
  destruct (stripFields obj) as [p1 [e|]]; [reflexivity|].
  destruct (if (0 <? size (AddAnnotations k))%nat then _ else _) as [p2 [e|]];
    [reflexivity|].
  destruct (if (0 <? length (RemoveAnnotations k))%nat then _ else _) as [p3 [e|]];
    [reflexivity|].
  destruct (if GroupKind_eqb podGK (GroupKindOf obj) then _ else _) as [p4 [e|]];
    [reflexivity|].
  destruct (registryPatches k obj) as [p5 [e|]]; [reflexivity|].
  destruct (GroupKind_eqb (GroupKindOf obj) serviceGK).
  - destruct (removeServiceFields obj) as [[p6 [e|]]|]; reflexivity.
  - cbn. rewrite app_nil_r. reflexivity.
Qed.

Lemma Run_not_whiteout (k : KubernetesTransformPlugin) (request : PluginRequest) :
  getWhiteOuts (setOptionalFields k (Extras request)) (Resource request) = false ->
  Run k request
  = match getKubernetesTransforms (setOptionalFields k (Extras request)) (Resource request) with
    | Panic => Panic
    | Return (patches, err) =>
        Return (setOptionalFields k (Extras request),
                ({| Version := V1; IsWhiteOut := false; Patches := patches |}, err))
    end.
Proof.
  intros Hw. unfold Run. cbn. rewrite Hw.
  destruct (getKubernetesTransforms _ _) as [[patches err]|]; reflexivity.
Qed.

Lemma Run_whiteout (k : KubernetesTransformPlugin) (request : PluginRequest) :
  getWhiteOuts (setOptionalFields k (Extras request)) (Resource request) = true ->
  Run k request
  = Return (setOptionalFields k (Extras request),
            ({| Version := V1; IsWhiteOut := true; Patches := [] |}, None)).
Proof. intros Hw. unfold Run. cbn. rewrite Hw. reflexivity. Qed.

(** C5: a response with [IsWhiteOut] set carries no operation (and no error);
    in particular, when the effective [IncludeOnly] (the configured one,
    unless the request overrides it) is not empty and does not list the
    resource's group and kind, [Run] returns a whiteout without operations. *)
Theorem whiteout_has_no_patches (k : KubernetesTransformPlugin) (request : PluginRequest) :
  (forall k' resp err,
     Run k request = Return (k', (resp, err)) -> IsWhiteOut resp = true ->
     Patches resp = [] /\ err = None)
  /\ (IncludeOnly (setOptionalFields k (Extras request)) <> [] ->
      groupKindInList (GroupKindOf (Resource request))
        (IncludeOnly (setOptionalFields k (Extras request))) = false ->
      Run k request
      = Return (setOptionalFields k (Extras request),
                ({| Version := V1; IsWhiteOut := true; Patches := [] |}, None)))
  /\ (Extras request !! flagIncludeOnly = None ->
      IncludeOnly (setOptionalFields k (Extras request)) = IncludeOnly k).
Proof.
  split; [|split].
  - intros k' resp err Hrun Hw.
    destruct (getWhiteOuts (setOptionalFields k (Extras request)) (Resource request)) eqn:E.
    + rewrite (Run_whiteout _ _ E) in Hrun. injection Hrun as _ <- <-. split; reflexivity.
    + rewrite (Run_not_whiteout _ _ E) in Hrun.
      destruct (getKubernetesTransforms _ _) as [[patches e]|]; [|discriminate].
      injection Hrun as _ <- <-. discriminate Hw.
  - intros Hne Hout. apply Run_whiteout.
    unfold getWhiteOuts, getWhiteOutsWith. rewrite Hout.
    destruct (IncludeOnly _); [congruence | reflexivity].
  - intros Hflag. unfold setOptionalFields, extra. cbn. rewrite Hflag. reflexivity.
Qed.

(** C6: [getKubernetesTransforms] composes its generators all-or-nothing:
    when a generator returns an error after the ones before it succeeded,
    the result is that error and no operation, and [Run] returns that error
    with an empty patch list; whenever [Run] reports an error the response
    carries no operation. *)
Theorem generator_error_discards_patches (k : KubernetesTransformPlugin)
    (request : PluginRequest) :
  (forall obj, getKubernetesTransforms k obj = runAll (generators k obj) [])
  /\ (forall obj before after patches err,
        generators k obj = before ++ Return (patches, Some err) :: after ->
        Forall succeeded before ->
        getKubernetesTransforms k obj = Return ([], Some err))
  /\ (forall before after patches err,
        getWhiteOuts (setOptionalFields k (Extras request)) (Resource request) = false ->
        generators (setOptionalFields k (Extras request)) (Resource request)
        = before ++ Return (patches, Some err) :: after ->
        Forall succeeded before ->
        Run k request
        = Return (setOptionalFields k (Extras request),
                  ({| Version := V1; IsWhiteOut := false; Patches := [] |}, Some err)))
  /\ (forall k' resp err,
        Run k request = Return (k', (resp, Some err)) -> Patches resp = []).
Proof.
  split; [intros obj; apply getKubernetesTransforms_runAll|].
  split; [|split].
  - intros obj before after patches err Hg Hb.
    rewrite getKubernetesTransforms_runAll, Hg. apply runAll_error, Hb.
  - intros before after patches err Hw Hg Hb.
    rewrite (Run_not_whiteout _ _ Hw), getKubernetesTransforms_runAll, Hg.
    rewrite (runAll_error _ _ _ _ Hb). reflexivity.
  - intros k' resp err Hrun.
    destruct (getWhiteOuts (setOptionalFields k (Extras request)) (Resource request)) eqn:E.
    + rewrite (Run_whiteout _ _ E) in Hrun. discriminate Hrun.
    + rewrite (Run_not_whiteout _ _ E), getKubernetesTransforms_runAll in Hrun.
      destruct (runAll _ []) as [[p e]|] eqn:Er; [|discriminate].
      injection Hrun as _ <- ->. eapply runAll_error_empty; exact Er.
Qed.

End Orchestration.

Lemma whiteout_has_no_patches_witness :
  @Run Reference.library Examples.onlyServices (Examples.request Examples.ownedPod)
  = Return (Examples.onlyServices,
            ({| Version := "v1"; IsWhiteOut := true; Patches := [] |}, None)).
Proof.
  destruct (@whiteout_has_no_patches Reference.library Examples.onlyServices
              (Examples.request Examples.ownedPod)) as (_ & Hout & _).
  rewrite Hout.
  - vm_compute. reflexivity.
  - vm_compute. discriminate.
  - vm_compute. reflexivity.
Defined.

Lemma generator_error_discards_patches_witness :
  @stripFields Reference.library Examples.brokenPortService
  = ([remove_op "/metadata/uid"], None)
  /\ @Run Reference.library Examples.plainPlugin
       (Examples.request Examples.brokenPortService)
     = Return (Examples.plainPlugin,
               ({| Version := "v1"; IsWhiteOut := false; Patches := [] |},
                Some (ErrSyntax "Atoi" "abc"))).
Proof.
  split; [vm_compute; reflexivity|].
  destruct (@generator_error_discards_patches Reference.library Examples.plainPlugin
              (Examples.request Examples.brokenPortService)) as (_ & _ & Hrun & _).
  rewrite (Hrun [Return ([remove_op "/metadata/uid"], None); Return ([], None);
                 Return ([], None); Return ([], None); Return ([], None)]
                [] [] (ErrSyntax "Atoi" "abc")).
  - vm_compute. reflexivity.
  - vm_compute. reflexivity.
  - vm_compute. reflexivity.
  - repeat constructor; eexists; reflexivity.
Defined.

(** ** The panic of the node-port reconciler *)

Section Panic.
Context `{Library}.

Lemma getNodePortPatch_panics (u : Unstructured) (specMap : gmap string Value)
    (serviceType : Value) (portsSlice : list Value) (text : string)
    (applied : gmap string Value) (ports : list Value) :
  specMapOf u = Some specMap ->
  specMap !! "type" = Some serviceType ->
  iface_eq_string serviceType "ExternalName" = false ->
  specMap !! "ports" = Some (VSlice portsSlice) ->
  GetAnnotations u !! lastAppliedKey = Some text ->
  json_Unmarshal text = (applied, None) ->
  NestedSlice applied ["spec"; "ports"] = Return (ports, true, None) ->
  appliedPorts ports ∅ ∅ = Panic ->
  getNodePortPatch u = Panic.
Proof.
  intros Hs Ht Hne Hp Ha Hj Hn Hpanic. apply specMapOf_Some in Hs.
  unfold getNodePortPatch, UnstructuredContent.
  rewrite Hs, Ht, Hne, Hp, Ha, Hj, Hn. cbn. rewrite Hpanic. reflexivity.
Qed.

(** C9: [Run] panics on a service whose last-applied-configuration annotation
    is [{"spec":{"ports":[{"name":80,"nodePort":30080}]}}]: the port has a
    positive node port and a name that is a number, and the reconciler
    asserts the name to be a string without checking. *)
Theorem Run_panics_on_number_named_port :
  json_Unmarshal Examples.appliedText = (Examples.appliedDocument, None) ->
  Run Examples.plainPlugin (Examples.request Examples.numberNamedService) = Panic.
Proof.
  intros Hj.
  assert (Hk : setOptionalFields Examples.plainPlugin
                 (Extras (Examples.request Examples.numberNamedService))
               = Examples.plainPlugin) by reflexivity.
  assert (Hw : getWhiteOuts Examples.plainPlugin Examples.numberNamedService = false).
  { unfold getWhiteOuts, getWhiteOutsWith.
    destruct (IsPodSpecable Examples.numberNamedService) as [t b].
    replace (GetOwnerReferences Examples.numberNamedService) with (@nil (gmap string Value))
      by (vm_compute; reflexivity).
    replace (GroupKindOf Examples.numberNamedService) with serviceGK
      by (vm_compute; reflexivity).
    cbn. rewrite andb_false_r. reflexivity. }
  rewrite Run_not_whiteout; rewrite Hk; [|exact Hw].
  cbn [Resource Examples.request].
  rewrite getKubernetesTransforms_runAll.
  assert (Hpanic : getNodePortPatch Examples.numberNamedService = Panic).
  { eapply (getNodePortPatch_panics _ _ (VString "NodePort") []);
      [reflexivity | reflexivity | reflexivity | reflexivity | reflexivity
      | exact Hj | reflexivity | reflexivity]. }
  assert (Hgens : generators Examples.plainPlugin Examples.numberNamedService
                  = [Return ([], None); Return ([], None); Return ([], None);
                     Return ([], None); Return ([], None)] ++ Panic :: []).
  { unfold generators.
    replace (GroupKindOf Examples.numberNamedService) with serviceGK
      by (vm_compute; reflexivity).
    replace (stripFields Examples.numberNamedService) with (@nil Operation, @None error)
      by (vm_compute; reflexivity).
    replace (registryPatches Examples.plainPlugin Examples.numberNamedService)
      with (@nil Operation, @None error) by reflexivity.
    unfold removeServiceFields. rewrite Hpanic. reflexivity. }
  rewrite Hgens, runAll_panic; [reflexivity|].
  repeat constructor; eexists; reflexivity.
Qed.

End Panic.

Lemma Run_panics_on_number_named_port_witness :
  @json_Unmarshal Reference.library Examples.appliedText
  = (Examples.appliedDocument, None)
  /\ @Run Reference.library Examples.plainPlugin
       (Examples.request Examples.numberNamedService) = Panic.
Proof.
  assert (Hj : @json_Unmarshal Reference.library Examples.appliedText
               = (Examples.appliedDocument, None)) by (vm_compute; reflexivity).
  split; [exact Hj|].
  apply (@Run_panics_on_number_named_port Reference.library Hj).
Defined.

(** * Further properties *)

(** ** Membership in a list of group kinds *)

Lemma GroupKind_eqb_eq (a b : GroupKind) : GroupKind_eqb a b = true <-> a = b.
Proof.
  unfold GroupKind_eqb. rewrite andb_true_iff, !String.eqb_eq.
  destruct a, b; cbn. split; [intros [-> ->]; reflexivity | intros [= -> ->]; auto].
Qed.

Lemma groupKindInList_In (gk : GroupKind) (l : list GroupKind) :
  groupKindInList gk l = true <-> In gk l.
Proof.
  induction l as [|g l IH]; cbn; [split; [discriminate | tauto]|].
  destruct (GroupKind_eqb gk g) eqn:E.
  - apply GroupKind_eqb_eq in E. subst. tauto.
  - rewrite IH. split; [tauto|]. intros [-> | Hin]; [|exact Hin].
    assert (GroupKind_eqb gk gk = true) by (apply GroupKind_eqb_eq; reflexivity).
    congruence.
Qed.

(** X1: [groupKindInList] decides membership by structural equality of group
    and kind, so its answer does not depend on the order of the list or on
    repeated entries. *)
Theorem groupKindInList_is_set_membership (gk : GroupKind) :
  (forall l, groupKindInList gk l = true <-> In gk l)
  /\ (forall l l', (forall g, In g l <-> In g l') ->
        groupKindInList gk l = groupKindInList gk l').
Proof.
  split; [apply groupKindInList_In|].
  intros l l' Hsame.
  destruct (groupKindInList gk l) eqn:E1, (groupKindInList gk l') eqn:E2;
    try reflexivity.
  - apply groupKindInList_In, Hsame, groupKindInList_In in E1. congruence.
  - apply groupKindInList_In, Hsame, groupKindInList_In in E2. congruence.
Qed.

Lemma groupKindInList_is_set_membership_witness :
  groupKindInList podGK [serviceGK; podGK] = groupKindInList podGK [podGK; serviceGK; podGK].
Proof.
  apply (proj2 (groupKindInList_is_set_membership podGK)).
  intros g. cbn [In]. tauto.
Defined.

(** ** The whiteout decision, in full *)

Section Whiteouts.
Context `{Library}.

Lemma getWhiteOutsWith_split (blocklist : list GroupKind) (k : KubernetesTransformPlugin)
    (obj : Unstructured) :
  getWhiteOutsWith blocklist k obj
  = (if (0 <? length (IncludeOnly k))%nat
     then negb (groupKindInList (GroupKindOf obj) (IncludeOnly k))
     else groupKindInList (GroupKindOf obj) blocklist
          || groupKindInList (GroupKindOf obj) (ExtraWhiteouts k))
    || ownedWhiteout k obj.
Proof.
  unfold getWhiteOutsWith, ownedWhiteout.
  destruct (IsPodSpecable obj) as [t b]. cbn [snd].
  destruct (0 <? length (IncludeOnly k))%nat.
  - destruct (negb _); [reflexivity|]. cbn [orb].
    destruct (DisableWhiteoutOwned k); [reflexivity|]. cbn [negb andb].
    destruct (_ && _); reflexivity.
  - destruct (groupKindInList _ blocklist); [reflexivity|].
    destruct (groupKindInList _ (ExtraWhiteouts k)); [reflexivity|]. cbn [orb].
    destruct (DisableWhiteoutOwned k); [reflexivity|]. cbn [negb andb].
    destruct (_ && _); reflexivity.
Qed.

(** X2: [getWhiteOuts] drops a resource in exactly three situations: an
    include list is configured and does not name its group and kind; no
    include list is configured and the built-in list or the extra whiteouts
    name it; or ownership whiteouts are enabled and it is a pod or a pod
    template resource with at least one owner reference. *)
Theorem getWhiteOuts_decision (k : KubernetesTransformPlugin) (obj : Unstructured) :
  getWhiteOuts k obj = true <->
  (IncludeOnly k <> [] /\ ~ In (GroupKindOf obj) (IncludeOnly k))
  \/ (IncludeOnly k = []
      /\ (In (GroupKindOf obj) gksToWhiteout \/ In (GroupKindOf obj) (ExtraWhiteouts k)))
  \/ (DisableWhiteoutOwned k = false
      /\ (GroupKindOf obj = podGK \/ (IsPodSpecable obj).2 = true)
      /\ GetOwnerReferences obj <> []).
Proof.
  assert (Howned :
    (if DisableWhiteoutOwned k then false
     else let '(_, isPodSpecable) := IsPodSpecable obj in
          if (GroupKind_eqb (GroupKindOf obj) podGK || isPodSpecable)
             && (0 <? length (GetOwnerReferences obj))%nat
          then true else false) = true
    <-> DisableWhiteoutOwned k = false
        /\ (GroupKindOf obj = podGK \/ (IsPodSpecable obj).2 = true)
        /\ GetOwnerReferences obj <> []).
  { destruct (DisableWhiteoutOwned k); [split; [discriminate | intros [? _]; discriminate]|].
    destruct (IsPodSpecable obj) as [t b]. cbn [snd].
    rewrite <- GroupKind_eqb_eq.
    destruct (GetOwnerReferences obj) as [|o os]; cbn.
    - rewrite andb_false_r. split; [discriminate | intros (_ & _ & Hne); congruence].
    - rewrite andb_true_r.
      destruct (GroupKind_eqb (GroupKindOf obj) podGK), b; cbn;
        split; try discriminate; try (intros; repeat split; auto; discriminate).
      intros (_ & [Hf | Hf] & _); discriminate. }
  unfold getWhiteOuts, getWhiteOutsWith.
  destruct (IncludeOnly k) as [|g l] eqn:Einc.
  - cbn [length Nat.ltb Nat.leb].
    change ((0 <? 0)%nat) with false. cbv iota.
    destruct (groupKindInList (GroupKindOf obj) gksToWhiteout) eqn:Eb.
    { apply groupKindInList_In in Eb. split; [|reflexivity]. intros _. right; left. auto. }
    destruct (groupKindInList (GroupKindOf obj) (ExtraWhiteouts k)) eqn:Ee.
    { apply groupKindInList_In in Ee. split; [|reflexivity]. intros _. right; left. auto. }
    rewrite Howned. split; [intros Ho; right; right; exact Ho|].
    intros [[Hne _] | [[_ [Hin | Hin]] | Ho]]; [congruence | | | exact Ho].
    + apply groupKindInList_In in Hin. congruence.
    + apply groupKindInList_In in Hin. congruence.
  - change ((0 <? length (g :: l))%nat) with true. cbv iota.
    destruct (groupKindInList (GroupKindOf obj) (g :: l)) eqn:Ei; cbn [negb].
    + apply groupKindInList_In in Ei. rewrite Howned.
      split; [intros Ho; right; right; exact Ho|].
      intros [[_ Hnot] | [[Hnil _] | Ho]]; [tauto | discriminate | exact Ho].
    + split; [|reflexivity]. intros _. left. split; [discriminate|].
      intros Hin. apply groupKindInList_In in Hin. congruence.
Qed.

(** X3: with a non-empty include list the decision does not look at the
    extra whiteouts or the built-in list, for any resource (listed or not). *)
Theorem includeOnly_overrides_exclusions (k : KubernetesTransformPlugin)
    (obj : Unstructured) (blocklist blocklist' : list GroupKind)
    (extraWhiteouts : list GroupKind) :
  IncludeOnly k <> [] ->
  getWhiteOutsWith blocklist' (withExtraWhiteouts k extraWhiteouts) obj
  = getWhiteOutsWith blocklist k obj.
Proof.
  intros Hne. unfold getWhiteOutsWith. cbn.
  destruct (IncludeOnly k) as [|g l]; [congruence | reflexivity].
Qed.

(** X4: disabling ownership whiteouts never drops a resource that is kept
    with them enabled: a whiteout decided with [DisableWhiteoutOwned] set is
    also decided with it unset, and a resource without owner references gets
    the same decision either way. *)
Theorem disableWhiteoutOwned_only_keeps (k : KubernetesTransformPlugin)
    (obj : Unstructured) :
  (getWhiteOuts (withDisableWhiteoutOwned k true) obj = true ->
   getWhiteOuts (withDisableWhiteoutOwned k false) obj = true)
  /\ (GetOwnerReferences obj = [] ->
      getWhiteOuts (withDisableWhiteoutOwned k true) obj
      = getWhiteOuts (withDisableWhiteoutOwned k false) obj).
Proof.
  unfold getWhiteOuts. rewrite !getWhiteOutsWith_split.
  unfold ownedWhiteout. cbn [withDisableWhiteoutOwned DisableWhiteoutOwned IncludeOnly
                             ExtraWhiteouts negb andb].
  split.
  - rewrite orb_false_r. intros ->. reflexivity.
  - intros ->. cbn. rewrite andb_false_r. reflexivity.
Qed.

End Whiteouts.

Lemma includeOnly_overrides_exclusions_witness :
  @getWhiteOutsWith Reference.library [serviceGK]
     (withExtraWhiteouts Examples.onlyServices [serviceGK]) Examples.nodePortService
  = @getWhiteOutsWith Reference.library gksToWhiteout Examples.onlyServices
      Examples.nodePortService.
Proof.
  apply (@includeOnly_overrides_exclusions Reference.library). discriminate.
Defined.

Lemma disableWhiteoutOwned_only_keeps_witness :
  @getWhiteOuts Reference.library
     (withDisableWhiteoutOwned Examples.onlyServices false) Examples.ownedPod = true.
Proof.
  apply (proj1 (@disableWhiteoutOwned_only_keeps Reference.library Examples.onlyServices
                  Examples.ownedPod)).
  reflexivity.
Defined.

(** ** The optional fields *)

Lemma nonempty_length (s : string) :
  (0 <? String.length s)%nat = negb (String.eqb s EmptyString).
Proof. destruct s; reflexivity. Qed.

Lemma fold_append_map {A B} (f : A -> B) (l : list A) : forall acc,
  fold_left (fun acc x => acc ++ [f x]) l acc = acc ++ map f l.
Proof.
  induction l as [|x l IH]; intros acc; cbn.
  - rewrite app_nil_r. reflexivity.
  - rewrite IH, <- app_assoc. reflexivity.
Qed.

Section OptionalFields.
Context `{Library}.

(** X5: [setOptionalFields] is idempotent for a given map of extras, and
    extras in which none of the six flags has a non-empty value (absent flags,
    empty values, unknown keys) leave the plugin as configured. *)
Theorem setOptionalFields_idempotent (k : KubernetesTransformPlugin)
    (extras : gmap string string) :
  setOptionalFields (setOptionalFields k extras) extras = setOptionalFields k extras
  /\ ((forall flag, In flag knownFlags -> extra extras flag = EmptyString) ->
      setOptionalFields k extras = k).
Proof.
  split.
  - unfold setOptionalFields. cbn.
    f_equal; match goal with |- context [if ?c then _ else _] => destruct c end;
      reflexivity.
  - intros Hnone. unfold setOptionalFields.
    rewrite !Hnone by (cbn; tauto). cbn. destruct k; reflexivity.
Qed.

(** X6: a non-empty value of the flag disable-whiteout-owned replaces the
    configured setting: by true for the six spellings [strconv.ParseBool]
    reads as true, by false for every other value, the values that do not
    parse included; an empty or absent value keeps the configured setting. *)
Theorem disableWhiteoutOwned_flag (k : KubernetesTransformPlugin)
    (extras : gmap string string) :
  DisableWhiteoutOwned (setOptionalFields k extras)
  = if String.eqb (extra extras flagDisableWhiteoutOwned) EmptyString
    then DisableWhiteoutOwned k
    else existsb (String.eqb (extra extras flagDisableWhiteoutOwned)) trueLiterals.
Proof.
  unfold setOptionalFields. cbn [DisableWhiteoutOwned].
  rewrite nonempty_length.
  destruct (String.eqb (extra extras flagDisableWhiteoutOwned) EmptyString);
    [reflexivity|]. cbn [negb].
  unfold ParseBool. fold trueLiterals.
  destruct (existsb (String.eqb (extra extras flagDisableWhiteoutOwned)) trueLiterals);
    [reflexivity|].
  destruct (existsb _ _); reflexivity.
Qed.

(** X7: the list flags replace and never extend: a non-empty value of
    include-only (extra-whiteouts) makes the list exactly the group kinds
    parsed from it, one per item and in order, whatever was configured. *)
Theorem list_flags_replace (k : KubernetesTransformPlugin) (extras : gmap string string) :
  (extra extras flagIncludeOnly <> EmptyString ->
   IncludeOnly (setOptionalFields k extras)
   = map ParseGroupKind (ParseOptionalFieldSliceVal (extra extras flagIncludeOnly)))
  /\ (extra extras flagExtraWhiteouts <> EmptyString ->
      ExtraWhiteouts (setOptionalFields k extras)
      = map ParseGroupKind (ParseOptionalFieldSliceVal (extra extras flagExtraWhiteouts))).
Proof.
  unfold setOptionalFields. cbn [IncludeOnly ExtraWhiteouts].
  rewrite !nonempty_length. unfold parseGroupKindSlice. rewrite !fold_append_map.
  split; intros Hne; apply String.eqb_neq in Hne; rewrite Hne; reflexivity.
Qed.

End OptionalFields.

Lemma setOptionalFields_idempotent_witness :
  @setOptionalFields Reference.library Examples.onlyPods {[ "verbose" := "yes" ]}
  = Examples.onlyPods.
Proof.
  apply (proj2 (@setOptionalFields_idempotent Reference.library Examples.onlyPods
                  {[ "verbose" := "yes" ]})).
  intros flag Hin. cbn in Hin.
  repeat (destruct Hin as [<- | Hin]; [reflexivity|]). destruct Hin.
Defined.

Lemma list_flags_replace_witness :
  IncludeOnly (@setOptionalFields Reference.library Examples.onlyPods
                 {[ flagIncludeOnly := "Deployment.apps,Service" ]})
  = [ {| Group := "apps"; Kind := "Deployment" |}; serviceGK ].
Proof.
  rewrite (proj1 (@list_flags_replace Reference.library Examples.onlyPods
                    {[ flagIncludeOnly := "Deployment.apps,Service" ]})).
  - vm_compute. reflexivity.
  - vm_compute. discriminate.
Defined.

(** ** The node-port reconciler, with a snapshot *)

Lemma updateNodePortString_inj (i j : nat) :
  updateNodePortString i = updateNodePortString j -> i = j.
Proof.
  intros Heq.
  assert (Ht : pointer_tokens (updateNodePortString i)
               = pointer_tokens (updateNodePortString j)) by (rewrite Heq; reflexivity).
  rewrite !pointer_tokens_nodePort in Ht.
  assert (Hi : itoa i = itoa j) by congruence.
  assert (Hp : parse_index (itoa i) = parse_index (itoa j)) by (rewrite Hi; reflexivity).
  rewrite !parse_index_itoa in Hp. congruence.
Qed.

Lemma removeNodePort_inj (i j : nat) : removeNodePort i = removeNodePort j -> i = j.
Proof. intros Heq. apply updateNodePortString_inj, remove_op_inj, Heq. Qed.

Lemma removedFrom_In (explicit : gset string) (unnamed : gset Z) (ports : list Value) :
  forall i j,
    In j (removedFrom explicit unnamed ports i) <->
    exists port, (i <= j)%nat /\ ports !! (j - i)%nat = Some port
                 /\ removalDecision explicit unnamed port = true.
Proof.
  induction ports as [|q rest IH]; intros i j; cbn [removedFrom].
  - split; [intros [] | intros (port & _ & Hl & _); discriminate].
  - assert (Hrest : In j (removedFrom explicit unnamed rest (S i)) <->
                    exists port, (i < j)%nat /\ (q :: rest) !! (j - i)%nat = Some port
                                 /\ removalDecision explicit unnamed port = true).
    { rewrite IH. split; intros (port & Hle & Hl & Hd); exists port.
      - repeat split; [lia | | exact Hd].
        replace (j - i)%nat with (S (j - S i)) by lia. exact Hl.
      - repeat split; [lia | | exact Hd].
        replace (j - i)%nat with (S (j - S i)) in Hl by lia. exact Hl. }
    destruct (removalDecision explicit unnamed q) eqn:Eq.
    + cbn [In]. rewrite Hrest. split.
      * intros [<- | (port & Hlt & Hl & Hd)].
        -- exists q. rewrite Nat.sub_diag. repeat split; [lia | exact Eq].
        -- exists port. repeat split; [lia | exact Hl | exact Hd].
      * intros (port & Hle & Hl & Hd).
        destruct (Nat.eq_dec i j) as [-> | Hne]; [left; reflexivity|].
        right. exists port. repeat split; [lia | exact Hl | exact Hd].
    + rewrite Hrest. split; intros (port & Hle & Hl & Hd); exists port.
      * repeat split; [lia | exact Hl | exact Hd].
      * destruct (Nat.eq_dec i j) as [-> | Hne].
        -- rewrite Nat.sub_diag in Hl. cbn in Hl. congruence.
        -- repeat split; [lia | exact Hl | exact Hd].
Qed.

Lemma appliedPorts_sets (snapshot : list Value) :
  snapshotWellFormed snapshot ->
  forall explicit0 unnamed0,
  exists explicit unnamed,
    appliedPorts snapshot explicit0 unnamed0 = Return (explicit, unnamed, None)
    /\ (forall name, name ∈ explicit <-> name ∈ explicit0 \/ snapshotNamed snapshot name)
    /\ (forall n, n ∈ unnamed <-> n ∈ unnamed0 \/ snapshotUnnamed snapshot n).
Proof.
  induction snapshot as [|q rest IH]; intros Hwf explicit0 unnamed0.
  - exists explicit0, unnamed0. split; [reflexivity|].
    split; intros x; (split; [tauto|]);
      (intros [Hx | Hx]; [exact Hx|]).
    + destruct Hx as (p & v & n & [] & _).
    + destruct Hx as (p & v & [] & _).
  - assert (Hwf' : snapshotWellFormed rest).
    { intros p Hp. apply Hwf. right. exact Hp. }
    assert (Hskip : forall explicit unnamed,
      (forall name, snapshotNamed (q :: rest) name <-> snapshotNamed rest name) ->
      (forall n, snapshotUnnamed (q :: rest) n <-> snapshotUnnamed rest n) ->
      appliedPorts rest explicit0 unnamed0 = Return (explicit, unnamed, None) ->
      (forall name, name ∈ explicit <-> name ∈ explicit0 \/ snapshotNamed rest name) ->
      (forall n, n ∈ unnamed <-> n ∈ unnamed0 \/ snapshotUnnamed rest n) ->
      (forall name, name ∈ explicit <-> name ∈ explicit0 \/ snapshotNamed (q :: rest) name)
      /\ (forall n, n ∈ unnamed <-> n ∈ unnamed0 \/ snapshotUnnamed (q :: rest) n)).
    { intros explicit unnamed Hn Hu _ He Hun. split; intros x.
      - rewrite He, Hn. reflexivity.
      - rewrite Hun, Hu. reflexivity. }
    assert (Hother : (forall p, q <> VMap p) \/ exists p, q = VMap p).
    { destruct q; try (left; discriminate). right. eexists. reflexivity. }
    destruct Hother as [Hnot | [p ->]].
    { destruct (IH Hwf' explicit0 unnamed0) as (explicit & unnamed & Hrun & He & Hun).
      exists explicit, unnamed.
      split; [destruct q; try exact Hrun; destruct (Hnot m); reflexivity|].
      apply Hskip; try assumption.
      - intros name. split.
        + intros (p & v & n & [Heq | Hin] & Hrest); [destruct (Hnot p); exact Heq|].
          exists p, v, n. split; [exact Hin | exact Hrest].
        + intros (p & v & n & Hin & Hrest). exists p, v, n. split; [right; exact Hin | exact Hrest].
      - intros n. split.
        + intros (p & v & [Heq | Hin] & Hrest); [destruct (Hnot p); exact Heq|].
          exists p, v. split; [exact Hin | exact Hrest].
        + intros (p & v & Hin & Hrest). exists p, v. split; [right; exact Hin | exact Hrest]. }
    destruct (Hwf p (or_introl eq_refl)) as [Hparse Hname].
    cbn [appliedPorts]. unfold NestedFieldNoCopy. cbn [nestedField].
    destruct (p !! "nodePort") as [v|] eqn:Ev.
    2:{ destruct (IH Hwf' explicit0 unnamed0) as (explicit & unnamed & Hrun & He & Hun).
        exists explicit, unnamed. split; [exact Hrun|].
        apply Hskip; try assumption.
        - intros name. split.
          + intros (p' & v & n & [Heq | Hin] & Hv & Hrest);
              [injection Heq as <-; congruence|].
            exists p', v, n. split; [exact Hin | split; [exact Hv | exact Hrest]].
          + intros (p' & v & n & Hin & Hrest). exists p', v, n.
            split; [right; exact Hin | exact Hrest].
        - intros n. split.
          + intros (p' & v & [Heq | Hin] & Hv & Hrest);
              [injection Heq as <-; congruence|].
            exists p', v. split; [exact Hin | split; [exact Hv | exact Hrest]].
          + intros (p' & v & Hin & Hrest). exists p', v.
            split; [right; exact Hin | exact Hrest]. }
    cbn [nestedField].
    pose proof (Hparse v eq_refl) as Herr.
    destruct (getNodePortInt v) as [n err] eqn:En. cbn in Herr. subst err.
    destruct (0 <? n) eqn:Epos.
    2:{ apply Z.ltb_ge in Epos.
        destruct (IH Hwf' explicit0 unnamed0) as (explicit & unnamed & Hrun & He & Hun).
        exists explicit, unnamed. split; [exact Hrun|].
        apply Hskip; try assumption.
        - intros name. split.
          + intros (p' & v' & n' & [Heq | Hin] & Hv & Hint & Hpos & Hrest).
            * injection Heq as <-. rewrite Ev in Hv. injection Hv as <-.
              rewrite En in Hint. injection Hint as <-. lia.
            * exists p', v', n'. repeat split; assumption.
          + intros (p' & v' & n' & Hin & Hrest). exists p', v', n'.
            split; [right; exact Hin | exact Hrest].
        - intros n0. split.
          + intros (p' & v' & [Heq | Hin] & Hv & Hint & Hpos & Hrest).
            * injection Heq as <-. rewrite Ev in Hv. injection Hv as <-.
              rewrite En in Hint. injection Hint as <-. lia.
            * exists p', v'. repeat split; assumption.
          + intros (p' & v' & Hin & Hrest). exists p', v'.
            split; [right; exact Hin | exact Hrest]. }
    apply Z.ltb_lt in Epos.
    destruct (p !! "name") as [name|] eqn:Ename.
    + destruct (Hname name eq_refl) as [s ->].
      destruct (IH Hwf' ({[s]} ∪ explicit0) unnamed0)
        as (explicit & unnamed & Hrun & He & Hun).
      exists explicit, unnamed. split; [exact Hrun|]. split.
      * intros x. rewrite He, elem_of_union, elem_of_singleton. split.
        -- intros [[-> | Hx] | (p' & v' & n' & Hin & Hrest)].
           ++ right. exists p, v, n. repeat split; try assumption. left. reflexivity.
           ++ left. exact Hx.
           ++ right. exists p', v', n'. split; [right; exact Hin | exact Hrest].
        -- intros [Hx | (p' & v' & n' & [Heq | Hin] & Hv & Hint & Hpos & Hnm)].
           ++ left. right. exact Hx.
           ++ injection Heq as <-. rewrite Ename in Hnm. injection Hnm as <-.
              left. left. reflexivity.
           ++ right. exists p', v', n'. repeat split; assumption.
      * intros x. rewrite Hun. split.
        -- intros [Hx | (p' & v' & Hin & Hrest)]; [left; exact Hx|].
           right. exists p', v'. split; [right; exact Hin | exact Hrest].
        -- intros [Hx | (p' & v' & [Heq | Hin] & Hv & Hint & Hpos & Hnm)].
           ++ left. exact Hx.
           ++ injection Heq as <-. congruence.
           ++ right. exists p', v'. repeat split; assumption.
    + destruct (IH Hwf' explicit0 ({[n]} ∪ unnamed0))
        as (explicit & unnamed & Hrun & He & Hun).
      exists explicit, unnamed. split; [exact Hrun|]. split.
      * intros x. rewrite He. split.
        -- intros [Hx | (p' & v' & n' & Hin & Hrest)]; [left; exact Hx|].
           right. exists p', v', n'. split; [right; exact Hin | exact Hrest].
        -- intros [Hx | (p' & v' & n' & [Heq | Hin] & Hv & Hint & Hpos & Hnm)].
           ++ left. exact Hx.
           ++ injection Heq as <-. congruence.
           ++ right. exists p', v', n'. repeat split; assumption.
      * intros x. rewrite Hun, elem_of_union, elem_of_singleton. split.
        -- intros [[-> | Hx] | (p' & v' & Hin & Hrest)].
           ++ right. exists p, v. repeat split; try assumption. left. reflexivity.
           ++ left. exact Hx.
           ++ right. exists p', v'. split; [right; exact Hin | exact Hrest].
        -- intros [Hx | (p' & v' & [Heq | Hin] & Hv & Hint & Hpos & Hnm)].
           ++ left. right. exact Hx.
           ++ injection Heq as <-. rewrite Ev in Hv. injection Hv as <-.
              rewrite En in Hint. injection Hint as <-. left. left. reflexivity.
           ++ right. exists p', v'. repeat split; assumption.
Qed.

Section Reconciler.
Context `{Library} `{!DecodesRemove}.

Lemma livePorts_exact (explicit : gset string) (unnamed : gset Z) (ports : list Value) :
  forall i patch,
  nodePortsParse ports ->
  livePorts ports i explicit unnamed patch
  = (patch ++ map removeNodePort (removedFrom explicit unnamed ports i), None).
Proof.
  induction ports as [|q rest IH]; intros i patch Hparse;
    cbn [livePorts removedFrom].
  - cbn. rewrite app_nil_r. reflexivity.
  - assert (Hrest : nodePortsParse rest).
    { intros port v Hin Hv. apply (Hparse port v); [right; exact Hin | exact Hv]. }
    destruct q; cbn [removalDecision]; try (apply IH; exact Hrest).
    destruct (m !! "nodePort") as [v|] eqn:Ev; [|apply IH; exact Hrest].
    pose proof (Hparse m v (or_introl eq_refl) Ev) as Herr.
    destruct (getNodePortInt v) as [n err]. cbn in Herr. subst err. cbn [fst].
    cbv zeta.
    destruct (n =? 0); cbn [negb andb]; [apply IH; exact Hrest|].
    match goal with |- context [if ?c then negb ?a else negb ?b] =>
      destruct (if c then negb a else negb b) end; [|apply IH; exact Hrest].
    rewrite DecodePatch_opRemove by apply plain_updateNodePortString.
    rewrite IH by exact Hrest. cbn [map]. rewrite <- app_assoc. reflexivity.
Qed.

(** X8: which node ports survive a snapshot.  For a service whose
    last-applied-configuration annotation decodes to a document with a
    well-formed [spec.ports], and whose live node ports all parse, the
    reconciler succeeds, and a live port with a node port other than 0 is
    removed exactly when the snapshot does not make it explicit: a port with
    a non-empty string name when the snapshot has no port of that name with a
    positive node port (the node port values are not compared), any other
    port when the snapshot has no unnamed port with that positive value. *)
Theorem getNodePortPatch_with_snapshot (u : Unstructured) (specMap : gmap string Value)
    (serviceType : Value) (ports : list Value) (text : string)
    (applied : gmap string Value) (snapshot : list Value) :
  specMapOf u = Some specMap ->
  specMap !! "type" = Some serviceType ->
  serviceType <> VString "ExternalName" ->
  specMap !! "ports" = Some (VSlice ports) ->
  GetAnnotations u !! lastAppliedKey = Some text ->
  json_Unmarshal text = (applied, None) ->
  NestedSlice applied ["spec"; "ports"] = Return (snapshot, true, None) ->
  snapshotWellFormed snapshot ->
  nodePortsParse ports ->
  exists patch,
    getNodePortPatch u = Return (patch, None)
    /\ forall (i : nat) port nodePort n,
         ports !! i = Some (VMap port) -> port !! "nodePort" = Some nodePort ->
         getNodePortInt nodePort = (n, None) -> n <> 0 ->
         (In (removeNodePort i) patch <->
          if (0 <? String.length (liveName port))%nat
          then ~ snapshotNamed snapshot (liveName port)
          else ~ snapshotUnnamed snapshot n).
Proof.
  intros Hs Ht Hne Hp Ha Hj Hn Hwf Hparse.
  destruct (appliedPorts_sets snapshot Hwf ∅ ∅) as (explicit & unnamed & Hrun & He & Hun).
  exists (map removeNodePort (removedFrom explicit unnamed ports 0)). split.
  - apply specMapOf_Some in Hs.
    unfold getNodePortPatch, UnstructuredContent. rewrite Hs, Ht.
    apply iface_neq_string_spec, negb_true_iff in Hne. rewrite Hne, Hp, Ha, Hj, Hn.
    cbn. rewrite Hrun. cbn. rewrite livePorts_exact by assumption. reflexivity.
  - intros i port nodePort n Hi Hv Hint Hnz.
    assert (Hdec : In (removeNodePort i)
                     (map removeNodePort (removedFrom explicit unnamed ports 0))
                   <-> removalDecision explicit unnamed (VMap port) = true).
    { rewrite in_map_iff. split.
      - intros (j & Heq & Hin). apply removeNodePort_inj in Heq. subst j.
        apply removedFrom_In in Hin as (q & _ & Hq & Hd).
        rewrite Nat.sub_0_r, Hi in Hq. injection Hq as <-. exact Hd.
      - intros Hd. exists i. split; [reflexivity|].
        apply removedFrom_In. exists (VMap port).
        rewrite Nat.sub_0_r. repeat split; [lia | exact Hi | exact Hd]. }
    rewrite Hdec. unfold removalDecision. rewrite Hv, Hint. cbn [fst].
    apply Z.eqb_neq in Hnz. rewrite Hnz. cbn [negb andb]. fold (liveName port).
    destruct (0 <? String.length (liveName port))%nat.
    + rewrite negb_true_iff, bool_decide_eq_false, He.
      split; intros Hx; [intros Hs'; apply Hx; right; exact Hs'|].
      intros [Hin | Hs']; [revert Hin; apply not_elem_of_empty | exact (Hx Hs')].
    + rewrite negb_true_iff, bool_decide_eq_false, Hun.
      split; intros Hx; [intros Hs'; apply Hx; right; exact Hs'|].
      intros [Hin | Hs']; [revert Hin; apply not_elem_of_empty | exact (Hx Hs')].
Qed.

(** X9: a snapshot only ever spares node ports.  Whatever names and values
    are explicit, the loop over the live ports fails on the same inputs as
    with nothing explicit, and the removes it has collected are a
    subsequence of those it collects with nothing explicit. *)
Theorem snapshot_only_spares (explicit : gset string) (unnamed : gset Z)
    (ports : list Value) :
  sublist (livePorts ports 0 explicit unnamed []).1 (livePorts ports 0 ∅ ∅ []).1
  /\ (livePorts ports 0 explicit unnamed []).2 = (livePorts ports 0 ∅ ∅ []).2.
Proof.
  assert (Hgen : forall i patch patch',
            sublist patch patch' ->
            sublist (livePorts ports i explicit unnamed patch).1
                    (livePorts ports i ∅ ∅ patch').1
            /\ (livePorts ports i explicit unnamed patch).2
               = (livePorts ports i ∅ ∅ patch').2).
  { induction ports as [|q rest IH]; intros i patch patch' Hsub; cbn [livePorts].
    - split; [exact Hsub | reflexivity].
    - destruct q; try (apply IH; exact Hsub).
      destruct (m !! "nodePort") as [v|]; [|apply IH; exact Hsub].
      destruct (getNodePortInt v) as [n [e|]]; [split; [exact Hsub | reflexivity]|].
      destruct (n =? 0); [apply IH; exact Hsub|].
      cbv zeta.
      repeat match goal with
             | |- context [@bool_decide (?x ∈ ∅) ?d] =>
                 rewrite (@bool_decide_eq_false_2 (x ∈ ∅) d) by apply not_elem_of_empty
             end.
      replace (if (0 <? String.length match m !! "name" with
                                      | Some (VString s) => s
                                      | _ => ""
                                      end)%nat
               then negb false else negb false) with true
        by (destruct (0 <? _)%nat; reflexivity).
      rewrite DecodePatch_opRemove by apply plain_updateNodePortString.
      match goal with |- context [if ?c then negb ?a else negb ?b] =>
        destruct (if c then negb a else negb b) end.
      + apply IH. apply sublist_app; [exact Hsub | reflexivity].
      + apply IH. apply sublist_inserts_r. exact Hsub. }
  apply Hgen. reflexivity.
Qed.

(** X10: for an "ExternalName" service, and for a service whose [spec.ports]
    is missing or not a list, the reconciler returns no operation and no
    error without reading the annotation: a last applied configuration that
    does not parse is not an error for them. *)
Theorem getNodePortPatch_skips (u : Unstructured) (specMap : gmap string Value) :
  specMapOf u = Some specMap ->
  specMap !! "type" = Some (VString "ExternalName")
  \/ specMap !! "ports" = None
  \/ (exists v, specMap !! "ports" = Some v /\ forall l, v <> VSlice l) ->
  getNodePortPatch u = Return ([], None).
Proof.
  intros Hs Hcase. apply specMapOf_Some in Hs.
  unfold getNodePortPatch, UnstructuredContent. rewrite Hs.
  destruct Hcase as [Ht | [Hp | (v & Hp & Hv)]].
  - rewrite Ht. reflexivity.
  - destruct (specMap !! "type") as [t|]; [|reflexivity].
    destruct (iface_eq_string t "ExternalName"); [reflexivity|].
    rewrite Hp. reflexivity.
  - destruct (specMap !! "type") as [t|]; [|reflexivity].
    destruct (iface_eq_string t "ExternalName"); [reflexivity|].
    rewrite Hp. destruct v; try reflexivity. destruct (Hv l). reflexivity.
Qed.

(** X11: for a service with a type other than "ExternalName" and a list of
    ports, a last-applied-configuration annotation that does not decode is an
    error of the reconciler, and the whole service sanitizer returns that
    error and no operation. *)
Theorem getNodePortPatch_undecodable_snapshot (u : Unstructured)
    (specMap : gmap string Value) (serviceType : Value) (ports : list Value)
    (text : string) (applied : gmap string Value) (err : error) :
  specMapOf u = Some specMap ->
  specMap !! "type" = Some serviceType ->
  serviceType <> VString "ExternalName" ->
  specMap !! "ports" = Some (VSlice ports) ->
  GetAnnotations u !! lastAppliedKey = Some text ->
  json_Unmarshal text = (applied, Some err) ->
  getNodePortPatch u = Return ([], Some err)
  /\ removeServiceFields u = Return ([], Some err).
Proof.
  intros Hs Ht Hne Hp Ha Hj.
  assert (Hg : getNodePortPatch u = Return ([], Some err)).
  { apply specMapOf_Some in Hs.
    unfold getNodePortPatch, UnstructuredContent. rewrite Hs, Ht.
    apply iface_neq_string_spec, negb_true_iff in Hne. rewrite Hne, Hp, Ha, Hj.
    reflexivity. }
  split; [exact Hg|]. rewrite removeServiceFields_law, Hg. reflexivity.
Qed.

End Reconciler.

Lemma snapshot_only_spares_witness :
  sublist (@livePorts Reference.library MoreExamples.httpLivePorts 0 {["http"]} ∅ []).1
    (@livePorts Reference.library MoreExamples.httpLivePorts 0 ∅ ∅ []).1
  /\ (@livePorts Reference.library MoreExamples.httpLivePorts 0 {["http"]} ∅ []).2
     = (@livePorts Reference.library MoreExamples.httpLivePorts 0 ∅ ∅ []).2.
Proof.
  exact (@snapshot_only_spares Reference.library reference_decodes_remove
           {["http"]} ∅ MoreExamples.httpLivePorts).
Defined.

Lemma getNodePortPatch_with_snapshot_witness :
  exists patch,
    @getNodePortPatch Reference.library MoreExamples.snapshotService = Return (patch, None)
    /\ (In (removeNodePort 1) patch <->
        ~ snapshotUnnamed MoreExamples.httpSnapshotPorts 31000).
Proof.
  destruct (@getNodePortPatch_with_snapshot Reference.library reference_decodes_remove
              MoreExamples.snapshotService
              (MoreExamples.httpSpec MoreExamples.httpSnapshotText).2
              (VString "NodePort") MoreExamples.httpLivePorts
              MoreExamples.httpSnapshotText
              {[ "spec" := VMap {[ "ports" := VSlice MoreExamples.httpSnapshotPorts ]} ]}
              MoreExamples.httpSnapshotPorts)
    as (patch & Hrun & Hrule).
  - reflexivity.
  - reflexivity.
  - discriminate.
  - reflexivity.
  - reflexivity.
  - vm_compute. reflexivity.
  - reflexivity.
  - intros p [Heq | []]. injection Heq as <-. split.
    + intros nodePort Hn. vm_compute in Hn. injection Hn as <-. reflexivity.
    + intros name Hn. vm_compute in Hn. injection Hn as <-. eexists. reflexivity.
  - intros port nodePort [Heq | [Heq | []]] Hn; injection Heq as <-;
      vm_compute in Hn; injection Hn as <-; reflexivity.
  - exists patch. split; [exact Hrun|].
    exact (Hrule 1%nat {[ "nodePort" := VInt64 31000 ]} (VInt64 31000) 31000
             eq_refl eq_refl eq_refl ltac:(discriminate)).
Defined.

Lemma getNodePortPatch_skips_witness :
  @getNodePortPatch Reference.library MoreExamples.externalNameService = Return ([], None).
Proof.
  apply (@getNodePortPatch_skips Reference.library MoreExamples.externalNameService
           {[ "type" := VString "ExternalName";
              "externalName" := VString "db.example.com" ]}).
  - reflexivity.
  - left. reflexivity.
Defined.

Lemma getNodePortPatch_undecodable_snapshot_witness :
  @removeServiceFields Reference.library MoreExamples.garbledService
  = Return ([], Some Reference.jsonError).
Proof.
  apply (@getNodePortPatch_undecodable_snapshot Reference.library reference_decodes_remove
           MoreExamples.garbledService (MoreExamples.httpSpec "{").2
           (VString "NodePort") MoreExamples.httpLivePorts "{" ∅ Reference.jsonError).
  - reflexivity.
  - reflexivity.
  - discriminate.
  - reflexivity.
  - reflexivity.
  - vm_compute. reflexivity.
Defined.

(** ** Panics *)

Lemma appliedPorts_panic (ports : list Value) : forall explicit unnamed,
  appliedPorts ports explicit unnamed = Panic ->
  exists p nodePort n name,
    In (VMap p) ports /\ p !! "nodePort" = Some nodePort
    /\ getNodePortInt nodePort = (n, None) /\ 0 < n
    /\ p !! "name" = Some name /\ forall s, name <> VString s.
Proof.
  induction ports as [|q rest IH]; intros explicit unnamed Hp; [discriminate|].
  assert (Hnext : forall e u, appliedPorts rest e u = Panic ->
            exists p nodePort n name,
              In (VMap p) (q :: rest) /\ p !! "nodePort" = Some nodePort
              /\ getNodePortInt nodePort = (n, None) /\ 0 < n
              /\ p !! "name" = Some name /\ forall s, name <> VString s).
  { intros e u Hr. destruct (IH e u Hr) as (p & v & n & name & Hin & Hrest).
    exists p, v, n, name. split; [right; exact Hin | exact Hrest]. }
  cbn [appliedPorts] in Hp.
  destruct q; try (eapply Hnext; exact Hp).
  unfold NestedFieldNoCopy in Hp. cbn [nestedField] in Hp.
  destruct (m !! "nodePort") as [v|] eqn:Ev; [|eapply Hnext; exact Hp].
  cbn [nestedField] in Hp.
  destruct (getNodePortInt v) as [n [e|]] eqn:En; [discriminate|].
  destruct (0 <? n) eqn:Epos; [|eapply Hnext; exact Hp].
  destruct (m !! "name") as [name|] eqn:Ename; [|eapply Hnext; exact Hp].
  destruct name as [| | | | | |s| |];
    try (exists m, v, n; eexists;
         split; [left; reflexivity|]; split; [exact Ev|]; split; [exact En|];
         split; [apply Z.ltb_lt, Epos|]; split; [exact Ename | discriminate]).
  eapply Hnext; exact Hp.
Qed.

Section Panics.
Context `{Library}.

Lemma getNodePortPatch_panic_annotation (u : Unstructured) :
  getNodePortPatch u = Panic -> GetAnnotations u !! lastAppliedKey <> None.
Proof.
  unfold getNodePortPatch, UnstructuredContent. intros Hp.
  destruct (Object u !! "spec") as [[]|]; try discriminate.
  destruct (m !! "type") as [t|]; [|discriminate].
  destruct (iface_eq_string t "ExternalName"); [discriminate|].
  destruct (m !! "ports") as [[]|]; try discriminate.
  destruct (GetAnnotations u !! lastAppliedKey) as [text|]; [|discriminate].
  discriminate.
Qed.

(** X12: the only panics of the node-port reconciler come from the last
    applied configuration: the annotation is present and decodes, and either
    the decoded document holds a value that [DeepCopyJSONValue] does not copy
    (none that a JSON decoder produces), or one of its ports has a positive
    node port and a name that is not a string. *)
Theorem getNodePortPatch_panic_cause (u : Unstructured) :
  getNodePortPatch u = Panic ->
  exists text applied,
    GetAnnotations u !! lastAppliedKey = Some text
    /\ json_Unmarshal text = (applied, None)
    /\ (NestedSlice applied ["spec"; "ports"] = Panic
        \/ exists snapshot p nodePort n name,
             NestedSlice applied ["spec"; "ports"] = Return (snapshot, true, None)
             /\ In (VMap p) snapshot /\ p !! "nodePort" = Some nodePort
             /\ getNodePortInt nodePort = (n, None) /\ 0 < n
             /\ p !! "name" = Some name /\ forall s, name <> VString s).
Proof.
  unfold getNodePortPatch, UnstructuredContent. intros Hp.
  destruct (Object u !! "spec") as [[]|]; try discriminate.
  destruct (m !! "type") as [t|]; [|discriminate].
  destruct (iface_eq_string t "ExternalName"); [discriminate|].
  destruct (m !! "ports") as [[]|]; try discriminate.
  destruct (GetAnnotations u !! lastAppliedKey) as [text|]; [|discriminate].
  destruct (json_Unmarshal text) as [applied [e|]] eqn:Ej; [discriminate|].
  exists text, applied. split; [reflexivity|]. split; [exact Ej|].
  destruct (NestedSlice applied ["spec"; "ports"]) as [[[snapshot found] [e|]]|];
    [discriminate | | left; reflexivity].
  cbn in Hp. destruct found; [|discriminate].
  destruct (appliedPorts snapshot ∅ ∅) as [[[explicit unnamed] [e|]]|] eqn:Ea;
    try discriminate.
  right. destruct (appliedPorts_panic _ _ _ Ea) as (p & v & n & name & Hrest).
  exists snapshot, p, v, n, name. split; [reflexivity | exact Hrest].
Qed.

Lemma removeServiceFields_panic (obj : Unstructured) :
  removeServiceFields obj = Panic -> getNodePortPatch obj = Panic.
Proof.
  unfold removeServiceFields. intros Hp.
  destruct (removeWhen _ updateExternalIPs _) as [p1 [e|]]; [discriminate|].
  destruct (removeWhen _ updateClusterIP _) as [p2 [e|]]; [discriminate|].
  destruct (removeWhen _ updateClusterIPs _) as [p3 [e|]]; [discriminate|].
  destruct (getNodePortPatch obj) as [[patch [e|]]|]; [discriminate.. | reflexivity].
Qed.

(** X13: [Run] returns a response and an error value, and does not panic,
    for every resource that is not a Service and for every resource without
    last-applied-configuration annotation, whatever the configuration and the
    extras. *)
Theorem Run_returns (k : KubernetesTransformPlugin) (request : PluginRequest) :
  GroupKindOf (Resource request) <> serviceGK
  \/ GetAnnotations (Resource request) !! lastAppliedKey = None ->
  exists k' resp err, Run k request = Return (k', (resp, err)).
Proof.
  intros Hcase.
  destruct (getWhiteOuts (setOptionalFields k (Extras request)) (Resource request)) eqn:Ew.
  { rewrite (Run_whiteout _ _ Ew). eauto. }
  rewrite (Run_not_whiteout _ _ Ew).
  destruct (getKubernetesTransforms _ _) as [[patches err]|] eqn:Eg; [eauto|].
  exfalso. rewrite getKubernetesTransforms_runAll in Eg.
  unfold generators in Eg. cbn [runAll] in Eg.
  destruct (stripFields _) as [p1 [e|]]; [discriminate|].
  destruct (if (0 <? size _)%nat then _ else _) as [p2 [e|]]; [discriminate|].
  destruct (if (0 <? length _)%nat then _ else _) as [p3 [e|]]; [discriminate|].
  destruct (if GroupKind_eqb podGK _ then _ else _) as [p4 [e|]]; [discriminate|].
  destruct (registryPatches _ _) as [p5 [e|]]; [discriminate|].
  destruct (GroupKind_eqb (GroupKindOf (Resource request)) serviceGK) eqn:Es;
    [|discriminate].
  destruct (removeServiceFields (Resource request)) as [[p6 [e|]]|] eqn:Er;
    try discriminate.
  apply removeServiceFields_panic, getNodePortPatch_panic_annotation in Er.
  destruct Hcase as [Hns | Hna]; [|congruence].
  apply Hns, GroupKind_eqb_eq, Es.
Qed.

(** X14: whenever the service sanitizer returns without error, its operations
    are, in this order, the remove of [spec.externalIPs], of [spec.clusterIP]
    and of [spec.clusterIPs], each only when its test holds, followed by the
    operations of the node-port reconciler; the remove of [spec.externalIPs]
    is there exactly when [spec.type] is the string "LoadBalancer", whether
    or not the service has external IPs. *)
Theorem removeServiceFields_order `{!DecodesRemove} (u : Unstructured) (patches : Patch) :
  removeServiceFields u = Return (patches, None) ->
  (exists nodePorts,
     getNodePortPatch u = Return (nodePorts, None)
     /\ patches
        = (if isLoadBalancerService u then [remove_op updateExternalIPs] else [])
          ++ (if shouldRemoveServiceClusterIP u then [remove_op updateClusterIP] else [])
          ++ (if shouldRemoveServiceClusterIPs u then [remove_op updateClusterIPs] else [])
          ++ nodePorts)
  /\ (isLoadBalancerService u = true <-> specType u = Some (VString "LoadBalancer"))
  /\ (In (remove_op updateExternalIPs) patches <->
      specType u = Some (VString "LoadBalancer")).
Proof.
  intros Hr.
  assert (Hlb : isLoadBalancerService u = true <-> specType u = Some (VString "LoadBalancer")).
  { unfold isLoadBalancerService, specType, specMapOf, UnstructuredContent.
    destruct (Object u !! "spec") as [[]|]; try (split; discriminate).
    destruct (m !! "type") as [t|]; [|split; discriminate].
    rewrite iface_eq_string_spec. split; congruence. }
  rewrite removeServiceFields_law in Hr.
  destruct (getNodePortPatch u) as [[nodePorts [e|]]|] eqn:Hg; try discriminate.
  injection Hr as <-.
  split; [exists nodePorts; split; reflexivity|]. split; [exact Hlb|].
  rewrite <- Hlb, !in_app_iff. split.
  - intros [Hin | [Hin | [Hin | Hin]]].
    + destruct (isLoadBalancerService u); [reflexivity | destruct Hin].
    + destruct (shouldRemoveServiceClusterIP u); [|destruct Hin].
      destruct Hin as [Heq | []]. apply remove_op_inj in Heq. discriminate Heq.
    + destruct (shouldRemoveServiceClusterIPs u); [|destruct Hin].
      destruct Hin as [Heq | []]. apply remove_op_inj in Heq. discriminate Heq.
    + destruct (getNodePortPatch_members u nodePorts None _ Hg Hin) as (i & Heq & _).
      apply remove_op_inj in Heq. symmetry in Heq. exfalso. revert Heq.
      apply updateNodePortString_other. discriminate.
  - intros ->. left. left. reflexivity.
Qed.

End Panics.

Lemma getNodePortPatch_panic_cause_witness :
  exists text applied,
    GetAnnotations Examples.numberNamedService !! lastAppliedKey = Some text
    /\ @json_Unmarshal Reference.library text = (applied, None)
    /\ (@NestedSlice applied ["spec"; "ports"] = Panic
        \/ exists snapshot p nodePort n name,
             NestedSlice applied ["spec"; "ports"] = Return (snapshot, true, None)
             /\ In (VMap p) snapshot /\ p !! "nodePort" = Some nodePort
             /\ getNodePortInt nodePort = (n, None) /\ 0 < n
             /\ p !! "name" = Some name /\ forall s, name <> VString s).
Proof.
  apply (@getNodePortPatch_panic_cause Reference.library Examples.numberNamedService).
  vm_compute. reflexivity.
Defined.

Lemma Run_returns_witness :
  exists k' resp err,
    @Run Reference.library Examples.plainPlugin (Examples.request Examples.pendingPod)
    = Return (k', (resp, err)).
Proof.
  apply (@Run_returns Reference.library). left. vm_compute. discriminate.
Defined.

Lemma removeServiceFields_order_witness :
  In (remove_op updateExternalIPs)
    [remove_op updateClusterIP; removeNodePort 0; removeNodePort 1]
  <-> specType Examples.nodePortService = Some (VString "LoadBalancer").
Proof.
  apply (@removeServiceFields_order Reference.library reference_decodes_remove
           Examples.nodePortService).
  vm_compute. reflexivity.
Defined.

(** ** Applying the operations of the field stripper *)

Lemma removedPath_remove_op (p : string) : removedPath (remove_op p) = Some p.
Proof. reflexivity. Qed.

Lemma present_shape (o : gmap string Value) (f : list string) :
  stripShape f ->
  match resolve f (VMap o) with Some _ => true | None => false end
  = match f with
    | [a] => match o !! a with Some _ => true | None => false end
    | [a; b] =>
        match o !! a with
        | Some (VMap m) => match m !! b with Some _ => true | None => false end
        | _ => false
        end
    | _ => false
    end.
Proof.
  intros [(a & -> & _) | (b & -> & Hb)]; cbn.
  - destruct (o !! a); reflexivity.
  - destruct (o !! "metadata") as [[]|]; try reflexivity.
    + rewrite Hb. reflexivity.
    + destruct (m !! b); reflexivity.
Qed.

Lemma drop_present (o : gmap string Value) (f : list string) :
  stripShape f -> pointer_tokens (pointer_of f) = Some f ->
  path_present {| Object := o |} (pointer_of f) = true ->
  applyOperation (remove_op (pointer_of f)) {| Object := o |}
  = Some {| Object := dropField f o |}.
Proof.
  intros Hshape Ht Hp. unfold path_present in Hp. rewrite Ht in Hp. cbn [Object] in Hp.
  rewrite (present_shape o f Hshape) in Hp.
  unfold applyOperation. rewrite removedPath_remove_op, Ht. cbn [Object].
  destruct Hshape as [(a & -> & _) | (b & -> & Hb)]; cbn [removeAt dropField].
  - destruct (o !! a); [reflexivity | discriminate].
  - destruct (o !! "metadata") as [[]|]; try discriminate.
    destruct (m !! b); [reflexivity | discriminate].
Qed.

Lemma drop_absent (o : gmap string Value) (f : list string) :
  stripShape f -> pointer_tokens (pointer_of f) = Some f ->
  path_present {| Object := o |} (pointer_of f) = false ->
  dropField f o = o.
Proof.
  intros Hshape Ht Hp. unfold path_present in Hp. rewrite Ht in Hp. cbn [Object] in Hp.
  rewrite (present_shape o f Hshape) in Hp.
  destruct Hshape as [(a & -> & _) | (b & -> & Hb)]; cbn [dropField].
  - destruct (o !! a) eqn:E; [discriminate|]. apply delete_id, E.
  - destruct (o !! "metadata") as [[]|] eqn:E; try reflexivity.
    destruct (m !! b) eqn:Eb; [discriminate|].
    rewrite (delete_id _ _ Eb). apply insert_id, E.
Qed.

Lemma drop_other (o : gmap string Value) (f g : list string) :
  stripShape f -> stripShape g -> f <> g ->
  match resolve g (VMap (dropField f o)) with Some _ => true | None => false end
  = match resolve g (VMap o) with Some _ => true | None => false end.
Proof.
  intros Hf Hg Hne. rewrite !(present_shape _ g Hg).
  destruct Hf as [(a & -> & Ha) | (b & -> & Hb)],
           Hg as [(a' & -> & Ha') | (b' & -> & Hb')]; cbn [dropField].
  - rewrite lookup_delete_ne by congruence. reflexivity.
  - rewrite lookup_delete_ne by congruence. reflexivity.
  - destruct (o !! "metadata") as [[]|]; try reflexivity.
    rewrite lookup_insert_ne by congruence. reflexivity.
  - destruct (o !! "metadata") as [[]|] eqn:E; rewrite ?E; try reflexivity.
    rewrite lookup_insert_eq, lookup_delete_ne by congruence. reflexivity.
Qed.

Lemma drop_self (o : gmap string Value) (f : list string) :
  stripShape f ->
  match resolve f (VMap (dropField f o)) with Some _ => true | None => false end = false.
Proof.
  intros Hf. rewrite (present_shape _ f Hf).
  destruct Hf as [(a & -> & Ha) | (b & -> & Hb)]; cbn [dropField].
  - rewrite lookup_delete_eq. reflexivity.
  - destruct (o !! "metadata") as [[]|] eqn:E; rewrite ?E; try reflexivity.
    rewrite lookup_insert_eq, lookup_delete_eq. reflexivity.
Qed.

Lemma dropFields_other (fields : list (list string)) : forall o g,
  Forall stripShape fields -> stripShape g -> ~ In g fields ->
  match resolve g (VMap (dropFields fields o)) with Some _ => true | None => false end
  = match resolve g (VMap o) with Some _ => true | None => false end.
Proof.
  induction fields as [|f rest IH]; intros o g Hs Hg Hnot; [reflexivity|].
  inversion Hs as [|? ? Hf Hrest]; subst. cbn.
  change (fold_left (fun o0 f0 => dropField f0 o0) rest (dropField f o))
    with (dropFields rest (dropField f o)).
  rewrite (IH (dropField f o) g Hrest Hg); [|intros Hin; apply Hnot; right; exact Hin].
  apply drop_other; [exact Hf | exact Hg |]. intros ->. apply Hnot. left. reflexivity.
Qed.

Lemma dropFields_absent (fields : list (list string)) : forall o f,
  Forall stripShape fields -> List.NoDup fields -> In f fields ->
  match resolve f (VMap (dropFields fields o)) with Some _ => true | None => false end
  = false.
Proof.
  induction fields as [|g rest IH]; intros o f Hs Hnd Hin; [destruct Hin|].
  inversion Hs as [|? ? Hg Hrest]; subst.
  inversion Hnd as [|? ? Hnotin Hnd']; subst. cbn.
  change (fold_left (fun o0 f0 => dropField f0 o0) rest (dropField g o))
    with (dropFields rest (dropField g o)).
  destruct Hin as [<- | Hin].
  - rewrite (dropFields_other rest (dropField g o) g Hrest Hg Hnotin).
    apply drop_self. exact Hg.
  - apply IH; assumption.
Qed.

Lemma dropFields_apply (fields : list (list string)) : forall o,
  Forall stripShape fields -> List.NoDup fields ->
  Forall (fun f => pointer_tokens (pointer_of f) = Some f) fields ->
  applyPatch
    (map remove_op
       (List.filter (path_present {| Object := o |}) (map pointer_of fields)))
    {| Object := o |}
  = Some {| Object := dropFields fields o |}.
Proof.
  induction fields as [|f rest IH]; intros o Hs Hnd Ht; [reflexivity|].
  inversion Hs as [|? ? Hf Hrest]; subst.
  inversion Hnd as [|? ? Hnotin Hnd']; subst.
  inversion Ht as [|? ? Hft Hrestt]; subst.
  cbn [map List.filter dropFields fold_left].
  change (fold_left (fun o0 f0 => dropField f0 o0) rest (dropField f o))
    with (dropFields rest (dropField f o)).
  destruct (path_present {| Object := o |} (pointer_of f)) eqn:Ep.
  - cbn [map applyPatch]. rewrite drop_present by assumption.
    rewrite <- IH by assumption. f_equal. f_equal.
    apply List.filter_ext_in. intros p Hp.
    apply in_map_iff in Hp as (g & <- & Hg).
    pose proof (proj1 (List.Forall_forall _ _) Hrestt g Hg) as Hgt. cbv beta in Hgt.
    pose proof (proj1 (List.Forall_forall _ _) Hrest g Hg) as Hgs.
    unfold path_present. rewrite Hgt. cbn [Object]. symmetry.
    apply drop_other; [exact Hf | exact Hgs | intros ->; apply Hnotin, Hg].
  - rewrite (drop_absent o f) by assumption. apply IH; assumption.
Qed.

Lemma fieldsToStrip_shapes : Forall stripShape fieldsToStrip.
Proof.
  unfold fieldsToStrip.
  repeat (apply List.Forall_cons;
          [first [ right; eexists; split; reflexivity
                 | left; eexists; split; [reflexivity | discriminate] ]|]).
  apply List.Forall_nil.
Qed.

Lemma fieldsToStrip_NoDup : List.NoDup fieldsToStrip.
Proof.
  unfold fieldsToStrip.
  repeat (apply List.NoDup_cons;
          [cbn; intros Hin;
           repeat (destruct Hin as [Heq | Hin]; [discriminate Heq|]); destruct Hin|]).
  apply List.NoDup_nil.
Qed.

Lemma fieldsToStrip_tokens :
  Forall (fun f => pointer_tokens (pointer_of f) = Some f) fieldsToStrip.
Proof.
  unfold fieldsToStrip. repeat (apply List.Forall_cons; [reflexivity|]).
  apply List.Forall_nil.
Qed.

Lemma drop_wellShaped (o : gmap string Value) (f : list string) :
  stripShape f ->
  metadataWellShaped {| Object := o |} = true ->
  metadataWellShaped {| Object := dropField f o |} = true.
Proof.
  unfold metadataWellShaped. cbn [Object].
  intros [(a & -> & Ha) | (b & -> & Hb)] Hw; cbn [dropField].
  - rewrite lookup_delete_ne by congruence. exact Hw.
  - destruct (o !! "metadata") as [[]|] eqn:E; rewrite ?E; try exact Hw.
    rewrite lookup_insert_eq. reflexivity.
Qed.

Lemma dropFields_wellShaped (fields : list (list string)) : forall o,
  Forall stripShape fields ->
  metadataWellShaped {| Object := o |} = true ->
  metadataWellShaped {| Object := dropFields fields o |} = true.
Proof.
  induction fields as [|f rest IH]; intros o Hs Hw; [exact Hw|].
  inversion Hs as [|? ? Hf Hrest]; subst. cbn.
  apply (IH (dropField f o) Hrest), drop_wellShaped; assumption.
Qed.

Lemma dropFields_lookup (fields : list (list string)) (key : string) : forall o,
  Forall stripShape fields -> key <> "metadata" -> ~ In [key] fields ->
  dropFields fields o !! key = o !! key.
Proof.
  induction fields as [|f rest IH]; intros o Hs Hk Hnot; [reflexivity|].
  inversion Hs as [|? ? Hf Hrest]; subst. cbn.
  change (fold_left (fun o0 f0 => dropField f0 o0) rest (dropField f o))
    with (dropFields rest (dropField f o)).
  rewrite IH; [|assumption..|intros Hin; apply Hnot; right; exact Hin].
  destruct Hf as [(a & -> & Ha) | (b & -> & Hb)]; cbn [dropField].
  - apply lookup_delete_ne. intros ->. apply Hnot. left. reflexivity.
  - destruct (o !! "metadata") as [[]|]; try reflexivity.
    apply lookup_insert_ne. congruence.
Qed.

Section StripperApplied.
Context `{Library} `{!DecodesRemove}.

(** X15: the operations of the field stripper apply, and stripping is
    idempotent.  For a resource whose [metadata] is absent, nil or a map,
    every remove the stripper emits finds its target when the operations are
    applied in order; the result is the resource without the six fields,
    every other top-level member unchanged; and the stripper emits nothing
    for that result. *)
Theorem stripFields_applies_and_is_idempotent (obj : Unstructured) :
  metadataWellShaped obj = true ->
  applyPatch (stripFields obj).1 obj
  = Some {| Object := dropFields fieldsToStrip (Object obj) |}
  /\ stripFields {| Object := dropFields fieldsToStrip (Object obj) |} = ([], None)
  /\ forall key, key <> "metadata" -> key <> "status" ->
       dropFields fieldsToStrip (Object obj) !! key = Object obj !! key.
Proof.
  destruct obj as [o]. cbn [Object]. intros Hw. split; [|split].
  - unfold stripFields.
    rewrite stripLoop_exact;
      [|apply fieldsToStrip_pointers | apply wellShaped_no_error, Hw].
    cbn [fst app].
    apply dropFields_apply;
      [apply fieldsToStrip_shapes | apply fieldsToStrip_NoDup | apply fieldsToStrip_tokens].
  - unfold stripFields.
    rewrite stripLoop_exact;
      [|apply fieldsToStrip_pointers
       |apply wellShaped_no_error, dropFields_wellShaped;
          [apply fieldsToStrip_shapes | exact Hw]].
    rewrite filter_none; [reflexivity|].
    intros p Hp. apply in_map_iff in Hp as (f & <- & Hf).
    unfold path_present.
    rewrite (proj1 (List.Forall_forall _ _) fieldsToStrip_tokens f Hf). cbn [Object].
    apply dropFields_absent;
      [apply fieldsToStrip_shapes | apply fieldsToStrip_NoDup | exact Hf].
  - intros key Hm Hst. apply dropFields_lookup; [apply fieldsToStrip_shapes | exact Hm|].
    cbn. intros Hin.
    repeat (destruct Hin as [Heq | Hin]; [try discriminate Heq; congruence|]).
    destruct Hin.
Qed.

End StripperApplied.

Lemma stripFields_applies_and_is_idempotent_witness :
  applyPatch [remove_op "/metadata/uid"; remove_op "/status"] Examples.liveConfigMap
  = Some {| Object := {[ "apiVersion" := VString "v1"; "kind" := VString "ConfigMap";
                         "metadata" := VMap {[ "name" := VString "cm" ]} ]} |}.
Proof.
  destruct (@stripFields_applies_and_is_idempotent Reference.library
              reference_decodes_remove Examples.liveConfigMap) as (Happly & _).
  - reflexivity.
  - etransitivity; [|etransitivity; [exact Happly|]].
    + vm_compute. reflexivity.
    + vm_compute. reflexivity.
Defined.

(** ** The image rewriter *)

Section Images.
Context `{Library}.

Lemma updateImages_members (registryReplacement : gmap string string)
    (pathOf : nat -> string) (containers : list Container) :
  forall i jps,
  imageUpdatesSucceed registryReplacement pathOf i containers ->
  exists ops,
    updateImages registryReplacement pathOf containers i jps = (jps ++ ops, None)
    /\ forall o,
         In o ops <->
         exists (j : nat) container updatedImage,
           containers !! j = Some container
           /\ UpdateImageRegistry registryReplacement (Image container)
              = (updatedImage, true)
           /\ In o (UpdateImage (pathOf (i + j)%nat) updatedImage).1.
Proof.
  induction containers as [|c rest IH]; intros i jps Hok.
  - exists []. split; [cbn; rewrite app_nil_r; reflexivity|].
    intros o. split; [intros [] | intros (j & c & img & Hj & _); discriminate].
  - assert (Hrest : imageUpdatesSucceed registryReplacement pathOf (S i) rest).
    { intros j c' img Hj Hu. replace (S i + j)%nat with (i + S j)%nat by lia.
      apply (Hok (S j) c' img); assumption. }
    cbn [updateImages].
    destruct (UpdateImageRegistry registryReplacement (Image c)) as [img upd] eqn:Eu.
    destruct upd.
    + pose proof (Hok O c img eq_refl Eu) as He. rewrite Nat.add_0_r in He.
      destruct (UpdateImage (pathOf i) img) as [jp err] eqn:Ei. cbn in He. subst err.
      destruct (IH (S i) (jps ++ jp) Hrest) as (ops & Hrun & Hmem).
      exists (jp ++ ops). split; [rewrite Hrun, <- app_assoc; reflexivity|].
      intros o. rewrite in_app_iff, Hmem. split.
      * intros [Hin | (j & c' & img' & Hj & Hu & Hin)].
        -- exists O, c, img. rewrite Nat.add_0_r, Ei. repeat split; assumption.
        -- exists (S j), c', img'. replace (i + S j)%nat with (S i + j)%nat by lia.
           repeat split; assumption.
      * intros ([|j] & c' & img' & Hj & Hu & Hin).
        -- cbn in Hj. injection Hj as <-. rewrite Eu in Hu. injection Hu as <-.
           rewrite Nat.add_0_r, Ei in Hin. left. exact Hin.
        -- right. exists j, c', img'. replace (S i + j)%nat with (i + S j)%nat by lia.
           repeat split; assumption.
    + destruct (IH (S i) jps Hrest) as (ops & Hrun & Hmem).
      exists ops. split; [exact Hrun|].
      intros o. rewrite Hmem. split.
      * intros (j & c' & img' & Hj & Hu & Hin).
        exists (S j), c', img'. replace (i + S j)%nat with (S i + j)%nat by lia.
        repeat split; assumption.
      * intros ([|j] & c' & img' & Hj & Hu & Hin).
        -- cbn in Hj. injection Hj as <-. rewrite Eu in Hu. discriminate.
        -- exists j, c', img'. replace (S i + j)%nat with (i + S j)%nat by lia.
           repeat split; assumption.
Qed.

(** X16: the image rewriter addresses each container by its own position.
    When [UpdateImage] fails on none of them, the loop over a list of
    containers succeeds, and its operations are exactly those [UpdateImage]
    gives, for the image path of index [j], for the containers at [j] whose
    registry [UpdateImageRegistry] replaces: a container that is left alone
    shifts no index, and when no image is replaced there is no operation. *)
Theorem updateImages_by_position (registryReplacement : gmap string string)
    (pathOf : nat -> string) (containers : list Container) :
  imageUpdatesSucceed registryReplacement pathOf 0 containers ->
  exists ops,
    updateImages registryReplacement pathOf containers 0 [] = (ops, None)
    /\ (forall o,
          In o ops <->
          exists (j : nat) container updatedImage,
            containers !! j = Some container
            /\ UpdateImageRegistry registryReplacement (Image container)
               = (updatedImage, true)
            /\ In o (UpdateImage (pathOf j) updatedImage).1)
    /\ ((forall container, In container containers ->
           (UpdateImageRegistry registryReplacement (Image container)).2 = false) ->
        ops = []).
Proof.
  intros Hok.
  destruct (updateImages_members registryReplacement pathOf containers 0 [] Hok)
    as (ops & Hrun & Hmem).
  exists ops. split; [exact Hrun|]. split; [exact Hmem|].
  intros Hnone. destruct ops as [|o ops]; [reflexivity|]. exfalso.
  destruct (proj1 (Hmem o) (or_introl eq_refl)) as (j & c & img & Hj & Hu & _).
  assert (Hin : In c containers).
  { apply list_elem_of_In, list_elem_of_lookup. exists j. exact Hj. }
  specialize (Hnone c Hin). rewrite Hu in Hnone. discriminate.
Qed.

End Images.

Lemma updateImages_by_position_witness :
  exists ops,
    @updateImages Reference.library {[ "docker.io/foo" := "quay.io/bar" ]}
      podContainerImageUpdate
      [ {| Image := "quay.io/other/app:v2" |}; {| Image := "docker.io/foo/bar:v1" |} ] 0 []
    = (ops, None).
Proof.
  destruct (@updateImages_by_position Reference.library
              {[ "docker.io/foo" := "quay.io/bar" ]} podContainerImageUpdate
              [ {| Image := "quay.io/other/app:v2" |}; {| Image := "docker.io/foo/bar:v1" |} ])
    as (ops & Hrun & _).
  - intros j container updatedImage _ _. reflexivity.
  - exists ops. exact Hrun.
Defined.

(** ** The annotation editor under the reference reader *)

Lemma annotationRemove_split (key : string) :
  annotationRemove key = annotationRemoveBefore +:+ key +:+ annotationRemoveAfter.
Proof.
  unfold annotationRemove, annotationRemoveBefore, annotationRemoveAfter, quoted.
  rewrite !append_assoc. reflexivity.
Qed.

Lemma annotationAdd_split (key value : string) :
  annotationAdd key value
  = annotationAddBefore +:+ key +:+ annotationAddBetween +:+ value +:+ annotationAddAfter.
Proof.
  unfold annotationAdd, annotationAddBefore, annotationAddBetween, annotationAddAfter,
    quoted.
  rewrite !append_assoc. reflexivity.
Qed.

Lemma lexFrom_annotationRemove (key : string) :
  plain key = true ->
  Reference.lexFrom (annotationRemove key) Reference.LTop
  = Some (removeTokens key, Reference.LTop).
Proof.
  intros Hk. rewrite annotationRemove_split, lexFrom_app.
  replace (Reference.lexFrom annotationRemoveBefore Reference.LTop)
    with (Some ([Reference.TLBrace; Reference.TStr "op"; Reference.TColon;
                 Reference.TStr "remove"; Reference.TComma; Reference.TStr "path";
                 Reference.TColon], Reference.LStr "/metadata/annotations/"))
    by (vm_compute; reflexivity).
  cbv iota beta. rewrite lexFrom_app, (lexFrom_plain key _ Hk).
  replace (Reference.lexFrom annotationRemoveAfter
             (Reference.LStr ("/metadata/annotations/" +:+ key)))
    with (Some ([Reference.TStr ("/metadata/annotations/" +:+ key); Reference.TRBrace],
                Reference.LTop)) by reflexivity.
  reflexivity.
Qed.

Lemma lexFrom_annotationAdd (key value : string) :
  plain key = true -> plain value = true ->
  Reference.lexFrom (annotationAdd key value) Reference.LTop
  = Some (addTokens (key, value), Reference.LTop).
Proof.
  intros Hk Hv. rewrite annotationAdd_split, lexFrom_app.
  replace (Reference.lexFrom annotationAddBefore Reference.LTop)
    with (Some ([Reference.TLBrace; Reference.TStr "op"; Reference.TColon;
                 Reference.TStr "add"; Reference.TComma; Reference.TStr "path";
                 Reference.TColon], Reference.LStr "/metadata/annotations/"))
    by (vm_compute; reflexivity).
  cbv iota beta. rewrite lexFrom_app, (lexFrom_plain key _ Hk).
  rewrite lexFrom_app.
  replace (Reference.lexFrom annotationAddBetween
             (Reference.LStr ("/metadata/annotations/" +:+ key)))
    with (Some ([Reference.TStr ("/metadata/annotations/" +:+ key); Reference.TComma;
                 Reference.TStr "value"; Reference.TColon], Reference.LStr ""))
    by reflexivity.
  cbv iota beta. rewrite lexFrom_app, (lexFrom_plain value _ Hv).
  change ("" +:+ value) with value.
  replace (Reference.lexFrom annotationAddAfter (Reference.LStr value))
    with (Some ([Reference.TStr value; Reference.TRBrace], Reference.LTop))
    by reflexivity.
  reflexivity.
Qed.

Lemma lexFrom_joinText (elements : list string) :
  forall (tokens : list (list Reference.token)) first acc ts,
  Forall2 (fun element toks =>
             Reference.lexFrom element Reference.LTop = Some (toks, Reference.LTop))
    elements tokens ->
  Reference.lexFrom acc Reference.LTop = Some (ts, Reference.LTop) ->
  Reference.lexFrom (joinText elements first acc) Reference.LTop
  = Some (ts ++ joinTokens tokens first, Reference.LTop).
Proof.
  induction elements as [|e rest IH]; intros tokens first acc ts Hall Hacc;
    inversion Hall as [|? toks ? tokens' He Hrest]; subst; cbn [joinText joinTokens].
  - rewrite app_nil_r. exact Hacc.
  - rewrite (IH tokens' false _ (ts ++ (if first then [] else [Reference.TComma]) ++ toks)
               Hrest).
    + rewrite <- !app_assoc. reflexivity.
    + destruct first.
      * rewrite lexFrom_app, Hacc. cbv iota beta. rewrite lexFrom_app.
        replace (Reference.lexFrom nl Reference.LTop)
          with (Some (@nil Reference.token, Reference.LTop)) by reflexivity.
        cbv iota beta. rewrite He. reflexivity.
      * rewrite lexFrom_app, Hacc. cbv iota beta. rewrite lexFrom_app.
        replace (Reference.lexFrom "," Reference.LTop)
          with (Some ([Reference.TComma], Reference.LTop)) by reflexivity.
        cbv iota beta. rewrite lexFrom_app.
        replace (Reference.lexFrom nl Reference.LTop)
          with (Some (@nil Reference.token, Reference.LTop)) by reflexivity.
        cbv iota beta. rewrite He. reflexivity.
Qed.

Lemma parseElems_step (fuel : nat) (ts : list Reference.token) (acc : list Value) :
  Reference.parseElems (S fuel) ts acc
  = match Reference.parseValue fuel ts with
    | Some (v, Reference.TComma :: r) => Reference.parseElems fuel r (acc ++ [v])
    | Some (v, Reference.TRBrack :: r) => Some (acc ++ [v], r)
    | _ => None
    end.
Proof. reflexivity. Qed.

Lemma parseValue_array (fuel : nat) (ts : list Reference.token) :
  Reference.parseValue (S fuel) (Reference.TLBrack :: Reference.TLBrace :: ts)
  = match Reference.parseElems fuel (Reference.TLBrace :: ts) [] with
    | Some (l, r') => Some (VSlice l, r')
    | None => None
    end.
Proof. reflexivity. Qed.

Lemma parse_removeTokens (key : string) (fuel : nat) (r : list Reference.token) :
  Reference.parseValue (5 + fuel) (removeTokens key ++ r)
  = Some (VMap (remove_op ("/metadata/annotations/" +:+ key)), r).
Proof. reflexivity. Qed.

Lemma parse_addTokens (entry : string * string) (fuel : nat) (r : list Reference.token) :
  Reference.parseValue (5 + fuel) (addTokens entry ++ r)
  = Some (VMap (add_op entry.1 entry.2), r).
Proof. reflexivity. Qed.

Lemma parseElems_join (tokens : list (list Reference.token)) (values : list Value) :
  Forall2 (fun toks v => forall fuel r,
             Reference.parseValue (5 + fuel) (toks ++ r) = Some (v, r)) tokens values ->
  forall toks0 v0,
  (forall fuel r, Reference.parseValue (5 + fuel) (toks0 ++ r) = Some (v0, r)) ->
  forall fuel acc,
    Reference.parseElems (6 + length tokens + fuel)
      (toks0 ++ joinTokens tokens false ++ [Reference.TRBrack]) acc
    = Some (acc ++ v0 :: values, []).
Proof.
  induction 1 as [|toks1 v1 tokens values H1 Hrest IH]; intros toks0 v0 H0 fuel acc.
  - replace (6 + length (@nil (list Reference.token)) + fuel)%nat with (S (5 + fuel))
      by (cbn [length]; lia).
    rewrite parseElems_step. cbn [joinTokens app]. rewrite H0. reflexivity.
  - replace (6 + length (toks1 :: tokens) + fuel)%nat
      with (S (5 + (S (length tokens) + fuel))) by (cbn [length]; lia).
    rewrite parseElems_step. cbn [joinTokens]. rewrite <- !app_assoc. cbn [app].
    rewrite H0.
    replace (5 + (S (length tokens) + fuel))%nat with (6 + length tokens + fuel)%nat
      by lia.
    rewrite (IH toks1 v1 H1 fuel (acc ++ [v0])). rewrite <- app_assoc. reflexivity.
Qed.

Lemma joinTokens_length (tokens : list (list Reference.token)) :
  (length tokens <= length (joinTokens tokens false))%nat.
Proof.
  induction tokens as [|t rest IH]; cbn; [lia|]. rewrite length_app. lia.
Qed.

Lemma operations_maps (ops : list Operation) :
  Reference.operations (map VMap ops) = Some ops.
Proof. induction ops as [|o ops IH]; cbn; [reflexivity|]. rewrite IH. reflexivity. Qed.

(** A bracketed, comma-separated text of objects decodes to the objects. *)
Lemma decode_joined (elements : list string) (tokens : list (list Reference.token))
    (ops : list Operation) :
  Forall2 (fun element toks =>
             Reference.lexFrom element Reference.LTop = Some (toks, Reference.LTop))
    elements tokens ->
  Forall2 (fun toks o => forall fuel r,
             Reference.parseValue (5 + fuel) (toks ++ r) = Some (VMap o, r)
             /\ exists rest, toks = Reference.TLBrace :: rest /\ (4 <= length rest)%nat)
    tokens ops ->
  Reference.decodePatch (joinText elements true "[" +:+ "]") = (ops, None).
Proof.
  intros Hlex Hparse.
  unfold Reference.decodePatch, Reference.decodeJSON, Reference.lex.
  rewrite lexFrom_app.
  rewrite (lexFrom_joinText elements tokens true "[" [Reference.TLBrack] Hlex)
    by reflexivity.
  cbv iota beta.
  replace (Reference.lexFrom "]" Reference.LTop)
    with (Some ([Reference.TRBrack], Reference.LTop)) by reflexivity.
  cbv iota beta.
  destruct Hparse as [|toks0 o0 tokens ops H0 Hrest].
  - reflexivity.
  - destruct (H0 O []) as [_ (rest0 & -> & Hlen)].
    cbn [joinTokens app].
    assert (Hvalues : Forall2 (fun toks v => forall fuel r,
                         Reference.parseValue (5 + fuel) (toks ++ r) = Some (v, r))
                        tokens (map VMap ops)).
    { clear -Hrest. induction Hrest as [|t o ts os Ht _ IH]; constructor.
      - intros fuel r. apply (Ht fuel r).
      - exact IH. }
    pose proof (joinTokens_length tokens) as Hjl.
    match goal with |- context [Reference.parseValue (S (length ?ts)) ?ts] =>
      set (all := ts) end.
    assert (Hall : exists fuel, length all = S (6 + length tokens + fuel)).
    { exists (length all - 7 - length tokens)%nat. subst all.
      repeat first [rewrite length_app | progress cbn [length app]]. lia. }
    destruct Hall as [fuel Hfuel]. rewrite Hfuel. subst all.
    cbn [app]. rewrite parseValue_array.
    rewrite <- app_assoc.
    change (Reference.TLBrace :: rest0 ++ joinTokens tokens false ++ [Reference.TRBrack])
      with ((Reference.TLBrace :: rest0) ++ joinTokens tokens false ++ [Reference.TRBrack]).
    replace (S (6 + length tokens + fuel)) with (6 + length tokens + S fuel)%nat by lia.
    rewrite (parseElems_join tokens (map VMap ops) Hvalues (Reference.TLBrace :: rest0)
               (VMap o0) (fun f r => proj1 (H0 f r)) (S fuel) []).
    cbn [app]. change (VMap o0 :: map VMap ops) with (map VMap (o0 :: ops)).
    rewrite operations_maps. reflexivity.
Qed.
Lemma removeAnnotationsText_join (keys : list string) :
  forall first patchJSON,
    removeAnnotationsText keys first patchJSON
    = joinText (map annotationRemove keys) first patchJSON.
Proof.
  induction keys as [|key rest IH]; intros first patchJSON; [reflexivity|].
  cbn [removeAnnotationsText joinText map]. rewrite IH. reflexivity.
Qed.

Lemma addAnnotationsText_join (entries : list (string * string)) :
  forall first patchJSON,
    addAnnotationsText entries first patchJSON
    = joinText (map (fun entry => annotationAdd entry.1 entry.2) entries) first patchJSON.
Proof.
  induction entries as [|[key value] rest IH]; intros first patchJSON; [reflexivity|].
  cbn [addAnnotationsText joinText map]. rewrite IH. reflexivity.
Qed.

(** X17: under a patch decoder that reads JSON as the reference reader
    does, [removeAnnotations] on keys free of quotes, backslashes and
    control characters succeeds with one remove operation per key, at
    [/metadata/annotations/<key>], in the order of the keys (duplicates
    kept); on no key at all it yields the empty patch. *)
Theorem removeAnnotations_decoded (L : Library) (keys : list string) :
  @DecodePatch L = Reference.decodePatch ->
  Forall (fun key => plain key = true) keys ->
  @removeAnnotations L keys
  = (map (fun key => remove_op ("/metadata/annotations/" +:+ key)) keys, None).
Proof.
  intros Hdecode Hplain. unfold removeAnnotations.
  rewrite Hdecode, removeAnnotationsText_join.
  rewrite (decode_joined (map annotationRemove keys) (map removeTokens keys)
             (map (fun key => remove_op ("/metadata/annotations/" +:+ key)) keys)).
  - reflexivity.
  - induction Hplain as [|key rest Hkey _ IH]; cbn [map]; constructor.
    + apply lexFrom_annotationRemove, Hkey.
    + exact IH.
  - clear. induction keys as [|key rest IH]; cbn [map]; constructor.
    + intros fuel r. split; [apply parse_removeTokens|].
      eexists. split; [reflexivity|]. cbn [length]. lia.
    + exact IH.
Qed.

Lemma removeAnnotations_decoded_witness :
  @removeAnnotations Reference.library ["owner"; "team"]
  = ([remove_op "/metadata/annotations/owner"; remove_op "/metadata/annotations/team"],
     None).
Proof.
  apply (removeAnnotations_decoded Reference.library ["owner"; "team"]).
  - reflexivity.
  - apply List.Forall_cons; [reflexivity|]. apply List.Forall_cons; [reflexivity|].
    apply List.Forall_nil.
Defined.

(** X18: under the same decoder, [addAnnotations] on a map whose keys and
    values are free of quotes, backslashes and control characters
    succeeds with one add operation per entry, at
    [/metadata/annotations/<key>] with the entry's value, in the order in
    which the map is ranged over. *)
Theorem addAnnotations_decoded (L : Library) (annotations : gmap string string) :
  @DecodePatch L = Reference.decodePatch ->
  Forall (fun entry => plain entry.1 = true /\ plain entry.2 = true)
    (@range_map L annotations) ->
  @addAnnotations L annotations
  = (map (fun entry => add_op entry.1 entry.2) (@range_map L annotations), None).
Proof.
  intros Hdecode Hplain. unfold addAnnotations.
  rewrite Hdecode, addAnnotationsText_join.
  generalize dependent (@range_map L annotations). intros entries Hplain.
  rewrite (decode_joined (map (fun entry => annotationAdd entry.1 entry.2) entries)
             (map addTokens entries)
             (map (fun entry => add_op entry.1 entry.2) entries)).
  - reflexivity.
  - induction Hplain as [|[key value] rest [Hkey Hvalue] _ IH]; cbn [map]; constructor.
    + apply lexFrom_annotationAdd; assumption.
    + exact IH.
  - clear. induction entries as [|entry rest IH]; cbn [map]; constructor.
    + intros fuel r. split; [apply parse_addTokens|].
      eexists. split; [reflexivity|]. cbn [length]. lia.
    + exact IH.
Qed.

Lemma addAnnotations_decoded_witness :
  @addAnnotations Reference.library {[ "owner" := "platform" ]}
  = ([add_op "owner" "platform"], None).
Proof.
  rewrite (addAnnotations_decoded Reference.library {[ "owner" := "platform" ]}).
  - reflexivity.
  - reflexivity.
  - change (@range_map Reference.library {[ "owner" := "platform" ]})
      with [("owner", "platform")].
    apply List.Forall_cons; [split; reflexivity|]. apply List.Forall_nil.
Defined.

(** ** The order of the operations *)

Lemma runAll_success (gens : list (outcome (Patch * option error))) :
  forall jsonPatch patches,
    runAll gens jsonPatch = Return (patches, None) <->
    exists ps, Forall2 (fun g p => g = Return (p, None)) gens ps
               /\ patches = jsonPatch ++ concat ps.
Proof.
  induction gens as [|g gens IH]; intros jsonPatch patches.
  - cbn [runAll]. split.
    + intros [= <-]. exists []. split; [constructor|]. cbn. rewrite app_nil_r. reflexivity.
    + intros (ps & Hps & ->). inversion Hps; subst. cbn. rewrite app_nil_r. reflexivity.
  - split.
    + intros Hrun. destruct g as [[p [e|]]|]; cbn [runAll] in Hrun; try discriminate.
      apply IH in Hrun as (ps & Hps & ->). exists (p :: ps).
      split; [constructor; [reflexivity | exact Hps]|].
      cbn [concat]. rewrite app_assoc. reflexivity.
    + intros (ps & Hps & ->). inversion Hps as [|? p ? ps' Hg Hrest]; subst.
      cbn [runAll concat]. apply IH. exists ps'. split; [exact Hrest|].
      rewrite app_assoc. reflexivity.
Qed.

Section Order.
Context `{Library}.

(** X19: a response of [Run] that is neither a whiteout nor an error carries
    the operations of the six generators one after the other in a fixed
    order (field stripper, annotations to add, annotations to remove, pod
    fields, image updates, service fields), each generator having returned
    without error; and whenever the resource is kept and the six generators
    return without error, [Run] returns their operations in that order. *)
Theorem Run_patches_in_order (k : KubernetesTransformPlugin) (request : PluginRequest) :
  (forall k' resp,
     Run k request = Return (k', (resp, None)) -> IsWhiteOut resp = false ->
     exists ps,
       Forall2 (fun g p => g = Return (p, None))
         (generators (setOptionalFields k (Extras request)) (Resource request)) ps
       /\ Patches resp = concat ps)
  /\ (forall ps,
        getWhiteOuts (setOptionalFields k (Extras request)) (Resource request) = false ->
        Forall2 (fun g p => g = Return (p, None))
          (generators (setOptionalFields k (Extras request)) (Resource request)) ps ->
        Run k request
        = Return (setOptionalFields k (Extras request),
                  ({| Version := V1; IsWhiteOut := false; Patches := concat ps |}, None))).
Proof.
  split.
  - intros k' resp Hrun Hw.
    destruct (getWhiteOuts (setOptionalFields k (Extras request)) (Resource request)) eqn:E.
    + rewrite (Run_whiteout _ _ E) in Hrun. injection Hrun as _ <-. discriminate Hw.
    + rewrite (Run_not_whiteout _ _ E), getKubernetesTransforms_runAll in Hrun.
      destruct (runAll _ []) as [[p [e|]]|] eqn:Er; try discriminate.
      injection Hrun as _ <-. apply runAll_success in Er as (ps & Hps & ->).
      exists ps. split; [exact Hps | reflexivity].
  - intros ps Hw Hps.
    rewrite (Run_not_whiteout _ _ Hw), getKubernetesTransforms_runAll.
    replace (runAll _ []) with (Return (concat ps, @None error)).
    + reflexivity.
    + symmetry. apply runAll_success. exists ps. split; [exact Hps | reflexivity].
Qed.

End Order.

Lemma Run_patches_in_order_witness :
  @Run Reference.library Examples.plainPlugin (Examples.request Examples.nodePortService)
  = Return (Examples.plainPlugin,
            ({| Version := "v1"; IsWhiteOut := false;
                Patches := [remove_op "/metadata/uid"; remove_op "/spec/clusterIP";
                            remove_op "/spec/ports/0/nodePort";
                            remove_op "/spec/ports/1/nodePort"] |}, None)).
Proof.
  destruct (@Run_patches_in_order Reference.library Examples.plainPlugin
              (Examples.request Examples.nodePortService)) as [_ Horder].
  rewrite (Horder [[remove_op "/metadata/uid"]; []; []; []; [];
                   [remove_op "/spec/clusterIP"; remove_op "/spec/ports/0/nodePort";
                    remove_op "/spec/ports/1/nodePort"]]).
  - reflexivity.
  - vm_compute. reflexivity.
  - unfold generators.
    repeat (apply List.Forall2_cons; [vm_compute; reflexivity|]). apply List.Forall2_nil.
Defined.

(** ** Applying the operations of the node-port reconciler *)

Lemma removalDecision_true (explicit : gset string) (unnamed : gset Z) (port : Value) :
  removalDecision explicit unnamed port = true ->
  exists p v, port = VMap p /\ p !! "nodePort" = Some v.
Proof.
  destruct port; cbn [removalDecision]; try discriminate.
  destruct (m !! "nodePort") as [v|] eqn:Ev; [|discriminate].
  intros _. exists m, v. split; [reflexivity | exact Ev].
Qed.

Lemma withPorts_id (u : Unstructured) (specMap : gmap string Value) (ports : list Value) :
  Object u !! "spec" = Some (VMap specMap) ->
  specMap !! "ports" = Some (VSlice ports) ->
  withPorts u specMap ports = u.
Proof.
  intros Hs Hp. destruct u as [o]. unfold withPorts. cbn [Object] in *. f_equal.
  rewrite (insert_id specMap "ports" _ Hp). apply insert_id, Hs.
Qed.

Lemma withPorts_again (u : Unstructured) (specMap : gmap string Value)
    (ports ports' : list Value) :
  withPorts (withPorts u specMap ports) (<["ports" := VSlice ports]> specMap) ports'
  = withPorts u specMap ports'.
Proof. unfold withPorts. cbn [Object]. rewrite !insert_insert_eq. reflexivity. Qed.

Lemma GetAnnotations_withPorts (u : Unstructured) (specMap : gmap string Value)
    (ports : list Value) :
  GetAnnotations (withPorts u specMap ports) = GetAnnotations u.
Proof.
  unfold GetAnnotations, NestedStringMap, nestedMapNoCopy, NestedFieldNoCopy, withPorts.
  cbn [Object nestedField]. rewrite lookup_insert_ne by discriminate. reflexivity.
Qed.

Lemma applyOperation_removeNodePort (u : Unstructured) (specMap : gmap string Value)
    (ports : list Value) (i : nat) (p : gmap string Value) (v : Value) :
  Object u !! "spec" = Some (VMap specMap) ->
  specMap !! "ports" = Some (VSlice ports) ->
  ports !! i = Some (VMap p) ->
  p !! "nodePort" = Some v ->
  applyOperation (removeNodePort i) u
  = Some (withPorts u specMap (<[i := VMap (delete "nodePort" p)]> ports)).
Proof.
  intros Hs Hp Hi Hv. unfold applyOperation, removeNodePort.
  rewrite removedPath_remove_op, pointer_tokens_nodePort.
  cbn [removeAt]. rewrite Hs, Hp, parse_index_itoa, Hi, Hv. reflexivity.
Qed.

Lemma applyPatch_removedFrom (explicit : gset string) (unnamed : gset Z)
    (u : Unstructured) (specMap : gmap string Value) (rest : list Value) :
  forall done,
    applyPatch (map removeNodePort (removedFrom explicit unnamed rest (length done)))
      (withPorts u specMap (done ++ rest))
    = Some (withPorts u specMap (done ++ reconciledPorts explicit unnamed rest)).
Proof.
  induction rest as [|q rest IH]; intros done; [reflexivity|].
  cbn [removedFrom reconciledPorts map].
  fold (reconciledPorts explicit unnamed rest).
  destruct (removalDecision explicit unnamed q) eqn:Eq.
  - destruct (removalDecision_true _ _ _ Eq) as (p & v & -> & Hv).
    cbn [map applyPatch withoutNodePort].
    rewrite (applyOperation_removeNodePort _ (<["ports" := VSlice (done ++ VMap p :: rest)]> specMap)
               (done ++ VMap p :: rest) (length done) p v).
    + rewrite withPorts_again.
      rewrite insert_app_r_alt by lia. rewrite Nat.sub_diag. cbn [insert list_insert].
      replace (done ++ VMap (delete "nodePort" p) :: rest)
        with ((done ++ [VMap (delete "nodePort" p)]) ++ rest)
        by (rewrite <- app_assoc; reflexivity).
      replace (S (length done)) with (length (done ++ [VMap (delete "nodePort" p)]))
        by (rewrite length_app; cbn; lia).
      rewrite IH, <- app_assoc. reflexivity.
    + unfold withPorts. cbn [Object]. apply lookup_insert_eq.
    + apply lookup_insert_eq.
    + apply list_lookup_middle. reflexivity.
    + exact Hv.
  - replace (done ++ q :: rest) with ((done ++ [q]) ++ rest)
      by (rewrite <- app_assoc; reflexivity).
    replace (S (length done)) with (length (done ++ [q]))
      by (rewrite length_app; cbn; lia).
    rewrite IH, <- !app_assoc. reflexivity.
Qed.

Section ReconcilerApplied.
Context `{Library} `{!DecodesRemove}.

Lemma livePorts_parse (explicit : gset string) (unnamed : gset Z) (ports : list Value) :
  forall i patch result,
    livePorts ports i explicit unnamed patch = (result, None) -> nodePortsParse ports.
Proof.
  induction ports as [|q rest IH]; intros i patch result Hrun.
  - intros port v [].
  - cbn [livePorts] in Hrun.
    assert (Hskip : nodePortsParse rest -> (forall p, q <> VMap p) ->
                    nodePortsParse (q :: rest)).
    { intros Hrest Hnot port v [Heq | Hin] Hv; [destruct (Hnot port); exact Heq|].
      apply (Hrest port v Hin Hv). }
    destruct q; try (apply Hskip; [eapply IH; exact Hrun | discriminate]).
    assert (Hmap : nodePortsParse rest ->
                   (forall v, m !! "nodePort" = Some v -> (getNodePortInt v).2 = None) ->
                   nodePortsParse (VMap m :: rest)).
    { intros Hrest Hm port v [Heq | Hin] Hv.
      - injection Heq as <-. apply Hm, Hv.
      - apply (Hrest port v Hin Hv). }
    destruct (m !! "nodePort") as [v|] eqn:Ev.
    2:{ apply Hmap; [eapply IH; exact Hrun | discriminate]. }
    destruct (getNodePortInt v) as [n [e|]] eqn:En; [discriminate|].
    assert (Hm : forall v', Some v = Some v' -> (getNodePortInt v').2 = None).
    { intros v' [= <-]. rewrite En. reflexivity. }
    cbv zeta in Hrun.
    destruct (n =? 0); [apply Hmap; [eapply IH; exact Hrun | exact Hm]|].
    match type of Hrun with context [if ?c then negb ?a else negb ?b] =>
      destruct (if c then negb a else negb b) end;
      [|apply Hmap; [eapply IH; exact Hrun | exact Hm]].
    destruct (DecodePatch _) as [intPatch [e|]]; [discriminate|].
    apply Hmap; [eapply IH; exact Hrun | exact Hm].
Qed.

Lemma livePorts_reconciled (explicit : gset string) (unnamed : gset Z)
    (ports : list Value) :
  forall i patch,
    nodePortsParse ports ->
    livePorts (reconciledPorts explicit unnamed ports) i explicit unnamed patch
    = (patch, None).
Proof.
  induction ports as [|q rest IH]; intros i patch Hparse; [reflexivity|].
  assert (Hrest : nodePortsParse rest).
  { intros port v Hin Hv. apply (Hparse port v); [right; exact Hin | exact Hv]. }
  cbn [reconciledPorts map]. fold (reconciledPorts explicit unnamed rest).
  destruct (removalDecision explicit unnamed q) eqn:Eq.
  - destruct (removalDecision_true _ _ _ Eq) as (p & v & -> & Hv).
    cbn [withoutNodePort livePorts]. rewrite lookup_delete_eq. apply IH, Hrest.
  - destruct q; cbn [livePorts]; try (apply IH; exact Hrest).
    cbn [removalDecision] in Eq.
    destruct (m !! "nodePort") as [v|] eqn:Ev; [|apply IH; exact Hrest].
    pose proof (Hparse m v (or_introl eq_refl) Ev) as Herr.
    destruct (getNodePortInt v) as [n err]. cbn in Herr. subst err.
    cbn [fst] in Eq. cbv zeta in Eq |- *.
    destruct (n =? 0); [apply IH; exact Hrest|].
    cbn [negb andb] in Eq. rewrite Eq. apply IH, Hrest.
Qed.

Lemma livePorts_settles (explicit : gset string) (unnamed : gset Z) (u : Unstructured)
    (specMap : gmap string Value) (ports : list Value) (patch : Patch) :
  Object u !! "spec" = Some (VMap specMap) ->
  specMap !! "ports" = Some (VSlice ports) ->
  livePorts ports 0 explicit unnamed [] = (patch, None) ->
  applyPatch patch u = Some (withPorts u specMap (reconciledPorts explicit unnamed ports))
  /\ livePorts (reconciledPorts explicit unnamed ports) 0 explicit unnamed [] = ([], None).
Proof.
  intros Hs Hp Hrun. pose proof (livePorts_parse _ _ _ _ _ _ Hrun) as Hparse.
  rewrite (livePorts_exact _ _ _ 0%nat [] Hparse) in Hrun. injection Hrun as <-.
  split; [|apply livePorts_reconciled, Hparse].
  cbn [app].
  rewrite <- (withPorts_id u specMap ports Hs Hp) at 1.
  apply (applyPatch_removedFrom explicit unnamed u specMap ports []).
Qed.

(** X20: the operations of the node-port reconciler apply, and reconciling
    is idempotent: whenever [getNodePortPatch] returns operations without
    error, applying them to the resource as RFC 6902 removes succeeds, and
    on the resulting resource the reconciler returns no operation and no
    error. *)
Theorem getNodePortPatch_applies_and_is_idempotent (u : Unstructured) (patch : Patch) :
  getNodePortPatch u = Return (patch, None) ->
  exists u',
    applyPatch patch u = Some u'
    /\ GetAnnotations u' = GetAnnotations u
    /\ getNodePortPatch u' = Return ([], None).
Proof.
  intros Hrun. pose proof Hrun as Hrun0.
  unfold getNodePortPatch, UnstructuredContent in Hrun.
  assert (Hnone : Return (@nil Operation, @None error) = Return (patch, None) ->
                  exists u', applyPatch patch u = Some u'
                             /\ GetAnnotations u' = GetAnnotations u
                             /\ getNodePortPatch u' = Return ([], None)).
  { intros [= <-]. exists u. split; [reflexivity|]. split; [reflexivity | exact Hrun0]. }
  destruct (Object u !! "spec") as [spec|] eqn:Espec; [|exact (Hnone Hrun)].
  destruct spec as [| | | | | | | |specMap]; try exact (Hnone Hrun).
  destruct (specMap !! "type") as [t|] eqn:Etype; [|exact (Hnone Hrun)].
  destruct (iface_eq_string t "ExternalName") eqn:Ename; [exact (Hnone Hrun)|].
  destruct (specMap !! "ports") as [servicePorts|] eqn:Eports; [|exact (Hnone Hrun)].
  destruct servicePorts as [| | | | | | |ports|]; try exact (Hnone Hrun).
  assert (Hlive : forall explicit unnamed,
            Return (livePorts ports 0 explicit unnamed []) = Return (patch, None) ->
            (forall ports',
               getNodePortPatch (withPorts u specMap ports')
               = Return (livePorts ports' 0 explicit unnamed [])) ->
            exists u', applyPatch patch u = Some u'
                       /\ GetAnnotations u' = GetAnnotations u
                       /\ getNodePortPatch u' = Return ([], None)).
  { intros explicit unnamed [= Hl] Hagain.
    destruct (livePorts_settles explicit unnamed u specMap ports patch Espec Eports Hl)
      as [Happly Hsettled].
    exists (withPorts u specMap (reconciledPorts explicit unnamed ports)).
    split; [exact Happly|]. split; [apply GetAnnotations_withPorts|].
    rewrite Hagain, Hsettled. reflexivity. }
  assert (Hshape : forall ports',
            getNodePortPatch (withPorts u specMap ports')
            = match GetAnnotations u !! lastAppliedKey with
              | Some lastAppliedConfig =>
                  match json_Unmarshal lastAppliedConfig with
                  | (_, Some err) => Return ([], Some err)
                  | (appliedServiceUnstructured, None) =>
                      '(snapshot, found, err) ←
                        NestedSlice appliedServiceUnstructured ["spec"; "ports"];
                      match err with
                      | Some err => Return ([], Some err)
                      | None =>
                          if (found : bool) then
                            '(explicitNodePorts, unnamedPortInts, err) ←
                              appliedPorts snapshot ∅ ∅;
                            match err with
                            | Some err => Return ([], Some err)
                            | None =>
                                Return (livePorts ports' 0 explicitNodePorts
                                          unnamedPortInts [])
                            end
                          else Return (livePorts ports' 0 ∅ ∅ [])
                      end
                  end
              | None => Return (livePorts ports' 0 ∅ ∅ [])
              end).
  { intros ports'. unfold getNodePortPatch, UnstructuredContent.
    rewrite GetAnnotations_withPorts. unfold withPorts. cbn [Object].
    rewrite lookup_insert_eq, lookup_insert_ne, Etype, Ename, lookup_insert_eq
      by discriminate.
    reflexivity. }
  destruct (GetAnnotations u !! lastAppliedKey) as [text|] eqn:Eann.
  2:{ apply (Hlive ∅ ∅ Hrun). exact Hshape. }
  destruct (json_Unmarshal text) as [applied [e|]] eqn:Ej; [discriminate|].
  destruct (NestedSlice applied ["spec"; "ports"]) as [[[snapshot found] [e|]]|] eqn:En;
    try discriminate.
  cbn in Hrun. destruct found.
  2:{ apply (Hlive ∅ ∅ Hrun). intros ports'. rewrite Hshape. reflexivity. }
  destruct (appliedPorts snapshot ∅ ∅) as [[[explicit unnamed] [e|]]|] eqn:Ea;
    try discriminate.
  cbn in Hrun. apply (Hlive explicit unnamed Hrun).
  intros ports'. rewrite Hshape. cbn. rewrite Ea. reflexivity.
Qed.

End ReconcilerApplied.

Lemma getNodePortPatch_applies_and_is_idempotent_witness :
  exists u',
    applyPatch [removeNodePort 0; removeNodePort 1] Examples.nodePortService = Some u'
    /\ GetAnnotations u' = GetAnnotations Examples.nodePortService
    /\ @getNodePortPatch Reference.library u' = Return ([], None).
Proof.
  apply (@getNodePortPatch_applies_and_is_idempotent Reference.library
           reference_decodes_remove Examples.nodePortService).
  vm_compute. reflexivity.
Defined.
